(** * StormCloudIDE: the generation swarm, the hybrid swarm and the rate limiter

    A shallow embedding of
    - [apps/api/app/swarm/nodes.py] and [apps/api/app/swarm/graph.py]
      (the five stage functions, the model-chain runner, the review loop),
    - [apps/api/app/rate_limit.py] (the in-memory sliding-window limiter),
    - [HybridSwarm._swarm] of [app.py],
    together with the properties the specification states about them.

    Python values are modelled by the inductive [pyval]; a [str] is the
    [string] of its characters, one [ascii] per character, so the text of
    the model is text of code points below 256; a [dict] that is iterated
    or joined is an association list in insertion order; exceptions are
    values of [Exn] and a function that may raise returns a sum. *)

From Stdlib Require Import String Ascii List ZArith QArith Qabs Lia Lqa Bool DecimalString Sorted.
From stdpp Require Import gmap strings.
Import ListNotations.

Local Open Scope string_scope.
Local Open Scope Z_scope.

(* ===================================================================== *)
(** ** Python strings *)
(* ===================================================================== *)

Module Py.

Definition dquote : ascii := ascii_of_nat 34.
Definition nl : string := String (ascii_of_nat 10) EmptyString.
(** [q s] is [s] between two double quotes. *)
Definition q (s : string) : string := String dquote (s ++ String dquote EmptyString).

(** [str.isspace] on one character.  Python's white space is U+0009 to
    U+000D, U+001C to U+0020, U+0085 (next line), U+00A0 (no-break space)
    and, above U+00FF, U+1680, U+2000 to U+200A, U+2028, U+2029, U+202F,
    U+205F and U+3000.  A character of the model is a code point below 256:
    the first four groups are all of them. *)
Definition isspace (c : ascii) : bool :=
  let n := nat_of_ascii c in
  (((9 <=? n) && (n <=? 13)) || ((28 <=? n) && (n <=? 32))
   || (n =? 133) || (n =? 160))%nat.

(** [s.lstrip()] *)
Fixpoint lstrip (s : string) : string :=
  match s with
  | EmptyString => EmptyString
  | String c r => if isspace c then lstrip r else s
  end.

(** [s.rstrip()] *)
Fixpoint rstrip (s : string) : string :=
  match s with
  | EmptyString => EmptyString
  | String c r =>
      match rstrip r with
      | EmptyString => if isspace c then EmptyString else String c EmptyString
      | r' => String c r'
      end
  end.

(** [s.strip()] *)
Definition strip (s : string) : string := rstrip (lstrip s).

(** [s.startswith(p)] *)
Definition startswith (p s : string) : bool := String.prefix p s.

(** [s.endswith(p)]: some tail of [s] is [p]. *)
Fixpoint endswith (p s : string) : bool :=
  String.eqb s p ||
  match s with
  | EmptyString => false
  | String _ r => endswith p r
  end.

(** [s.find(sub)], counting from [i]; -1 when [sub] does not occur. *)
Fixpoint find_from (sub s : string) (i : Z) : Z :=
  if String.prefix sub s then i
  else match s with
       | EmptyString => -1
       | String _ r => find_from sub r (i + 1)
       end.

Definition find (sub s : string) : Z := find_from sub s 0.

(** [s.rfind(sub)], counting from [i]; -1 when [sub] does not occur. *)
Fixpoint rfind_from (sub s : string) (i : Z) : Z :=
  match s with
  | EmptyString => if String.prefix sub s then i else -1
  | String _ r =>
      let k := rfind_from sub r (i + 1) in
      if k =? -1 then (if String.prefix sub s then i else -1) else k
  end.

Definition rfind (sub s : string) : Z := rfind_from sub s 0.

(** Index normalisation of a slice bound. *)
Definition clamp (i len : Z) : Z :=
  if i <? 0 then Z.max 0 (len + i) else Z.min i len.

(** [s[a:b]] *)
Definition slice (a b : Z) (s : string) : string :=
  let len := Z.of_nat (String.length s) in
  let a' := clamp a len in
  let b' := clamp b len in
  String.substring (Z.to_nat a') (Z.to_nat (b' - a')) s.

(** [s[:b]] *)
Definition slice_to (b : Z) (s : string) : string := slice 0 b s.

(** [sub in s] *)
Definition contains (sub s : string) : bool := negb (find sub s =? -1).

(** [sep.join(l)] *)
Fixpoint join (sep : string) (l : list string) : string :=
  match l with
  | [] => EmptyString
  | [x] => x
  | x :: r => x ++ sep ++ join sep r
  end.

(* ------------------------------------------------------------------- *)
(** *** Values and dictionaries *)

(** The values that reach this code: what [json.loads] returns and what
    the dict literals of the sources hold.  A float keeps its lexeme. *)
#[warnings="-register-all"]
Inductive pyval : Type :=
| PNone
| PBool (b : bool)
| PInt (z : Z)
| PFloat (lexeme : string)
| PStr (s : string)
| PList (l : list pyval)
| PDict (d : list (string * pyval)).

(** A [dict] with string keys, in insertion order, keys unique. *)
Definition dict (V : Type) : Type := list (string * V).

Section Dict.
Context {V : Type}.

(** [d.get(k)] *)
Fixpoint dict_get (k : string) (d : dict V) : option V :=
  match d with
  | [] => None
  | (k', v) :: r => if String.eqb k k' then Some v else dict_get k r
  end.

(** [k in d] *)
Definition dict_mem (k : string) (d : dict V) : bool :=
  match dict_get k d with Some _ => true | None => false end.

(** [d[k] = v]: an existing key keeps its place, a new one goes last. *)
Fixpoint dict_set (k : string) (v : V) (d : dict V) : dict V :=
  match d with
  | [] => [(k, v)]
  | (k', v') :: r =>
      if String.eqb k k' then (k', v) :: r else (k', v') :: dict_set k v r
  end.

Definition dict_keys (d : dict V) : list string := map fst d.
Definition dict_values (d : dict V) : list V := map snd d.
End Dict.

(** Exceptions raised in the modelled code.  [ProviderError r] is whatever
    the provider call raised, known by its [repr] [r]. *)
Inductive Exn : Type :=
| RuntimeError (msg : string)
| KeyError (key : string)
| AttributeError (msg : string)
| TypeError (msg : string)
| JSONDecodeError (msg : string)
| ProviderError (repr : string).

End Py.

(* ===================================================================== *)
(** ** A model of [json.loads] *)
(* ===================================================================== *)

(** [json.loads] belongs to Python's standard library.  The stage functions
    are written over an arbitrary [json_loads]; this recursive-descent
    reader of the JSON grammar is the instance used to run them on concrete
    responses.  Integers become [PInt], other numbers [PFloat] with their
    lexeme, a repeated key keeps its last value, and a [\u] escape is
    decoded when its code point is below 128.  Every recursive call is on a
    shorter text and at most two calls deep per character, which is what the
    fuel of [loads] allows for. *)
Module Json.
Import Py.

Definition is_ws (c : ascii) : bool :=
  let n := nat_of_ascii c in
  ((n =? 32) || (n =? 9) || (n =? 10) || (n =? 13))%nat.

Fixpoint skip_ws (s : string) : string :=
  match s with
  | EmptyString => EmptyString
  | String c r => if is_ws c then skip_ws r else s
  end.

Definition is_digit (c : ascii) : bool :=
  let n := nat_of_ascii c in ((48 <=? n) && (n <=? 57))%nat.

Definition digit_val (c : ascii) : Z := Z.of_nat (nat_of_ascii c) - 48.

Definition hex_val (c : ascii) : option Z :=
  let n := nat_of_ascii c in
  if ((48 <=? n) && (n <=? 57))%nat then Some (Z.of_nat n - 48)
  else if ((65 <=? n) && (n <=? 70))%nat then Some (Z.of_nat n - 55)
  else if ((97 <=? n) && (n <=? 102))%nat then Some (Z.of_nat n - 87)
  else None.

(** Appends one character. *)
Definition snoc (s : string) (c : ascii) : string := s ++ String c EmptyString.

(** The characters of a string literal after its opening quote; returns the
    decoded string and what follows the closing quote. *)
Fixpoint read_string (s acc : string) : option (string * string) :=
  match s with
  | EmptyString => None
  | String c r =>
      if Ascii.eqb c dquote then Some (acc, r)
      else if Ascii.eqb c "\"%char then
        match r with
        | String e r' =>
            if Ascii.eqb e dquote then read_string r' (snoc acc dquote)
            else if Ascii.eqb e "\"%char then read_string r' (snoc acc "\"%char)
            else if Ascii.eqb e "/"%char then read_string r' (snoc acc "/"%char)
            else if Ascii.eqb e "b"%char then read_string r' (snoc acc (ascii_of_nat 8))
            else if Ascii.eqb e "f"%char then read_string r' (snoc acc (ascii_of_nat 12))
            else if Ascii.eqb e "n"%char then read_string r' (snoc acc (ascii_of_nat 10))
            else if Ascii.eqb e "r"%char then read_string r' (snoc acc (ascii_of_nat 13))
            else if Ascii.eqb e "t"%char then read_string r' (snoc acc (ascii_of_nat 9))
            else if Ascii.eqb e "u"%char then
              match r' with
              | String h1 (String h2 (String h3 (String h4 r''))) =>
                  match hex_val h1, hex_val h2, hex_val h3, hex_val h4 with
                  | Some a, Some b, Some c', Some d =>
                      let cp := ((a * 16 + b) * 16 + c') * 16 + d in
                      if cp <? 128
                      then read_string r'' (snoc acc (ascii_of_nat (Z.to_nat cp)))
                      else None
                  | _, _, _, _ => None
                  end
              | _ => None
              end
            else None
        | EmptyString => None
        end
      else if (nat_of_ascii c <? 32)%nat then None
      else read_string r (snoc acc c)
  end.

(** A run of digits: its characters, its value continued from [acc], and
    the rest. *)
Fixpoint read_digits (s lex : string) (acc : Z) : string * Z * string :=
  match s with
  | String c r =>
      if is_digit c then read_digits r (snoc lex c) (acc * 10 + digit_val c)
      else (lex, acc, s)
  | EmptyString => (lex, acc, s)
  end.

(** The fraction and the exponent of a number, when present. *)
Definition read_frac_exp (s : string) : option (string * string) :=
  let '(frac, s1) :=
    match s with
    | String "."%char r =>
        let '(lex, _, r') := read_digits r EmptyString 0 in
        (String "."%char lex, r')
    | _ => (EmptyString, s)
    end in
  if String.eqb frac "." then None else
  match s1 with
  | String e r =>
      if Ascii.eqb e "e"%char || Ascii.eqb e "E"%char then
        let '(sign, r1) :=
          match r with
          | String "+"%char r1 => ("+", r1)
          | String "-"%char r1 => ("-", r1)
          | _ => (EmptyString, r)
          end in
        let '(lex, _, r2) := read_digits r1 EmptyString 0 in
        if String.eqb lex EmptyString then Some (frac, s1)
        else Some (frac ++ String e sign ++ lex, r2)
      else Some (frac, s1)
  | EmptyString => Some (frac, s1)
  end.

(** A number without its sign. *)
Definition read_unsigned (s : string) : option (string * Z * string * string) :=
  match s with
  | String c r =>
      if Ascii.eqb c "0"%char then
        match read_frac_exp r with
        | Some (fe, r') => Some ("0", 0, fe, r')
        | None => None
        end
      else if is_digit c then
        let '(lex, z, r1) := read_digits s EmptyString 0 in
        match read_frac_exp r1 with
        | Some (fe, r') => Some (lex, z, fe, r')
        | None => None
        end
      else None
  | EmptyString => None
  end.

Definition read_number (neg : bool) (s : string) : option (pyval * string) :=
  match read_unsigned s with
  | Some (lex, z, fe, r) =>
      if String.eqb fe EmptyString
      then Some (PInt (if neg then - z else z), r)
      else Some (PFloat ((if neg then "-" else "") ++ lex ++ fe), r)
  | None => None
  end.

(** Drops [lit] from the front of [s]. *)
Definition read_lit (lit s : string) : option string :=
  if String.prefix lit s
  then Some (String.substring (String.length lit) (String.length s - String.length lit) s)
  else None.

(** Setting a key of a JSON object: the last value of a repeated key wins. *)
Definition obj_set (k : string) (v : pyval) (d : list (string * pyval)) :=
  dict_set k v d.

Fixpoint read_value (fuel : nat) (s : string) : option (pyval * string) :=
  match fuel with
  | O => None
  | S f =>
      match skip_ws s with
      | EmptyString => None
      | String c r =>
          if Ascii.eqb c "{"%char then
            match skip_ws r with
            | String "}"%char r' => Some (PDict [], r')
            | _ => read_members f r []
            end
          else if Ascii.eqb c "["%char then
            match skip_ws r with
            | String "]"%char r' => Some (PList [], r')
            | _ => read_elements f r []
            end
          else if Ascii.eqb c dquote then
            match read_string r EmptyString with
            | Some (str, r') => Some (PStr str, r')
            | None => None
            end
          else if Ascii.eqb c "-"%char then
            match read_lit "Infinity" r with
            | Some r' => Some (PFloat "-Infinity", r')
            | None => read_number true r
            end
          else if is_digit c then read_number false (String c r)
          else
            match read_lit "true" (String c r) with
            | Some r' => Some (PBool true, r')
            | None =>
            match read_lit "false" (String c r) with
            | Some r' => Some (PBool false, r')
            | None =>
            match read_lit "null" (String c r) with
            | Some r' => Some (PNone, r')
            | None =>
            match read_lit "NaN" (String c r) with
            | Some r' => Some (PFloat "NaN", r')
            | None =>
            match read_lit "Infinity" (String c r) with
            | Some r' => Some (PFloat "Infinity", r')
            | None => None
            end end end end end
      end
  end

with read_elements (fuel : nat) (s : string) (acc : list pyval)
  : option (pyval * string) :=
  match fuel with
  | O => None
  | S f =>
      match read_value f s with
      | Some (v, r) =>
          match skip_ws r with
          | String ","%char r' => read_elements f r' (acc ++ [v])
          | String "]"%char r' => Some (PList (acc ++ [v]), r')
          | _ => None
          end
      | None => None
      end
  end

with read_members (fuel : nat) (s : string) (acc : list (string * pyval))
  : option (pyval * string) :=
  match fuel with
  | O => None
  | S f =>
      match skip_ws s with
      | String c r =>
          if Ascii.eqb c dquote then
            match read_string r EmptyString with
            | Some (k, r1) =>
                match skip_ws r1 with
                | String ":"%char r2 =>
                    match read_value f r2 with
                    | Some (v, r3) =>
                        match skip_ws r3 with
                        | String ","%char r4 => read_members f r4 (obj_set k v acc)
                        | String "}"%char r4 => Some (PDict (obj_set k v acc), r4)
                        | _ => None
                        end
                    | None => None
                    end
                | _ => None
                end
            | None => None
            end
          else None
      | EmptyString => None
      end
  end.

(** [json.loads(s)]: one value, then nothing but white space. *)
Definition loads (s : string) : Exn + pyval :=
  match read_value (2 * String.length s + 2) s with
  | Some (v, r) =>
      match skip_ws r with
      | EmptyString => inr v
      | _ => inl (JSONDecodeError "Extra data")
      end
  | None => inl (JSONDecodeError "Expecting value")
  end.

End Json.

(* ===================================================================== *)
(** ** A state and exception monad *)
(* ===================================================================== *)

(** A computation over a mutable store [S] that returns an [A] or raises.
    The store it leaves is kept when it raises: what was written before the
    exception stays written, as on a Python object shared by reference. *)
Module Eff.
Import Py.

Definition M (S A : Type) : Type := S -> (Exn + A) * S.

Definition ret {S A} (a : A) : M S A := fun s => (inr a, s).
Definition raise {S A} (e : Exn) : M S A := fun s => (inl e, s).
Definition bind {S A B} (m : M S A) (k : A -> M S B) : M S B :=
  fun s => match m s with
           | (inr a, s') => k a s'
           | (inl e, s') => (inl e, s')
           end.
Definition get {S} : M S S := fun s => (inr s, s).
Definition modify {S} (f : S -> S) : M S unit := fun s => (inr tt, f s).

(** [try: m  except Exception: pass], keeping the value when there is one. *)
Definition attempt {S A} (m : M S A) : M S (option A) :=
  fun s => match m s with
           | (inr a, s') => (inr (Some a), s')
           | (inl _, s') => (inr None, s')
           end.

(** A pure computation that may raise. *)
Definition lift {S A} (r : Exn + A) : M S A :=
  fun s => (r, s).

(** Runs a computation on the second component of the store. *)
Definition on_snd {S W A} (m : M W A) : M (S * W) A :=
  fun sw => let '(r, w') := m (snd sw) in (r, (fst sw, w')).

(** Runs a computation on the first component of the store. *)
Definition on_fst {S W A} (m : M S A) : M (S * W) A :=
  fun sw => let '(r, s') := m (fst sw) in (r, (s', snd sw)).

Module Notations.
  Notation "'let!' x ':=' m 'in' k" := (bind m (fun x => k))
    (at level 10, x name, m at level 100, k at level 200).
  Notation "'let!' ' pat ':=' m 'in' k" :=
    (bind m (fun x => match x with pat => k end))
    (at level 10, pat pattern, m at level 100, k at level 200).
  Notation "m ;;; k" := (bind m (fun _ => k))
    (at level 100, k at level 200, right associativity).
End Notations.

End Eff.

(* ===================================================================== *)
(** ** The generation swarm: [swarm/prompts.py], [swarm/models.py],
       [swarm/nodes.py], [swarm/graph.py] *)
(* ===================================================================== *)

Module Swarm.
Import Py Eff Eff.Notations.

(** *** [prompts.py] *)

Definition SYSTEM_BASE : string :=
  "You are Nexus Nebula Universe Swarm: pragmatic, security-aware, and allergic to broken builds." ++ nl ++
  "Return outputs that are directly usable. If asked for structured output, obey strictly.".

Definition RESEARCH_PROMPT : string :=
  "Analyze the user's request and extract:" ++ nl ++
  "- key requirements" ++ nl ++
  "- assumptions" ++ nl ++
  "- risks" ++ nl ++
  "- minimal MVP scope" ++ nl ++
  "Keep it short and actionable.".

Definition PLANNER_PROMPT : string :=
  "Create a step-by-step build plan for the requested output." ++ nl ++
  "Include file list targets and any important constraints. Keep it implementable.".

Definition CODER_PROMPT : string :=
  "You will generate a small runnable starter project as text files." ++ nl ++
  nl ++
  "Return STRICT JSON only:" ++ nl ++
  "{" ++ nl ++
  "  " ++ q "files" ++ ": [" ++ nl ++
  "    {" ++ q "path" ++ ": " ++ q "README.md" ++ ", " ++ q "content" ++ ": " ++ q "..." ++ "}," ++ nl ++
  "    {" ++ q "path" ++ ": " ++ q "src/app/page.tsx" ++ ", " ++ q "content" ++ ": " ++ q "..." ++ "}" ++ nl ++
  "  ]" ++ nl ++
  "}" ++ nl ++
  nl ++
  "Rules:" ++ nl ++
  "- Make a tiny Next.js App Router app (TypeScript) if kind=webapp" ++ nl ++
  "- If kind=api, make a tiny FastAPI app" ++ nl ++
  "- Include install/run instructions in README.md" ++ nl ++
  "- No markdown fences inside JSON strings" ++ nl ++
  "- Keep total size reasonable" ++ nl.

Definition DESIGNER_PROMPT : string :=
  "Create 1-3 image prompts suitable for a thumbnail/hero image for this project." ++ nl ++
  "Return STRICT JSON:" ++ nl ++
  "{" ++ q "image_prompts" ++ ":[" ++ q "..." ++ "," ++ q "..." ++ "]}".

Definition REVIEWER_PROMPT : string :=
  "Review the generated files for obvious issues:" ++ nl ++
  "- missing README" ++ nl ++
  "- missing run commands" ++ nl ++
  "- security foot-guns (hardcoded secrets)" ++ nl ++
  "Return STRICT JSON:" ++ nl ++
  "{" ++ q "pass" ++ ": true/false, " ++ q "notes" ++ ": " ++ q "short notes" ++ ", " ++
  q "fix_suggestions" ++ ": " ++ q "short" ++ "}".

(** *** [models.py]: [SwarmState], a [TypedDict] with [total=False]

    Every key may be absent, hence the options.  [state[k]] on an absent
    key raises [KeyError]; [state.get(k, d)] gives [d]. *)
Record SwarmState : Type := mkState {
  project_id : option string;
  owner_id : option string;
  title : option string;
  kind : option string;
  prompt : option string;
  iterations : option Z;
  max_iterations : option Z;
  plan : option string;
  code_files : option (dict string);
  image_prompts : option (list string);
  image_urls : option (list string);
  review_passed : option bool;
  review_notes : option string;
  artifact_storage_path : option string;
  artifact_signed_url : option string;
  artifact_id : option string;
  timeline : option (list (dict pyval))
}.

Definition set_iterations (v : Z) (s : SwarmState) : SwarmState :=
  mkState (project_id s) (owner_id s) (title s) (kind s) (prompt s)
    (Some v) (max_iterations s) (plan s) (code_files s) (image_prompts s)
    (image_urls s) (review_passed s) (review_notes s)
    (artifact_storage_path s) (artifact_signed_url s) (artifact_id s) (timeline s).

Definition set_plan (v : string) (s : SwarmState) : SwarmState :=
  mkState (project_id s) (owner_id s) (title s) (kind s) (prompt s)
    (iterations s) (max_iterations s) (Some v) (code_files s) (image_prompts s)
    (image_urls s) (review_passed s) (review_notes s)
    (artifact_storage_path s) (artifact_signed_url s) (artifact_id s) (timeline s).

Definition set_code_files (v : dict string) (s : SwarmState) : SwarmState :=
  mkState (project_id s) (owner_id s) (title s) (kind s) (prompt s)
    (iterations s) (max_iterations s) (plan s) (Some v) (image_prompts s)
    (image_urls s) (review_passed s) (review_notes s)
    (artifact_storage_path s) (artifact_signed_url s) (artifact_id s) (timeline s).

Definition set_image_prompts (v : list string) (s : SwarmState) : SwarmState :=
  mkState (project_id s) (owner_id s) (title s) (kind s) (prompt s)
    (iterations s) (max_iterations s) (plan s) (code_files s) (Some v)
    (image_urls s) (review_passed s) (review_notes s)
    (artifact_storage_path s) (artifact_signed_url s) (artifact_id s) (timeline s).

Definition set_review_passed (v : bool) (s : SwarmState) : SwarmState :=
  mkState (project_id s) (owner_id s) (title s) (kind s) (prompt s)
    (iterations s) (max_iterations s) (plan s) (code_files s) (image_prompts s)
    (image_urls s) (Some v) (review_notes s)
    (artifact_storage_path s) (artifact_signed_url s) (artifact_id s) (timeline s).

Definition set_review_notes (v : string) (s : SwarmState) : SwarmState :=
  mkState (project_id s) (owner_id s) (title s) (kind s) (prompt s)
    (iterations s) (max_iterations s) (plan s) (code_files s) (image_prompts s)
    (image_urls s) (review_passed s) (Some v)
    (artifact_storage_path s) (artifact_signed_url s) (artifact_id s) (timeline s).

Definition set_timeline (v : list (dict pyval)) (s : SwarmState) : SwarmState :=
  mkState (project_id s) (owner_id s) (title s) (kind s) (prompt s)
    (iterations s) (max_iterations s) (plan s) (code_files s) (image_prompts s)
    (image_urls s) (review_passed s) (review_notes s)
    (artifact_storage_path s) (artifact_signed_url s) (artifact_id s) (Some v).

(** *** The provider call

    [litellm.acompletion] is the one call that leaves the process.  A call
    is recorded with its arguments; what the provider answers may depend on
    every call made so far.  [Responds c] stands for a response whose
    [choices[0].message.content] is [c]; [Fails r] for anything raised by the
    call or by reading that field, [r] being the [repr] of the exception. *)
Record Call : Type := mkCall {
  call_model : string;
  call_messages : list (string * string);
  call_stream : bool;
  call_api_key : option string
}.

Inductive Outcome : Type :=
| Responds (content : string)
| Fails (repr : string).

(** The calls issued so far, oldest first. *)
Definition World : Type := list Call.

(** [api_keys_env.get(k)] on a [Dict[str, str | None]]. *)
Definition env_get (k : string) (env : gmap string (option string)) : option string :=
  match env !! k with
  | Some (Some v) => Some v
  | _ => None
  end.

(** The credential [_one_shot_completion] picks for a model. *)
Definition api_key_for (model : string) (env : gmap string (option string))
  : option string :=
  if startswith "groq/" model then env_get "GROQ_API_KEY" env
  else if startswith "openrouter/" model then env_get "OPENROUTER_API_KEY" env
  else if startswith "gemini/" model then env_get "GOOGLE_API_KEY" env
  else None.

(** *** [nodes.py] *)

(** The provider, and the Python built-ins whose results the code uses
    without fixing them: [json.loads], [repr], and the truth value of a
    float. *)
Class Runtime : Type := {
  acompletion : World -> Call -> Outcome;
  json_loads : string -> Exn + pyval;
  py_repr : pyval -> string;
  float_truthy : string -> bool
}.

Section Nodes.
Context {R : Runtime}.

(** [str(v)] *)
Definition py_str (v : pyval) : string :=
  match v with
  | PStr s => s
  | _ => py_repr v
  end.

(** [bool(v)] *)
Definition py_bool (v : pyval) : bool :=
  match v with
  | PNone => false
  | PBool b => b
  | PInt z => negb (z =? 0)
  | PFloat f => float_truthy f
  | PStr s => negb (String.eqb s EmptyString)
  | PList l => match l with [] => false | _ => true end
  | PDict d => match d with [] => false | _ => true end
  end.

(** [data.get(k, dflt)]; only a dict has [get]. *)
Definition py_get (k : string) (dflt : pyval) (data : pyval) : Exn + pyval :=
  match data with
  | PDict d => inr (default dflt (dict_get k d))
  | _ => inl (AttributeError "get")
  end.

(** The items of [for x in v]: a list gives its elements, a dict its
    keys, a string its characters; nothing else iterates. *)
Definition py_iter (v : pyval) : Exn + list pyval :=
  match v with
  | PList l => inr l
  | PDict d => inr (map PStr (dict_keys d))
  | PStr s => inr (map (fun c => PStr (String c EmptyString)) (list_ascii_of_string s))
  | _ => inl (TypeError "object is not iterable")
  end.

(** [repr(e)] of a caught exception, and of [None]. *)
Definition exn_repr (e : Exn) : string :=
  match e with
  | ProviderError r => r
  | RuntimeError m => "RuntimeError(" ++ py_repr (PStr m) ++ ")"
  | KeyError k => "KeyError(" ++ py_repr (PStr k) ++ ")"
  | AttributeError m => "AttributeError(" ++ py_repr (PStr m) ++ ")"
  | TypeError m => "TypeError(" ++ py_repr (PStr m) ++ ")"
  | JSONDecodeError m => "JSONDecodeError(" ++ py_repr (PStr m) ++ ")"
  end.

Definition repr_last_err (last_err : option Exn) : string :=
  match last_err with
  | None => "None"
  | Some e => exn_repr e
  end.

Definition _safe_json_loads (s : string) : Exn + pyval :=
  let s := strip s in
  if startswith "{" s && endswith "}" s then json_loads s
  else
    let start := find "{" s in
    let end_ := rfind "}" s in
    if negb (start =? -1) && negb (end_ =? -1) && (end_ >? start)
    then json_loads (slice start (end_ + 1) s)
    else json_loads s.

Definition _one_shot_completion (model : string)
    (messages : list (string * string))
    (api_keys_env : gmap string (option string)) : M World string :=
  fun w =>
    let c := mkCall model messages false (api_key_for model api_keys_env) in
    match acompletion w c with
    | Responds content => (inr content, (w ++ [c])%list)
    | Fails r => (inl (ProviderError r), (w ++ [c])%list)
    end.

(** The [for m in models] loop of [_try_models_one_shot], entered with
    the current [last_err]. *)
Fixpoint try_models_loop (models : list string)
    (messages : list (string * string))
    (api_keys_env : gmap string (option string))
    (last_err : option Exn) : M World (string * string) :=
  match models with
  | [] =>
      raise (RuntimeError ("All models failed. Last error: " ++ repr_last_err last_err))
  | m :: rest =>
      fun w =>
        match _one_shot_completion m messages api_keys_env w with
        | (inr out, w') => (inr (m, out), w')
        | (inl e, w') => try_models_loop rest messages api_keys_env (Some e) w'
        end
  end.

Definition _try_models_one_shot (models : list string)
    (messages : list (string * string))
    (api_keys_env : gmap string (option string)) : M World (string * string) :=
  try_models_loop models messages api_keys_env None.

(** The store of a stage: the state object and the provider log. *)
Definition Store : Type := (SwarmState * World)%type.

(** [state[key]] *)
Definition item {A} (field : SwarmState -> option A) (key : string)
  : M Store A :=
  fun sw => match field (fst sw) with
            | Some v => (inr v, sw)
            | None => (inl (KeyError key), sw)
            end.

(** The state object itself, for [state.get]. *)
Definition the_state : M Store SwarmState := fun sw => (inr (fst sw), sw).

(** [state[key] = v] *)
Definition assign (setter : SwarmState -> SwarmState) : M Store unit :=
  on_fst (modify setter).

(** [state["timeline"].append(entry)] *)
Definition timeline_append (entry : dict pyval) : M Store unit :=
  let! tl := item timeline "timeline" in
  assign (set_timeline (tl ++ [entry])%list).

Definition node_research (model_chain : list string)
    (api_keys_env : gmap string (option string)) : M Store unit :=
  let! p := item prompt "prompt" in
  let messages :=
    [("system", SYSTEM_BASE);
     ("user", RESEARCH_PROMPT ++ nl ++ nl ++ "USER PROMPT:" ++ nl ++ p)] in
  let! '(_, text) := on_snd (_try_models_one_shot model_chain messages api_keys_env) in
  timeline_append [("node", PStr "Researcher"); ("event", PStr "done")] ;;;
  assign (set_plan ("[Research Notes]" ++ nl ++ text ++ nl ++ nl)).

Definition node_plan (model_chain : list string)
    (api_keys_env : gmap string (option string)) : M Store unit :=
  let! k := item kind "kind" in
  let! p := item prompt "prompt" in
  let messages :=
    [("system", SYSTEM_BASE);
     ("user", PLANNER_PROMPT ++ nl ++ nl ++ "KIND=" ++ k ++ nl ++ "PROMPT:" ++ nl ++ p)] in
  let! '(_, text) := on_snd (_try_models_one_shot model_chain messages api_keys_env) in
  timeline_append [("node", PStr "Planner"); ("event", PStr "done")] ;;;
  let! st := the_state in
  assign (set_plan (default "" (plan st) ++ "[Plan]" ++ nl ++ text ++ nl)).

(** One turn of the [for f in ...] loop of [node_code]. *)
Definition add_file (files : dict string) (f : pyval) : dict string :=
  match f with
  | PDict d =>
      if dict_mem "path" d && dict_mem "content" d then
        match dict_get "path" d, dict_get "content" d with
        | Some pth, Some cnt => dict_set (py_str pth) (py_str cnt) files
        | _, _ => files
        end
      else files
  | _ => files
  end.

(** The [messages] of [node_code]. *)
Definition coder_messages (k p : string) (st : SwarmState) : list (string * string) :=
  [("system", SYSTEM_BASE);
   ("user", CODER_PROMPT ++ nl ++ nl ++ "KIND=" ++ k ++ nl ++ "PROMPT:" ++ nl ++ p
            ++ nl ++ nl ++ "PLAN:" ++ nl ++ default "" (plan st))].

Definition node_code (model_chain : list string)
    (api_keys_env : gmap string (option string)) : M Store unit :=
  let! k := item kind "kind" in
  let! p := item prompt "prompt" in
  let! st := the_state in
  let messages := coder_messages k p st in
  let! '(_, raw) := on_snd (_try_models_one_shot model_chain messages api_keys_env) in
  let! data := lift (_safe_json_loads raw) in
  let! listed := lift (py_get "files" (PList []) data) in
  let! items := lift (py_iter listed) in
  let files := fold_left add_file items [] in
  match files with
  | [] => raise (RuntimeError "Coder returned no files.")
  | _ =>
      assign (set_code_files files) ;;;
      timeline_append [("node", PStr "Coder"); ("event", PStr "done");
                       ("files", PInt (Z.of_nat (List.length files)))]
  end.

Definition node_design (model_chain : list string)
    (api_keys_env : gmap string (option string)) : M Store unit :=
  let! p := item prompt "prompt" in
  let! st := the_state in
  let messages :=
    [("system", SYSTEM_BASE);
     ("user", DESIGNER_PROMPT ++ nl ++ nl ++ "PROMPT:" ++ nl ++ p ++ nl
              ++ "PLAN:" ++ nl ++ default "" (plan st))] in
  let! '(_, raw) := on_snd (_try_models_one_shot model_chain messages api_keys_env) in
  let! data := lift (_safe_json_loads raw) in
  let! got := lift (py_get "image_prompts" PNone data) in
  let prompts := if py_bool got then got else PList [] in
  let! items := lift (py_iter prompts) in
  let prompts := firstn 3 (map py_str items) in
  assign (set_image_prompts prompts) ;;;
  timeline_append [("node", PStr "Designer"); ("event", PStr "done");
                   ("count", PInt (Z.of_nat (List.length prompts)))].

Definition nonempty (s : string) : bool := negb (String.eqb s EmptyString).

(** The deterministic part of the review: [passed] and [notes] as they
    stand when the [try] is entered. *)
Definition local_checks (files : dict string) : bool * list string :=
  let missing_readme := negb (dict_mem "README.md" files) in
  let notes : list string := [] in
  let passed := true in
  let '(passed, notes) :=
    if missing_readme then (false, (notes ++ ["Missing README.md"])%list)
    else (passed, notes) in
  let joined := join nl (dict_values files) in
  if contains "SUPABASE_SERVICE_ROLE_KEY" joined || contains "STRIPE_SECRET_KEY" joined
  then (false,
        (notes ++ ["Hardcoded secret-looking env var name found. Use .env, never inline secrets."])%list)
  else (passed, notes).

(** The statements of the [try] block up to the last one that can raise. *)
Definition llm_judgment (model_chain : list string)
    (messages : list (string * string))
    (api_keys_env : gmap string (option string)) : M Store (bool * string) :=
  let! '(_, raw) := on_snd (_try_models_one_shot model_chain messages api_keys_env) in
  let! data := lift (_safe_json_loads raw) in
  let! p := lift (py_get "pass" (PBool true) data) in
  let llm_pass := py_bool p in
  let! n := lift (py_get "notes" (PStr "") data) in
  let llm_notes := strip (py_str n) in
  ret (llm_pass, llm_notes).

(** [review_notes] from the collected notes and the verdict. *)
Definition notes_text (passed : bool) (notes : list string) : string :=
  let joined := join "; " (List.filter nonempty notes) in
  if nonempty joined then joined
  else if passed then "OK" else "Needs fixes".

(** The [messages] of [node_review]. *)
Definition review_messages (files : dict string) : list (string * string) :=
  [("system", SYSTEM_BASE);
   ("user", REVIEWER_PROMPT ++ nl ++ nl ++ "FILES:" ++ nl
            ++ py_repr (PList (map PStr (dict_keys files))) ++ nl ++ nl
            ++ "README PREVIEW:" ++ nl
            ++ slice_to 1200 (default "(missing)" (dict_get "README.md" files)))].

Definition node_review (model_chain : list string)
    (api_keys_env : gmap string (option string)) : M Store unit :=
  let! st := the_state in
  let files := default [] (code_files st) in
  let '(passed, notes) := local_checks files in
  let messages := review_messages files in
  let! llm := attempt (llm_judgment model_chain messages api_keys_env) in
  let '(passed, notes) :=
    match llm with
    | Some (llm_pass, llm_notes) =>
        (if negb llm_pass then false else passed,
         if nonempty llm_notes then (notes ++ [llm_notes])%list else notes)
    | None => (passed, notes)
    end in
  assign (set_review_passed passed) ;;;
  assign (set_review_notes (notes_text passed notes)) ;;;
  timeline_append [("node", PStr "Reviewer"); ("event", PStr "done");
                   ("pass", PBool passed)].

(** *** [graph.py]

    [StateGraph] is LangGraph's.  Of what it does, the model takes this:
    - a node runs the function given to [add_node], called with the state
      as its one argument; the [config] of the run is handed only to a
      function that has a parameter of that name, and it is never spread
      into keyword arguments;
    - the dict a node returns updates the graph state, which is what the
      next node is called with;
    - the function of a conditional edge is called with a dict read from
      the graph state for that call, and only the name it returns is used:
      what it assigns to its argument is not written back;
    - a run is stopped with [GraphRecursionError] when more than
      [recursion_limit] steps would be needed;
    - [astream_events] reports the start and the end of every node, and an
      exception that leaves a node leaves [astream_events]. *)

Inductive Node : Type := Researcher | Planner | Coder | Designer | Reviewer.

(** The [chains] argument of [run_graph], read at its five keys. *)
Record Chains : Type := mkChains {
  chain_research : list string;
  chain_plan : list string;
  chain_code : list string;
  chain_design : list string;
  chain_review : list string
}.

(** [route_after_review], on the dict it is called with: the name it
    returns ([None] is END) and that dict as it leaves it. *)
Definition route_after_review (state : SwarmState) : option Node * SwarmState :=
  let iters := default 0 (iterations state) in
  let max_iters := default 2 (max_iterations state) in
  if negb (default false (review_passed state)) && (iters <? max_iters)
  then (Some Planner, set_iterations (iters + 1) state)
  else (None, state).

(** The function of a node, called with the keyword arguments that
    [run_graph] lists for that node in [node_kwargs]. *)
Definition run_node (chains : Chains)
    (api_keys_env : gmap string (option string)) (n : Node) : M Store unit :=
  match n with
  | Researcher => node_research (chain_research chains) api_keys_env
  | Planner => node_plan (chain_plan chains) api_keys_env
  | Coder => node_code (chain_code chains) api_keys_env
  | Designer => node_design (chain_design chains) api_keys_env
  | Reviewer => node_review (chain_review chains) api_keys_env
  end.

(** The edges: [add_edge] for the first four nodes, the conditional edge
    after Reviewer.  The second component is the dict the edge function
    was called with, as it leaves it. *)
Definition next_node (n : Node) (state : SwarmState) : option Node * SwarmState :=
  match n with
  | Researcher => (Some Planner, state)
  | Planner => (Some Coder, state)
  | Coder => (Some Designer, state)
  | Designer => (Some Reviewer, state)
  | Reviewer => route_after_review state
  end.

(** The keyword arguments of a call of a node function. *)
Record Kwargs : Type := mkKwargs {
  kw_model_chain : option (list string);
  kw_api_keys_env : option (gmap string (option string))
}.

(** [node_kwargs[name]] of [run_graph]. *)
Definition node_kwargs (chains : Chains)
    (api_keys_env : gmap string (option string)) (n : Node) : Kwargs :=
  mkKwargs
    (Some match n with
          | Researcher => chain_research chains
          | Planner => chain_plan chains
          | Coder => chain_code chains
          | Designer => chain_design chains
          | Reviewer => chain_review chains
          end)
    (Some api_keys_env).

(** The function [build_graph] adds under each node name. *)
Definition node_function (n : Node)
  : list string -> gmap string (option string) -> M Store unit :=
  match n with
  | Researcher => node_research
  | Planner => node_plan
  | Coder => node_code
  | Designer => node_design
  | Reviewer => node_review
  end.

Definition function_name (n : Node) : string :=
  match n with
  | Researcher => "node_research"
  | Planner => "node_plan"
  | Coder => "node_code"
  | Designer => "node_design"
  | Reviewer => "node_review"
  end.

(** The call [f(state, **kwargs)] of a node function.  [model_chain] and
    [api_keys_env] are keyword-only parameters without a default: when one
    is not given, Python raises [TypeError] and the body does not run. *)
Definition call_node (n : Node) (kwargs : Kwargs) : M Store unit :=
  match kw_model_chain kwargs, kw_api_keys_env kwargs with
  | Some model_chain, Some api_keys_env =>
      node_function n model_chain api_keys_env
  | None, Some _ =>
      raise (TypeError (function_name n
               ++ "() missing 1 required keyword-only argument: 'model_chain'"))
  | Some _, None =>
      raise (TypeError (function_name n
               ++ "() missing 1 required keyword-only argument: 'api_keys_env'"))
  | None, None =>
      raise (TypeError (function_name n
               ++ "() missing 2 required keyword-only arguments: 'model_chain' and 'api_keys_env'"))
  end.

(** How the compiled graph runs a node: it calls the function added under
    the node's name with the state alone.  [configurable], which is where
    [run_graph] puts [node_kwargs], stays in the config. *)
Definition invoke (configurable : Node -> Kwargs) (n : Node) : M Store unit :=
  call_node n (mkKwargs None None).

(** What [run_graph] yields: [node_start] before a node runs and
    [node_end], with the state the node returned, after it. *)
Inductive GraphEvent : Type :=
| node_start (n : Node)
| node_end (n : Node) (out : SwarmState).

(** How a run ended: at END, by an exception leaving a node, or by
    LangGraph's [GraphRecursionError]. *)
Inductive Ending : Type :=
| AtEnd
| Raised (n : Node) (e : Exn)
| RecursionLimit.

(** LangGraph's default [recursion_limit]; [run_graph] sets none. *)
Definition recursion_limit : nat := 25.

(** The run of the compiled graph from node [n], with [steps] steps left;
    [call] is how a node is run. *)
Fixpoint run_from (steps : nat) (call : Node -> M Store unit)
    (n : Node) (sw : Store) : list GraphEvent * Ending * Store :=
  match steps with
  | O => ([], RecursionLimit, sw)
  | S steps' =>
      match call n sw with
      | (inl e, sw') => ([node_start n], Raised n e, sw')
      | (inr _, (st', w')) =>
          match fst (next_node n st') with
          | None => ([node_start n; node_end n st'], AtEnd, (st', w'))
          | Some n' =>
              let '(evs, ending, sw2) := run_from steps' call n' (st', w') in
              (node_start n :: node_end n st' :: evs, ending, sw2)
          end
      end
  end.

(** [run_graph]: the events it yields, how it ends, and the state object
    and provider log it leaves. *)
Definition run_graph (initial_state : SwarmState)
    (chains : Chains) (api_keys_env : gmap string (option string))
    (w : World) : list GraphEvent * Ending * Store :=
  run_from recursion_limit (invoke (node_kwargs chains api_keys_env))
    Researcher (initial_state, w).

(** How often a node was started in a run. *)
Definition is_start_of (n : Node) (ev : GraphEvent) : bool :=
  match ev, n with
  | node_start Researcher, Researcher
  | node_start Planner, Planner
  | node_start Coder, Coder
  | node_start Designer, Designer
  | node_start Reviewer, Reviewer => true
  | _, _ => false
  end.

Definition is_end (ev : GraphEvent) : bool :=
  match ev with node_start _ => false | node_end _ _ => true end.

Definition executions (n : Node) (evs : list GraphEvent) : nat :=
  List.length (List.filter (is_start_of n) evs).

(** The stages of a run that returned. *)
Definition returned (evs : list GraphEvent) : nat :=
  List.length (List.filter is_end evs).

(** *** Vocabulary of the properties *)

(** The calls a chain issues when every model of it is tried. *)
Definition calls_for (models : list string) (messages : list (string * string))
    (api_keys_env : gmap string (option string)) : list Call :=
  map (fun m => mkCall m messages false (api_key_for m api_keys_env)) models.

(** Issued one after the other from log [w] on, every call of [cs]
    fails. *)
Fixpoint fails_all (w : World) (cs : list Call) : bool :=
  match cs with
  | [] => true
  | c :: rest =>
      match acompletion w c with
      | Fails _ => fails_all (w ++ [c])%list rest
      | Responds _ => false
      end
  end.

(** The error the loop holds after the calls [cs] have failed. *)
Fixpoint last_failure (w : World) (cs : list Call) (last_err : option Exn)
  : option Exn :=
  match cs with
  | [] => last_err
  | c :: rest =>
      match acompletion w c with
      | Fails r => last_failure (w ++ [c])%list rest (Some (ProviderError r))
      | Responds _ => last_err
      end
  end.

(** The provider family of [model] takes a key and none is configured. *)
Definition key_absent (model : string) (env : gmap string (option string)) : bool :=
  (startswith "groq/" model || startswith "openrouter/" model
   || startswith "gemini/" model)
  && match api_key_for model env with None => true | Some _ => false end.

(** An item of the [files] list that the Coder keeps. *)
Definition valid_entry (f : pyval) : bool :=
  match f with
  | PDict d => dict_mem "path" d && dict_mem "content" d
  | _ => false
  end.

(** The character [c] occurs in [s]. *)
Fixpoint occurs (c : ascii) (s : string) : bool :=
  match s with
  | EmptyString => false
  | String a r => Ascii.eqb a c || occurs c r
  end.

End Nodes.

End Swarm.

(* ===================================================================== *)
(** ** The rate limiter: [rate_limit.py] *)
(* ===================================================================== *)

Module RateLimit.
Import Py.

(** Clock readings are rationals: [time.time()] without its rounding. *)
Record InMemoryRateLimiter : Type := mkLimiter {
  rpm : Z;
  window_sec : Q;
  hits : gmap string (list Q)
}.

(** [InMemoryRateLimiter(rpm)] *)
Definition init (rpm : Z) : InMemoryRateLimiter :=
  mkLimiter (Z.max 1 rpm) 60%Q ∅.

(** [while q and (now - q[0]) > window: q.popleft()] *)
Fixpoint evict (now window : Q) (q : list Q) : list Q :=
  match q with
  | [] => []
  | t :: rest =>
      if negb (Qle_bool (now - t) window) then evict now window rest else q
  end.

(** What [check] raises. *)
Record HTTPException : Type := mkHTTP {
  status_code : Z;
  detail : string
}.

Definition str_of_int (z : Z) : string := NilZero.string_of_int (Z.to_int z).

(** [check(key)] at clock reading [now].  [self.hits[key]] creates the
    deque of a new key; the deque is changed in place, so the evictions
    stay when the call raises. *)
Definition check (self : InMemoryRateLimiter) (now : Q) (key : string)
  : option HTTPException * InMemoryRateLimiter :=
  let q := default [] (hits self !! key) in
  let q := evict now (window_sec self) q in
  if Z.of_nat (List.length q) >=? rpm self then
    (Some (mkHTTP 429
             ("Rate limit exceeded (" ++ str_of_int (rpm self)
              ++ "/min). Try again shortly.")),
     mkLimiter (rpm self) (window_sec self) (<[key := q]> (hits self)))
  else
    (None,
     mkLimiter (rpm self) (window_sec self) (<[key := (q ++ [now])%list]> (hits self))).

(** [rate_limit(request)], given [request.client.host] when there is a
    client. *)
Definition rate_limit (self : InMemoryRateLimiter) (now : Q)
    (client_host : option string) : option HTTPException * InMemoryRateLimiter :=
  let ip := default "unknown" client_host in
  check self now ip.

(** The limiters a process can hold: the one built by [init], after any
    sequence of [check] calls. *)
Inductive reachable : InMemoryRateLimiter -> Prop :=
| reach_init (n : Z) : reachable (init n)
| reach_check (self : InMemoryRateLimiter) (now : Q) (key : string) :
    reachable self -> reachable (snd (check self now key)).

(** The same with a clock that never goes back: [reachable_mono t self]
    when no call so far read the clock later than [t]. *)
Inductive reachable_mono : Q -> InMemoryRateLimiter -> Prop :=
| mono_init (n : Z) (t : Q) : reachable_mono t (init n)
| mono_check (self : InMemoryRateLimiter) (t now : Q) (key : string) :
    reachable_mono t self -> (t <= now)%Q ->
    reachable_mono now (snd (check self now key)).

(** The timestamps of [key] that lie in the window ending at [now]. *)
Definition in_window (now window : Q) (q : list Q) : list Q :=
  List.filter (fun t => Qle_bool (now - t) window) q.

End RateLimit.

(* ===================================================================== *)
(** ** [HybridSwarm._swarm] of [app.py] *)
(* ===================================================================== *)

Module Hybrid.
Import Py.

(** The three keys of a [HybridSwarm]; an unset key is the empty string. *)
Record HybridSwarm : Type := mkSwarm {
  groq_key : string;
  openrouter_key : string;
  google_key : string
}.

Inductive Provider : Type := Groq | OpenRouter | Gemini.

(** What [asyncio.gather(..., return_exceptions=True)] holds for one task:
    the exception it raised or the dict it returned. *)
Definition TaskResult : Type := (Exn + dict pyval)%type.

(** [if key:] *)
Definition truthy (key : string) : bool := negb (String.eqb key EmptyString).

(** The key a provider needs. *)
Definition key_of (self : HybridSwarm) (p : Provider) : string :=
  match p with
  | Groq => groq_key self
  | OpenRouter => openrouter_key self
  | Gemini => google_key self
  end.

(** The tasks [_swarm] creates, in the order it appends them. *)
Definition tasks (self : HybridSwarm) : list Provider :=
  ((if truthy (groq_key self) then [Groq] else []) ++
   (if truthy (openrouter_key self) then [OpenRouter] else []) ++
   (if truthy (google_key self) then [Gemini] else []))%list.

(** [not isinstance(r, Exception) and "error" not in r] *)
Definition is_valid (r : TaskResult) : bool :=
  match r with
  | inl _ => false
  | inr d => negb (dict_mem "error" d)
  end.

(** The list comprehension [valid]: the dicts that pass [is_valid]. *)
Fixpoint valid_of (results : list TaskResult) : list (dict pyval) :=
  match results with
  | [] => []
  | inr d :: rest => if dict_mem "error" d then valid_of rest else d :: valid_of rest
  | inl _ :: rest => valid_of rest
  end.

(** [_swarm], from the gathered results on: [results] holds one entry per
    task, in task order. *)
Definition select (results : list TaskResult) : dict pyval :=
  match valid_of results with
  | [] => [("error", PStr "All providers failed")]
  | winner :: _ =>
      let winner := dict_set "swarm_mode" (PBool true) winner in
      dict_set "candidates" (PInt (Z.of_nat (List.length (valid_of results)))) winner
  end.

(** [_swarm(prompt, code)]; [call p] is what awaiting the call of provider
    [p] gives. *)
Definition _swarm (self : HybridSwarm) (call : Provider -> TaskResult) : dict pyval :=
  match tasks self with
  | [] => [("error", PStr "No providers available")]
  | ts => select (map call ts)
  end.

End Hybrid.

(* ===================================================================== *)
(** ** Concrete runtimes and inputs *)
(* ===================================================================== *)

Module Fixtures.
Import Py Swarm.

(** A provider that answers its n-th call with the n-th entry of a script,
    and fails once the script is used up. *)
Definition scripted (script : list Outcome) : World -> Call -> Outcome :=
  fun w _ => nth (List.length w) script (Fails "script exhausted").

(** A stand-in for [repr]: every value prints as its kind. *)
Definition kind_repr (v : pyval) : string :=
  match v with
  | PNone => "None"
  | PBool _ => "<bool>"
  | PInt _ => "<int>"
  | PFloat _ => "<float>"
  | PStr _ => "<str>"
  | PList _ => "<list>"
  | PDict _ => "<dict>"
  end.

Definition runtime_of (script : list Outcome) : Runtime :=
  {| acompletion := scripted script;
     json_loads := Json.loads;
     py_repr := kind_repr;
     float_truthy := fun lexeme => negb (String.eqb lexeme "0.0") |}.

(** A provider that answers every call with the same content. *)
Definition runtime_always (content : string) : Runtime :=
  {| acompletion := fun _ _ => Responds content;
     json_loads := Json.loads;
     py_repr := kind_repr;
     float_truthy := fun lexeme => negb (String.eqb lexeme "0.0") |}.

Definition no_keys : gmap string (option string) := ∅.

Definition groq_only : gmap string (option string) :=
  <["GROQ_API_KEY" := Some "gsk-1"]> ∅.

Definition hello : list (string * string) := [("user", "hello")].

(** The state [generate] of [main.py] starts a run with. *)
Definition initial_state (k p : string) : SwarmState :=
  mkState (Some "project-1") (Some "user-1") (Some "Untitled Project")
    (Some k) (Some p) (Some 0) (Some 2) None None None None None None
    None None None (Some []).

Definition chains_of (chain : list string) : Chains :=
  mkChains chain chain chain chain chain.

(** The raw response of the specification's Coder example. *)
Definition noisy_inner : string :=
  q "files" ++ ":[{" ++ q "path" ++ ":" ++ q "a.txt" ++ ","
  ++ q "content" ++ ":" ++ q "x" ++ "}]".

Definition noisy_files : string :=
  "noise " ++ "{" ++ noisy_inner ++ "}" ++ " trailing".

Definition empty_files : string := "{" ++ q "files" ++ ": []}".

Definition pass_true : string := "{" ++ q "pass" ++ ": true}".

End Fixtures.

(* ===================================================================== *)
(** ** Properties of the model-chain runner *)
(* ===================================================================== *)

Module ChainFacts.
Import Py Eff Swarm.

Section Chain.
Context {R : Runtime}.
Variable messages : list (string * string).
Variable env : gmap string (option string).

Local Abbreviation call_of m := (mkCall m messages false (api_key_for m env)).
Local Abbreviation calls ms := (calls_for ms messages env).

Lemma calls_for_app (a b : list string) :
  calls (a ++ b)%list = (calls a ++ calls b)%list.
Proof. unfold calls_for. apply map_app. Qed.

(** Failing models are passed over: the loop goes on after them with the
    log extended by their calls and the last failure in hand. *)
Lemma loop_skips_failures (pre rest : list string) :
  forall (w : World) (last_err : option Exn),
    fails_all w (calls pre) = true ->
    try_models_loop (pre ++ rest)%list messages env last_err w
    = try_models_loop rest messages env
        (last_failure w (calls pre) last_err) (w ++ calls pre)%list.
Proof.
  induction pre as [|m pre IH]; intros w last_err Hf; cbn [List.app calls_for map].
  - cbn. now rewrite app_nil_r.
  - cbn in Hf. cbn [try_models_loop last_failure].
    unfold _one_shot_completion.
    destruct (acompletion w (call_of m)) as [c|r] eqn:Hc; [discriminate|].
    rewrite (IH _ _ Hf). now rewrite <- app_assoc.
Qed.

Lemma fails_all_app (a b : list Call) :
  forall w, fails_all w (a ++ b)%list
            = fails_all w a && fails_all (w ++ a)%list b.
Proof.
  induction a as [|c a IH]; intros w; cbn.
  - now rewrite app_nil_r.
  - destruct (acompletion w c); [reflexivity|].
    rewrite IH. now rewrite <- app_assoc.
Qed.

Lemma last_failure_snoc (a : list Call) (c : Call) (r : string) :
  forall w last_err,
    fails_all w a = true ->
    acompletion (w ++ a)%list c = Fails r ->
    last_failure w (a ++ [c])%list last_err = Some (ProviderError r).
Proof.
  induction a as [|x a IH]; intros w last_err Hf Hc; cbn in *.
  - rewrite app_nil_r in Hc. now rewrite Hc.
  - destruct (acompletion w x); [discriminate|].
    apply IH; [assumption|]. now rewrite <- app_assoc.
Qed.

(** A chain whose models all fail raises, after one call per model. *)
Lemma chain_exhausted (models : list string) (w : World) :
  fails_all w (calls models) = true ->
  _try_models_one_shot models messages env w
  = (inl (RuntimeError ("All models failed. Last error: "
                        ++ repr_last_err (last_failure w (calls models) None))),
     (w ++ calls models)%list).
Proof.
  intros Hf. unfold _try_models_one_shot.
  pose proof (loop_skips_failures models [] w None Hf) as H.
  rewrite app_nil_r in H. exact H.
Qed.

(** C2. Ordered fallback.  If the first k models of a chain fail and the
    next one responds, [_try_models_one_shot] returns that model with its
    response, and the calls it issued are those of the first k models and
    of the responding one, once each and in chain order: nothing after it
    is called.  If every model of a chain fails, it raises a
    [RuntimeError] whose message ends with the [repr] of the failure of
    the last model, after one call per model. *)
Theorem try_chain_ordered_fallback :
  (forall (pre : list string) (m : string) (post : list string)
          (w : World) (out : string),
      fails_all w (calls pre) = true ->
      acompletion (w ++ calls pre)%list (call_of m) = Responds out ->
      _try_models_one_shot (pre ++ m :: post)%list messages env w
      = (inr (m, out), (w ++ calls pre ++ [call_of m])%list))
  /\
  (forall (init : list string) (m : string) (w : World) (r : string),
      fails_all w (calls init) = true ->
      acompletion (w ++ calls init)%list (call_of m) = Fails r ->
      _try_models_one_shot (init ++ [m])%list messages env w
      = (inl (RuntimeError ("All models failed. Last error: " ++ r)),
         (w ++ calls (init ++ [m]))%list)).
Proof.
  split.
  - intros pre m post w out Hf Hm. unfold _try_models_one_shot.
    rewrite (loop_skips_failures pre (m :: post) w None Hf).
    cbn [try_models_loop]. unfold _one_shot_completion. rewrite Hm.
    now rewrite <- app_assoc.
  - intros init m w r Hf Hm. unfold _try_models_one_shot.
    assert (Hall : fails_all w (calls (init ++ [m])%list) = true).
    { rewrite calls_for_app, fails_all_app, Hf. cbn. now rewrite Hm. }
    rewrite <- (app_nil_r (init ++ [m])%list) at 1.
    rewrite (loop_skips_failures _ [] w None Hall).
    cbn [try_models_loop]. unfold raise.
    rewrite !calls_for_app.
    change (calls_for [m] messages env) with [call_of m].
    rewrite (last_failure_snoc (calls init) (call_of m) r w None Hf Hm).
    reflexivity.
Qed.

(** C7, amended.  A chain is tried in order whatever the keys are: a
    model whose family has no key configured is not skipped; it is called
    in its turn, with [api_key=None], and wins the chain when that call
    responds. *)
Theorem unkeyed_model_is_attempted :
  forall (pre : list string) (m : string) (post : list string)
         (w : World) (out : string),
    key_absent m env = true ->
    fails_all w (calls pre) = true ->
    acompletion (w ++ calls pre)%list (mkCall m messages false None) = Responds out ->
    _try_models_one_shot (pre ++ m :: post)%list messages env w
    = (inr (m, out), (w ++ calls pre ++ [mkCall m messages false None])%list).
Proof.
  intros pre m post w out Hk Hf Hm. unfold _try_models_one_shot.
  assert (Hnone : api_key_for m env = None).
  { unfold key_absent in Hk. apply andb_true_iff in Hk as [_ Hk].
    destruct (api_key_for m env); [discriminate | reflexivity]. }
  rewrite (loop_skips_failures pre (m :: post) w None Hf).
  cbn [try_models_loop]. unfold _one_shot_completion.
  rewrite Hnone, Hm. now rewrite <- app_assoc.
Qed.

End Chain.

(** The chain of the research role with only the Groq key configured:
    Gemini and OpenRouter fail, Groq answers, Ollama is never called. *)
Lemma try_chain_ordered_fallback_witness :
  let R := Fixtures.runtime_of [Fails "AuthenticationError()"; Fails "Timeout()"; Responds "ok"] in
  _try_models_one_shot
    (["gemini/gemini-1.5-pro"; "openrouter/openai/gpt-4o"]
       ++ "groq/llama3-70b-8192" :: ["ollama/llama3:8b"])%list
    Fixtures.hello Fixtures.groq_only []
  = (inr ("groq/llama3-70b-8192", "ok"),
     ([] ++ calls_for ["gemini/gemini-1.5-pro"; "openrouter/openai/gpt-4o"]
              Fixtures.hello Fixtures.groq_only
         ++ [mkCall "groq/llama3-70b-8192" Fixtures.hello false
               (api_key_for "groq/llama3-70b-8192" Fixtures.groq_only)])%list).
Proof.
  intros R.
  apply (proj1 (try_chain_ordered_fallback Fixtures.hello Fixtures.groq_only)).
  - vm_compute. reflexivity.
  - vm_compute. reflexivity.
Defined.

(** C7 as stated does not hold: with no key at all, the Groq model of a
    one-model chain is called, with [api_key=None], and its answer is
    returned. *)
Lemma unkeyed_model_called :
  ~ (forall (R : Runtime) (models : list string)
            (messages : list (string * string))
            (env : gmap string (option string)) (w : World) (m : string),
        In m models ->
        key_absent m env = true ->
        forall c, In c (snd (_try_models_one_shot models messages env w)) ->
                  In c w \/ call_model c <> m).
Proof.
  intros H.
  specialize (H (Fixtures.runtime_of [Responds "ok"]) ["groq/llama3-70b-8192"]
                Fixtures.hello Fixtures.no_keys [] "groq/llama3-70b-8192").
  specialize (H (or_introl eq_refl) eq_refl
                (mkCall "groq/llama3-70b-8192" Fixtures.hello false None)).
  destruct H as [H | H].
  - vm_compute. left. reflexivity.
  - exact H.
  - apply H. reflexivity.
Qed.

Lemma unkeyed_model_is_attempted_witness :
  let R := Fixtures.runtime_of [Fails "Timeout()"; Responds "ok"] in
  _try_models_one_shot (["ollama/llama3:8b"] ++ "groq/llama3-70b-8192" :: ["gemini/gemini-1.5-pro"])%list
    Fixtures.hello Fixtures.no_keys []
  = (inr ("groq/llama3-70b-8192", "ok"),
     ([] ++ calls_for ["ollama/llama3:8b"] Fixtures.hello Fixtures.no_keys
         ++ [mkCall "groq/llama3-70b-8192" Fixtures.hello false None])%list).
Proof.
  intros R.
  apply (unkeyed_model_is_attempted Fixtures.hello Fixtures.no_keys).
  - vm_compute. reflexivity.
  - vm_compute. reflexivity.
  - vm_compute. reflexivity.
Defined.

End ChainFacts.

(* ===================================================================== *)
(** ** Properties of the string operations *)
(* ===================================================================== *)

Module StringFacts.
Import Py Swarm.

Local Arguments String.append !_ _ / : simpl nomatch.

Lemma append_assoc (a b c : string) : (a ++ b) ++ c = a ++ (b ++ c).
Proof. induction a as [|x a IH]; cbn; [reflexivity | now rewrite IH]. Qed.

Lemma append_nil_r (a : string) : a ++ EmptyString = a.
Proof. induction a as [|x a IH]; cbn; [reflexivity | now rewrite IH]. Qed.

Lemma length_append (a b : string) :
  String.length (a ++ b) = (String.length a + String.length b)%nat.
Proof. induction a as [|x a IH]; cbn; [reflexivity | now rewrite IH]. Qed.

(** A one-character needle matches at the head exactly when the head is
    that character. *)
Lemma prefix_char (c a : ascii) (r : string) :
  String.prefix (String c EmptyString) (String a r) = Ascii.eqb a c.
Proof.
  cbn. destruct (ascii_dec c a) as [->|Hne].
  - rewrite Ascii.eqb_refl. destruct r; reflexivity.
  - symmetry. apply Ascii.eqb_neq. congruence.
Qed.

(** [strip] on Python's white space below U+0100: the ASCII blanks and
    separators, U+0085 and U+00A0. *)
Example strip_white_space :
  strip (String (ascii_of_nat 160) (" " ++ nl ++ "a b"
           ++ String (ascii_of_nat 133) (String (ascii_of_nat 28) " ")))
  = "a b"
  /\ strip (String (ascii_of_nat 160) (String (ascii_of_nat 133) nl)) = ""
  /\ strip (String (ascii_of_nat 161) " x") = String (ascii_of_nat 161) " x".
Proof. repeat split. Qed.

Lemma lstrip_app (pre : string) (c : ascii) (t : string) :
  isspace c = false ->
  lstrip (pre ++ String c t) = lstrip pre ++ String c t.
Proof.
  intros Hc. induction pre as [|x pre IH]; cbn.
  - now rewrite Hc.
  - destruct (isspace x); [exact IH | reflexivity].
Qed.

Lemma occurs_lstrip (c : ascii) (s : string) :
  occurs c s = false -> occurs c (lstrip s) = false.
Proof.
  induction s as [|x s IH]; cbn; [reflexivity|].
  intros H. apply orb_false_iff in H as [Hx Hs].
  destruct (isspace x); [now apply IH|]. cbn. now rewrite Hx, Hs.
Qed.

Lemma rstrip_app (a : string) (c : ascii) (post : string) :
  isspace c = false ->
  rstrip (a ++ String c post) = a ++ String c (rstrip post).
Proof.
  intros Hc. induction a as [|x a IH]; cbn.
  - destruct (rstrip post); [now rewrite Hc | reflexivity].
  - rewrite IH. destruct a; reflexivity.
Qed.

Lemma occurs_rstrip (c : ascii) (s : string) :
  occurs c s = false -> occurs c (rstrip s) = false.
Proof.
  induction s as [|x s IH]; cbn; [reflexivity|].
  intros H. apply orb_false_iff in H as [Hx Hs]. specialize (IH Hs).
  destruct (rstrip s) as [|y r].
  - destruct (isspace x); [reflexivity|]. cbn. now rewrite Hx.
  - cbn in *. now rewrite Hx, IH.
Qed.

(** [find] of a character stops at its first occurrence. *)
Lemma find_from_first (c : ascii) (p t : string) :
  forall i, occurs c p = false ->
    find_from (String c EmptyString) (p ++ String c t) i
    = i + Z.of_nat (String.length p).
Proof.
  induction p as [|x p IH]; intros i Hp.
  - cbn [append find_from]. rewrite prefix_char, Ascii.eqb_refl. cbn. lia.
  - cbn in Hp. apply orb_false_iff in Hp as [Hx Hp].
    cbn [append find_from]. rewrite prefix_char, Hx.
    rewrite IH by assumption. cbn [String.length]. lia.
Qed.

Lemma rfind_from_none (c : ascii) (s : string) :
  forall i, occurs c s = false -> rfind_from (String c EmptyString) s i = -1.
Proof.
  induction s as [|x s IH]; intros i Hs.
  - reflexivity.
  - cbn in Hs. apply orb_false_iff in Hs as [Hx Hs].
    cbn [rfind_from]. rewrite IH by assumption.
    rewrite prefix_char, Hx. reflexivity.
Qed.

(** [rfind] of a character gives its last occurrence. *)
Lemma rfind_from_last (c : ascii) (a t : string) :
  forall i, 0 <= i -> occurs c t = false ->
    rfind_from (String c EmptyString) (a ++ String c t) i
    = i + Z.of_nat (String.length a).
Proof.
  induction a as [|x a IH]; intros i Hi Ht.
  - cbn [append rfind_from]. rewrite rfind_from_none by assumption.
    rewrite prefix_char, Ascii.eqb_refl. cbn. lia.
  - cbn [append rfind_from]. rewrite IH by (assumption || lia).
    destruct (Z.eqb_spec (i + 1 + Z.of_nat (String.length a)) (-1)); [lia|].
    cbn [String.length]. lia.
Qed.

Lemma substring_prefix (x t : string) :
  String.substring 0 (String.length x) (x ++ t) = x.
Proof.
  induction x as [|c x IH]; cbn.
  - destruct t; reflexivity.
  - now rewrite IH.
Qed.

Lemma substring_middle (p x t : string) :
  String.substring (String.length p) (String.length x) (p ++ x ++ t) = x.
Proof.
  induction p as [|c p IH]; cbn.
  - apply substring_prefix.
  - exact IH.
Qed.

(** A text that does not hold [c] does not end with it. *)
Lemma endswith_none (c : ascii) (s : string) :
  occurs c s = false -> endswith (String c EmptyString) s = false.
Proof.
  induction s as [|x s IH]; intros Hs.
  - reflexivity.
  - cbn in Hs. apply orb_false_iff in Hs as [Hx Hs].
    cbn [endswith]. rewrite (IH Hs), orb_false_r.
    apply String.eqb_neq. intros E. injection E as -> _.
    now rewrite Ascii.eqb_refl in Hx.
Qed.

Lemma endswith_app (c : ascii) (a t : string) :
  occurs c t = false ->
  endswith (String c EmptyString) (a ++ String c t) = true -> t = EmptyString.
Proof.
  intros Ht. induction a as [|x a IH]; cbn [append endswith]; intros H.
  - apply orb_true_iff in H as [H | H].
    + apply String.eqb_eq in H. now injection H.
    + now rewrite endswith_none in H.
  - apply orb_true_iff in H as [H | H]; [|now apply IH].
    apply String.eqb_eq in H. injection H as _ H.
    destruct a; discriminate.
Qed.

Lemma startswith_app (c : ascii) (p t : string) :
  occurs c p = false ->
  startswith (String c EmptyString) (p ++ String c t) = true -> p = EmptyString.
Proof.
  intros Hp H. destruct p as [|x p]; [reflexivity|].
  unfold startswith in H. cbn [append] in H. rewrite prefix_char in H.
  cbn in Hp. now rewrite H in Hp.
Qed.

(** [sub in (sub + t)] *)
Lemma prefix_append (a t : string) : String.prefix a (a ++ t) = true.
Proof.
  induction a as [|x a IH]; cbn; [destruct t; reflexivity|].
  destruct (ascii_dec x x); [exact IH | congruence].
Qed.

Lemma contains_prefix (a t : string) : contains a (a ++ t) = true.
Proof.
  unfold contains, find.
  assert (H : find_from a (a ++ t) 0 = 0).
  { destruct (a ++ t) eqn:E; cbn [find_from];
      rewrite <- E, prefix_append; reflexivity. }
  now rewrite H.
Qed.

End StringFacts.

(* ===================================================================== *)
(** ** Properties of the Coder stage *)
(* ===================================================================== *)

Module CoderFacts.
Import Py Eff Eff.Notations Swarm StringFacts.

Local Arguments String.append !_ _ / : simpl nomatch.

Section Extraction.
Context {R : Runtime}.

(** On a text with a ["{"] and a later ["}"], [_safe_json_loads] reads
    the text from the first ["{"] to the last ["}"]. *)
Lemma safe_json_loads_braces (pre mid post : string) :
  occurs "{" pre = false ->
  occurs "}" post = false ->
  _safe_json_loads (pre ++ String "{" (mid ++ String "}" post))
  = json_loads (String "{" (mid ++ String "}" EmptyString)).
Proof.
  intros Hpre Hpost. unfold _safe_json_loads, strip.
  rewrite lstrip_app by reflexivity.
  assert (Hassoc : forall a b, a ++ String "{" (mid ++ String "}" b)
                               = (a ++ String "{" mid) ++ String "}" b).
  { intros a b. rewrite append_assoc. reflexivity. }
  rewrite Hassoc, rstrip_app by reflexivity. rewrite <- Hassoc.
  set (P := lstrip pre). set (Q := rstrip post).
  assert (HP : occurs "{" P = false) by now apply occurs_lstrip.
  assert (HQ : occurs "}" Q = false) by now apply occurs_rstrip.
  destruct (startswith "{" _ && endswith "}" _) eqn:Hse.
  - apply andb_true_iff in Hse as [Hs He].
    apply startswith_app in Hs; [|assumption].
    rewrite Hassoc in He. apply endswith_app in He; [|assumption].
    now rewrite Hs, He.
  - unfold find, rfind.
    rewrite find_from_first by assumption.
    rewrite Hassoc, rfind_from_last by (assumption || lia).
    rewrite <- Hassoc.
    rewrite length_append. cbn [String.length].
    set (lp := String.length P). set (lm := String.length mid).
    assert (Hcond : negb (0 + Z.of_nat lp =? -1)
                    && negb (0 + Z.of_nat (lp + S lm) =? -1)
                    && (0 + Z.of_nat (lp + S lm) >? 0 + Z.of_nat lp) = true).
    { repeat (apply andb_true_iff; split).
      - apply negb_true_iff, Z.eqb_neq. lia.
      - apply negb_true_iff, Z.eqb_neq. lia.
      - apply Z.gtb_lt. lia. }
    rewrite Hcond. f_equal.
    unfold slice, clamp.
    rewrite !length_append. cbn [String.length]. rewrite !length_append.
    cbn [String.length]. fold lp lm.
    destruct (Z.ltb_spec (0 + Z.of_nat lp) 0); [lia|].
    destruct (Z.ltb_spec (0 + Z.of_nat (lp + S lm) + 1) 0); [lia|].
    rewrite !Z.min_l by lia.
    replace (Z.to_nat (0 + Z.of_nat lp)) with lp by lia.
    replace (Z.to_nat (0 + Z.of_nat (lp + S lm) + 1 - (0 + Z.of_nat lp)))
      with (String.length (String "{" (mid ++ String "}" EmptyString))).
    2:{ cbn [String.length]. rewrite length_append. cbn [String.length].
        fold lm. lia. }
    replace (P ++ String "{" (mid ++ String "}" Q))
      with (P ++ String "{" (mid ++ String "}" EmptyString) ++ Q).
    2:{ f_equal. cbn [append]. f_equal. rewrite append_assoc. reflexivity. }
    apply substring_middle.
Qed.

(** Items that are not [{path, content}] records leave the collected
    files as they are. *)
Lemma fold_add_file_invalid (items : list pyval) :
  forall acc : dict string,
    (forall f, In f items -> valid_entry f = false) ->
    fold_left add_file items acc = acc.
Proof.
  induction items as [|f items IH]; intros acc H; cbn [fold_left].
  - reflexivity.
  - assert (Hf : add_file acc f = acc).
    { specialize (H f (or_introl eq_refl)). unfold add_file.
      destruct f; try reflexivity. cbn in H. now rewrite H. }
    rewrite Hf. apply IH. intros g Hg. apply H. now right.
Qed.

(** [node_code] up to the parsed response, when the chain answers. *)
Lemma node_code_answered (st : SwarmState) (chain : list string)
    (env : gmap string (option string)) (w w' : World)
    (k p m raw : string) :
  kind st = Some k ->
  prompt st = Some p ->
  _try_models_one_shot chain (coder_messages k p st) env w = (inr (m, raw), w') ->
  node_code chain env (st, w)
  = (let! data := lift (_safe_json_loads raw) in
     let! listed := lift (py_get "files" (PList []) data) in
     let! items := lift (py_iter listed) in
     let files := fold_left add_file items [] in
     match files with
     | [] => raise (RuntimeError "Coder returned no files.")
     | _ =>
         assign (set_code_files files) ;;;
         timeline_append [("node", PStr "Coder"); ("event", PStr "done");
                          ("files", PInt (Z.of_nat (List.length files)))]
     end)%list (st, w').
Proof.
  intros Hk Hp Htry. unfold node_code.
  unfold bind at 1. unfold item at 1. cbn [fst]. rewrite Hk.
  unfold bind at 1. unfold item at 1. cbn [fst]. rewrite Hp.
  unfold bind at 1. unfold the_state at 1. cbn [fst].
  unfold bind at 1. unfold on_snd at 1. cbn [fst snd]. rewrite Htry.
  reflexivity.
Qed.

End Extraction.

(** C3. Coder JSON extraction.  Whatever surrounds the braces, the text
    from the first "{" to the last "}" of the response is what is parsed;
    and when the chain answers with the noisy response of the
    specification, [code_files] becomes exactly a.txt -> x, the stage
    returning normally whenever the state has a timeline. *)
Theorem coder_json_extraction :
  (forall (R : Runtime) (pre mid post : string),
      occurs "{" pre = false ->
      occurs "}" post = false ->
      _safe_json_loads (pre ++ String "{" (mid ++ String "}" post))
      = json_loads (String "{" (mid ++ String "}" EmptyString)))
  /\
  (forall (R : Runtime) (st : SwarmState) (chain : list string)
          (env : gmap string (option string)) (w w' : World) (k p m : string),
      (forall s, json_loads s = Json.loads s) ->
      kind st = Some k ->
      prompt st = Some p ->
      _try_models_one_shot chain (coder_messages k p st) env w
      = (inr (m, Fixtures.noisy_files), w') ->
      code_files (fst (snd (node_code chain env (st, w)))) = Some [("a.txt", "x")]
      /\ (timeline st <> None -> fst (node_code chain env (st, w)) = inr tt)).
Proof.
  split.
  - intros R pre mid post. apply safe_json_loads_braces.
  - intros R st chain env w w' k p m Hjson Hk Hp Htry.
    rewrite (node_code_answered st chain env w w' k p m _ Hk Hp Htry).
    assert (Hparse : _safe_json_loads Fixtures.noisy_files
                     = inr (PDict [("files",
                              PList [PDict [("path", PStr "a.txt");
                                            ("content", PStr "x")]])])).
    { change Fixtures.noisy_files
        with ("noise " ++ String "{"
                (Fixtures.noisy_inner ++ String "}" " trailing")).
      rewrite safe_json_loads_braces by reflexivity.
      rewrite Hjson. vm_compute. reflexivity. }
    unfold bind at 1. unfold lift at 1. rewrite Hparse.
    unfold bind, lift. cbn.
    unfold assign, on_fst, modify, timeline_append, bind, item. cbn.
    destruct (timeline st) as [tl|]; cbn; (split; [reflexivity|]); intros H.
    + reflexivity.
    + congruence.
Qed.

Lemma coder_json_extraction_witness :
  let R := Fixtures.runtime_of [Responds Fixtures.noisy_files] in
  let st := Fixtures.initial_state "webapp" "a text file" in
  code_files (fst (snd (node_code ["groq/llama3-70b-8192"] Fixtures.no_keys (st, []))))
  = Some [("a.txt", "x")]
  /\ (timeline st <> None ->
      fst (node_code ["groq/llama3-70b-8192"] Fixtures.no_keys (st, [])) = inr tt).
Proof.
  intros R st.
  apply (proj2 coder_json_extraction R st ["groq/llama3-70b-8192"] Fixtures.no_keys
           [] [mkCall "groq/llama3-70b-8192" (coder_messages "webapp" "a text file" st)
                 false None]
           "webapp" "a text file" "groq/llama3-70b-8192").
  - intros s. reflexivity.
  - reflexivity.
  - reflexivity.
  - vm_compute. reflexivity.
Defined.

(** C4. Empty generation.  When the chain answers and the parsed response
    is an object whose [files] value yields no [{path, content}] record
    (an empty list, or items that are not such records), [node_code]
    raises RuntimeError("Coder returned no files.") - the
    EmptyGenerationError of the specification - straight away, without a
    second provider call, and leaves the state object as it was:
    [code_files] is not set and the timeline gets no entry. *)
Theorem coder_empty_generation :
  forall (R : Runtime) (st : SwarmState) (chain : list string)
         (env : gmap string (option string)) (w w' : World)
         (k p m raw : string) (data listed : pyval) (items : list pyval),
    kind st = Some k ->
    prompt st = Some p ->
    _try_models_one_shot chain (coder_messages k p st) env w = (inr (m, raw), w') ->
    _safe_json_loads raw = inr data ->
    py_get "files" (PList []) data = inr listed ->
    py_iter listed = inr items ->
    (forall f, In f items -> valid_entry f = false) ->
    node_code chain env (st, w)
    = (inl (RuntimeError "Coder returned no files."), (st, w')).
Proof.
  intros R st chain env w w' k p m raw data listed items
         Hk Hp Htry Hdata Hget Hiter Hinvalid.
  rewrite (node_code_answered st chain env w w' k p m raw Hk Hp Htry).
  unfold bind, lift. rewrite Hdata, Hget, Hiter.
  rewrite (fold_add_file_invalid items [] Hinvalid). reflexivity.
Qed.

Lemma coder_empty_generation_witness :
  let R := Fixtures.runtime_of [Responds Fixtures.empty_files] in
  let st := Fixtures.initial_state "webapp" "nothing" in
  node_code ["groq/llama3-70b-8192"] Fixtures.no_keys (st, [])
  = (inl (RuntimeError "Coder returned no files."),
     (st, [mkCall "groq/llama3-70b-8192" (coder_messages "webapp" "nothing" st)
             false None])).
Proof.
  intros R st.
  apply (coder_empty_generation R st ["groq/llama3-70b-8192"] Fixtures.no_keys
           [] _ "webapp" "nothing" "groq/llama3-70b-8192" Fixtures.empty_files
           (PDict [("files", PList [])]) (PList []) []).
  - reflexivity.
  - reflexivity.
  - vm_compute. reflexivity.
  - vm_compute. reflexivity.
  - reflexivity.
  - reflexivity.
  - intros f [].
Defined.

End CoderFacts.

(* ===================================================================== *)
(** ** What every stage does to the state *)
(* ===================================================================== *)

Module StageFacts.
Import Py Eff Eff.Notations Swarm.

(** Symbolic execution of a stage: splits on every value the stage
    inspects. *)
Ltac run_stage :=
  repeat (cbn [fst snd] in *;
          match goal with
          | H : (_, _) = (_, _) |- _ => inversion H; subst; clear H
          | H : context [match ?x with _ => _ end] |- _ => destruct x eqn:?
          end).

Section Stages.
Context {R : Runtime}.

(** The chain runner works on the provider log only. *)
Definition stage_contract (st st' : SwarmState) (r : Exn + unit) : Prop :=
  iterations st' = iterations st
  /\ max_iterations st' = max_iterations st
  /\ match r with
     | inr _ => exists tl entry,
         timeline st = Some tl /\ timeline st' = Some (tl ++ [entry])%list
     | inl _ => timeline st' = timeline st
     end.

Lemma node_research_contract chain env st w r st' w' :
  node_research chain env (st, w) = (r, (st', w')) -> stage_contract st st' r.
Proof.
  unfold node_research, timeline_append, assign, on_fst, on_snd, modify,
    bind, item, the_state, lift, ret, raise.
  intros H. run_stage; unfold stage_contract; cbn; eauto 6.
Qed.

Lemma node_plan_contract chain env st w r st' w' :
  node_plan chain env (st, w) = (r, (st', w')) -> stage_contract st st' r.
Proof.
  unfold node_plan, timeline_append, assign, on_fst, on_snd, modify,
    bind, item, the_state, lift, ret, raise.
  intros H. run_stage; unfold stage_contract; cbn; eauto 6.
Qed.

Lemma node_code_contract chain env st w r st' w' :
  node_code chain env (st, w) = (r, (st', w')) -> stage_contract st st' r.
Proof.
  unfold node_code, timeline_append, assign, on_fst, on_snd, modify,
    bind, item, the_state, lift, ret, raise.
  intros H. run_stage; unfold stage_contract; cbn in *;
    try (match goal with H : Some _ = Some _ |- _ => inversion H; subst end);
    eauto 6; try discriminate.
Qed.

Lemma node_design_contract chain env st w r st' w' :
  node_design chain env (st, w) = (r, (st', w')) -> stage_contract st st' r.
Proof.
  unfold node_design, timeline_append, assign, on_fst, on_snd, modify,
    bind, item, the_state, lift, ret, raise.
  intros H. run_stage; unfold stage_contract; cbn in *;
    try (match goal with H : Some _ = Some _ |- _ => inversion H; subst end);
    eauto 6; try discriminate.
Qed.

Lemma node_review_contract chain env st w r st' w' :
  node_review chain env (st, w) = (r, (st', w')) -> stage_contract st st' r.
Proof.
  unfold node_review, attempt, llm_judgment, timeline_append, assign, on_fst,
    on_snd, modify, bind, item, the_state, lift, ret, raise.
  intros H. run_stage; unfold stage_contract; cbn in *;
    try (match goal with H : Some _ = Some _ |- _ => inversion H; subst end);
    eauto 6; try discriminate.
Qed.

(** Every stage leaves the two iteration counters alone; it appends one
    timeline entry when it returns and none when it raises. *)
Lemma run_node_contract chains env n st w r st' w' :
  run_node chains env n (st, w) = (r, (st', w')) -> stage_contract st st' r.
Proof.
  destruct n; cbn [run_node].
  - apply node_research_contract.
  - apply node_plan_contract.
  - apply node_code_contract.
  - apply node_design_contract.
  - apply node_review_contract.
Qed.

End Stages.

End StageFacts.

(* ===================================================================== *)
(** ** Properties of the Reviewer stage *)
(* ===================================================================== *)

Module ReviewFacts.
Import Py Eff Eff.Notations Swarm StringFacts.

Local Arguments String.append !_ _ / : simpl nomatch.

Section Review.
Context {R : Runtime}.

(** How the judgment of the model, when there is one, changes the local
    verdict: the two [if]s that close the [try] block. *)
Definition merged (local : bool * list string) (llm : option (bool * string))
  : bool * list string :=
  match llm with
  | Some (llm_pass, llm_notes) =>
      (if negb llm_pass then false else fst local,
       if nonempty llm_notes then (snd local ++ [llm_notes])%list else snd local)
  | None => local
  end.

(** The judgment as the [try] block leaves it. *)
Definition judgment_of (r : Exn + bool * string) : option (bool * string) :=
  match r with
  | inr v => Some v
  | inl _ => None
  end.

(** The timeline entry of the Reviewer. *)
Definition review_entry (passed : bool) : dict pyval :=
  [("node", PStr "Reviewer"); ("event", PStr "done"); ("pass", PBool passed)].

(** Asking the model changes the provider log, not the state. *)
Lemma llm_judgment_state chain msgs env st w :
  fst (snd (llm_judgment chain msgs env (st, w))) = st.
Proof.
  unfold llm_judgment, on_snd, bind, lift, ret. cbn [fst snd].
  destruct (_try_models_one_shot chain msgs env w) as [[e|[m raw]] w1]; cbn;
    [reflexivity|].
  destruct (_safe_json_loads raw) as [e|data]; cbn; [reflexivity|].
  destruct (py_get "pass" (PBool true) data) as [e|pv]; cbn; [reflexivity|].
  destruct (py_get "notes" (PStr "") data) as [e|nv]; reflexivity.
Qed.

(** [node_review] in one step: the local checks, merged with the judgment
    when the [try] block got one, are written to the state, then the
    timeline entry is appended. *)
Lemma node_review_result chain env st w :
  let files := default [] (code_files st) in
  let res := llm_judgment chain (review_messages files) env (st, w) in
  let v := merged (local_checks files) (judgment_of (fst res)) in
  let st1 := set_review_notes (notes_text (fst v) (snd v))
               (set_review_passed (fst v) st) in
  node_review chain env (st, w)
  = match timeline st with
    | Some tl =>
        (inr tt, (set_timeline (tl ++ [review_entry (fst v)])%list st1, snd (snd res)))
    | None => (inl (KeyError "timeline"), (st1, snd (snd res)))
    end.
Proof.
  intros files res v st1.
  pose proof (llm_judgment_state chain (review_messages files) env st w) as Hst.
  fold res in Hst.
  unfold node_review, attempt, timeline_append, assign, on_fst, modify,
    bind, item, the_state. cbn [fst snd].
  fold files. subst st1 v.
  destruct (local_checks files) as [passed notes].
  fold res.
  destruct res as [[e|[llm_pass llm_notes]] [st2 w2]]; cbn in Hst; subst st2;
    cbn [fst snd judgment_of merged timeline set_review_notes set_review_passed];
    destruct (timeline st); reflexivity.
Qed.

(** Without a README the local verdict is a failure whose first note says
    so. *)
Lemma local_checks_missing (files : dict string) :
  dict_mem "README.md" files = false ->
  exists rest, local_checks files = (false, "Missing README.md" :: rest).
Proof.
  intros H. unfold local_checks. rewrite H. cbn [negb app].
  destruct (contains _ _ || contains _ _); eauto.
Qed.

(** The local verdict passes exactly when there is a README and no
    deny-listed name occurs in the joined contents. *)
Lemma local_checks_passed (files : dict string) :
  fst (local_checks files)
  = dict_mem "README.md" files
    && negb (contains "SUPABASE_SERVICE_ROLE_KEY" (join nl (dict_values files))
             || contains "STRIPE_SECRET_KEY" (join nl (dict_values files))).
Proof.
  unfold local_checks.
  destruct (dict_mem "README.md" files); cbn [negb];
    destruct (contains _ _ || contains _ _); reflexivity.
Qed.

Lemma join_head (sep x : string) (l : list string) :
  exists t, join sep (x :: l) = x ++ t.
Proof.
  destruct l as [|y l]; cbn [join].
  - exists EmptyString. now rewrite append_nil_r.
  - eauto.
Qed.

(** A non-empty first note opens the notes text. *)
Lemma notes_text_head (passed : bool) (x : string) (notes : list string) :
  nonempty x = true -> exists t, notes_text passed (x :: notes) = x ++ t.
Proof.
  intros Hx. unfold notes_text. cbn [List.filter]. rewrite Hx.
  destruct (join_head "; " x (List.filter nonempty notes)) as [t Ht].
  rewrite Ht. exists t.
  destruct x as [|c x]; [discriminate | reflexivity].
Qed.

(** When every model of the review chain fails, the judgment raises. *)
Lemma llm_judgment_exhausted chain msgs env st w :
  fails_all w (calls_for chain msgs env) = true ->
  exists e, llm_judgment chain msgs env (st, w)
            = (inl e, (st, (w ++ calls_for chain msgs env)%list)).
Proof.
  intros Hf. unfold llm_judgment, on_snd, bind. cbn [fst snd].
  rewrite (ChainFacts.chain_exhausted msgs env chain w Hf). eauto.
Qed.

End Review.

(** C5. Missing README.  When [code_files] has no "README.md" key (or is
    absent), the state [node_review] leaves has [review_passed] false and a
    [review_notes] that contains "Missing README.md", whatever the provider
    and the parser answer. *)
Theorem reviewer_missing_readme :
  forall (R : Runtime) (st : SwarmState) (chain : list string)
         (env : gmap string (option string)) (w : World),
    dict_mem "README.md" (default [] (code_files st)) = false ->
    let st' := fst (snd (node_review chain env (st, w))) in
    review_passed st' = Some false
    /\ exists notes, review_notes st' = Some notes
                     /\ contains "Missing README.md" notes = true.
Proof.
  intros R st chain env w Hmiss st'. subst st'.
  rewrite node_review_result.
  destruct (local_checks_missing _ Hmiss) as [rest Hlocal]. rewrite Hlocal.
  set (res := llm_judgment _ _ _ _).
  assert (Hv : exists rest', merged (false, "Missing README.md" :: rest)
                               (judgment_of (fst res))
                             = (false, "Missing README.md" :: rest')).
  { destruct (judgment_of (fst res)) as [[llm_pass llm_notes]|]; cbn [merged fst snd].
    - destruct llm_pass; cbn [negb];
        destruct (nonempty llm_notes); cbn [app]; eauto.
    - eauto. }
  destruct Hv as [rest' ->]. cbn [fst snd].
  destruct (notes_text_head false "Missing README.md" rest' eq_refl) as [t Ht].
  destruct (timeline st); cbn [fst snd review_passed review_notes set_timeline
                                 set_review_notes set_review_passed];
    (split; [reflexivity|]); eexists; (split; [reflexivity|]);
    rewrite Ht; apply contains_prefix.
Qed.

(** A project without README, reviewed by a model that says pass. *)
Lemma reviewer_missing_readme_witness :
  let R := Fixtures.runtime_of [Responds Fixtures.pass_true] in
  let st := set_code_files [("a.txt", "x")] (Fixtures.initial_state "webapp" "p") in
  let st' := fst (snd (node_review ["groq/llama3-70b-8192"] Fixtures.no_keys (st, []))) in
  review_passed st' = Some false
  /\ exists notes, review_notes st' = Some notes
                   /\ contains "Missing README.md" notes = true.
Proof.
  intros R st.
  apply (reviewer_missing_readme R st ["groq/llama3-70b-8192"] Fixtures.no_keys []).
  reflexivity.
Defined.

(** C6. Graceful degradation.  When the judgment of the model raises -
    the chain is exhausted, or its answer does not parse - [node_review]
    on a state with a timeline returns normally, and what it writes comes
    from the two local checks alone: [review_passed] is true exactly when
    the README is there and no deny-listed name occurs in the contents;
    [review_notes] is "OK" when both checks pass, and otherwise the note of
    each check that failed, the README note first, joined by "; ". *)
Theorem reviewer_degrades_gracefully :
  forall (R : Runtime) (st : SwarmState) (chain : list string)
         (env : gmap string (option string)) (w : World)
         (tl : list (dict pyval)) (e : Exn) (sw1 : Store),
    let files := default [] (code_files st) in
    let readme := dict_mem "README.md" files in
    let secret :=
      contains "SUPABASE_SERVICE_ROLE_KEY" (join nl (dict_values files))
      || contains "STRIPE_SECRET_KEY" (join nl (dict_values files)) in
    let passed := readme && negb secret in
    timeline st = Some tl ->
    llm_judgment chain (review_messages files) env (st, w) = (inl e, sw1) ->
    exists st',
      node_review chain env (st, w) = (inr tt, (st', snd sw1))
      /\ review_passed st' = Some passed
      /\ review_notes st'
         = Some (match readme, secret with
                 | true, false => "OK"
                 | false, false => "Missing README.md"
                 | true, true =>
                     "Hardcoded secret-looking env var name found. Use .env, never inline secrets."
                 | false, true =>
                     "Missing README.md; Hardcoded secret-looking env var name found. Use .env, never inline secrets."
                 end)
      /\ timeline st'
         = Some (tl ++ [[("node", PStr "Reviewer"); ("event", PStr "done");
                         ("pass", PBool passed)]])%list.
Proof.
  intros R st chain env w tl e sw1 files readme secret passed Htl Hllm.
  rewrite node_review_result. fold files. rewrite Hllm, Htl.
  cbn [fst snd judgment_of merged].
  subst passed. unfold local_checks. fold readme. fold secret.
  destruct readme, secret; eexists; (split; [reflexivity|]);
    repeat split.
Qed.

(** A project without README whose one file names a deny-listed
    variable, reviewed when both models of the chain fail. *)
Lemma reviewer_degrades_gracefully_witness :
  let R := Fixtures.runtime_of [Fails "AuthenticationError()"; Fails "Timeout()"] in
  let files := [("app.py", "key = STRIPE_SECRET_KEY")] in
  let st := set_code_files files (Fixtures.initial_state "webapp" "p") in
  exists st',
    node_review ["groq/llama3-70b-8192"; "ollama/llama3:8b"] Fixtures.no_keys (st, [])
    = (inr tt,
       (st', calls_for ["groq/llama3-70b-8192"; "ollama/llama3:8b"]
               (review_messages files) Fixtures.no_keys))
    /\ review_passed st' = Some false
    /\ review_notes st'
       = Some "Missing README.md; Hardcoded secret-looking env var name found. Use .env, never inline secrets."
    /\ timeline st'
       = Some [[("node", PStr "Reviewer"); ("event", PStr "done");
                ("pass", PBool false)]].
Proof.
  intros R files st.
  apply (reviewer_degrades_gracefully R st
           ["groq/llama3-70b-8192"; "ollama/llama3:8b"] Fixtures.no_keys []
           [] (RuntimeError "All models failed. Last error: Timeout()")
           (st, calls_for ["groq/llama3-70b-8192"; "ollama/llama3:8b"]
                  (review_messages files) Fixtures.no_keys)).
  - reflexivity.
  - vm_compute. reflexivity.
Defined.

End ReviewFacts.

(* ===================================================================== *)
(** ** Properties of the graph run *)
(* ===================================================================== *)

Module GraphFacts.
Import Py Eff Swarm StageFacts.

Section Graph.
Context {R : Runtime}.

(** [stages_from st k st']: [st'] is what [st] has become after stage
    functions were run on it one after the other - any stages, in any
    order, with any chains and keys, whatever the providers answered - each
    on the state the one before it left, with or without a routing in
    between; [k] of them returned, the others raised. *)
Inductive stages_from (st : SwarmState) : nat -> SwarmState -> Prop :=
| stages_none : stages_from st 0 st
| stages_returned k st1 chains env n w st2 w' :
    stages_from st k st1 ->
    run_node chains env n (st1, w) = (inr tt, (st2, w')) ->
    stages_from st (S k) st2
| stages_raised k st1 chains env n w e st2 w' :
    stages_from st k st1 ->
    run_node chains env n (st1, w) = (inl e, (st2, w')) ->
    stages_from st k st2
| stages_routed k st1 n :
    stages_from st k st1 ->
    stages_from st k (snd (next_node n st1)).

(** With its two keyword arguments a node function runs its body. *)
Lemma call_node_kwargs (chains : Chains) (env : gmap string (option string))
    (n : Node) :
  call_node n (node_kwargs chains env n) = run_node chains env n.
Proof. now destruct n. Qed.

(** What the edge out of a node does to the dict it is called with. *)
Lemma next_node_cases (n : Node) (st st2 : SwarmState) (o : option Node) :
  next_node n st = (o, st2) ->
  timeline st2 = timeline st
  /\ max_iterations st2 = max_iterations st
  /\ match o with
     | None =>
         n = Reviewer /\ st2 = st
         /\ negb (default false (review_passed st))
            && (default 0 (iterations st) <? default 2 (max_iterations st)) = false
     | Some n' =>
         (n <> Reviewer /\ st2 = st)
         \/ (n = Reviewer /\ n' = Planner
             /\ default false (review_passed st) = false
             /\ default 0 (iterations st) < default 2 (max_iterations st)
             /\ st2 = set_iterations (default 0 (iterations st) + 1) st)
     end.
Proof.
  destruct n; cbn [next_node];
    try (intros H; inversion H; subst; repeat split; left; repeat split;
         congruence).
  unfold route_after_review.
  destruct (negb (default false (review_passed st))
            && (default 0 (iterations st) <? default 2 (max_iterations st)))
    eqn:Hc; intros H; inversion H; subst; cbn; repeat split.
  right. apply andb_true_iff in Hc as [Hp Hlt].
  apply negb_true_iff in Hp. apply Z.ltb_lt in Hlt. repeat split; assumption.
Qed.

(** The timeline after [k] returned stages: what was there, and [k] more
    entries. *)
Lemma stages_timeline (st st' : SwarmState) (k : nat) :
  stages_from st k st' ->
  forall tl, timeline st = Some tl ->
    exists ext, timeline st' = Some (tl ++ ext)%list /\ List.length ext = k.
Proof.
  induction 1 as [|k st1 chains env n w st2 w' _ IH Hn
                  |k st1 chains env n w e st2 w' _ IH Hn
                  |k st1 n _ IH]; intros tl Htl.
  - exists []. now rewrite app_nil_r.
  - destruct (IH tl Htl) as (ext & Ht1 & Hlen).
    destruct (run_node_contract _ _ _ _ _ _ _ _ Hn) as (_ & _ & tl1 & entry & Ha & Hb).
    rewrite Ht1 in Ha. inversion Ha; subst tl1.
    exists (ext ++ [entry])%list. rewrite Hb, app_assoc, length_app. cbn.
    split; [reflexivity | lia].
  - destruct (IH tl Htl) as (ext & Ht1 & Hlen).
    destruct (run_node_contract _ _ _ _ _ _ _ _ Hn) as (_ & _ & Hb).
    exists ext. now rewrite Hb.
  - destruct (IH tl Htl) as (ext & Ht1 & Hlen).
    destruct (next_node n st1) as [o st2] eqn:Hnext.
    destruct (next_node_cases _ _ _ _ Hnext) as (Hb & _).
    exists ext. cbn [snd]. now rewrite Hb.
Qed.

(** The call the compiled graph makes never reaches the body of a node
    function. *)
Lemma invoke_raises (configurable : Node -> Kwargs) (n : Node) (sw : Store) :
  invoke configurable n sw
  = (inl (TypeError (function_name n
            ++ "() missing 2 required keyword-only arguments: 'model_chain' and 'api_keys_env'")),
     sw).
Proof. reflexivity. Qed.

(** Every run stops in its first node. *)
Lemma run_graph_stops (st : SwarmState) (chains : Chains)
    (env : gmap string (option string)) (w : World) :
  run_graph st chains env w
  = ([node_start Researcher],
     Raised Researcher
       (TypeError "node_research() missing 2 required keyword-only arguments: 'model_chain' and 'api_keys_env'"),
     (st, w)).
Proof. reflexivity. Qed.

(** Were every node called with its [node_kwargs], the state would still
    never see the [iterations] that [route_after_review] assigns: no node
    function writes that key, and the graph state is what the nodes
    return. *)
Lemma run_from_iterations (chains : Chains) (env : gmap string (option string))
    (steps : nat) :
  forall (n : Node) (st : SwarmState) (w : World),
    iterations (fst (snd (run_from steps (run_node chains env) n (st, w))))
    = iterations st.
Proof.
  induction steps as [|steps IH]; intros n st w; [reflexivity|].
  cbn [run_from].
  destruct (run_node chains env n (st, w)) as [[e|u] [st1 w1]] eqn:Hn;
    destruct (run_node_contract _ _ _ _ _ _ _ _ Hn) as (Hi & _);
    [exact Hi|].
  destruct (fst (next_node n st1)) as [n'|]; [|exact Hi].
  specialize (IH n' st1 w1).
  destruct (run_from steps (run_node chains env) n' (st1, w1)) as [[evs ending] sw2].
  cbn [fst snd] in *. congruence.
Qed.

End Graph.

(** C1. The review loop.  On the dict it is called with,
    [route_after_review] does what the rule says: a failed (or absent)
    verdict with [iterations < max_iterations] adds one to [iterations] and
    names Planner; a passed verdict, or [iterations] at the cap, names END.
    The run does not follow: the compiled graph calls [node_research]
    without [model_chain] and [api_keys_env], which [run_graph] has put
    into the config, so every run yields the start of Researcher and stops
    with a [TypeError]; no provider is called, the state is as it was, and
    Planner has run 0 times, not 3.  And were the nodes called with their
    keyword arguments, the state would keep the [iterations] it started
    with, whatever the steps and the reviews. *)
Theorem review_loop_defect :
  (forall st : SwarmState,
      (default false (review_passed st) = false ->
       default 0 (iterations st) < default 2 (max_iterations st) ->
       route_after_review st
       = (Some Planner, set_iterations (default 0 (iterations st) + 1) st))
      /\ (default false (review_passed st) = true
          \/ default 2 (max_iterations st) <= default 0 (iterations st) ->
          route_after_review st = (None, st)))
  /\
  (forall (R : Runtime) (st : SwarmState) (chains : Chains)
          (env : gmap string (option string)) (w : World),
      run_graph st chains env w
      = ([node_start Researcher],
         Raised Researcher
           (TypeError "node_research() missing 2 required keyword-only arguments: 'model_chain' and 'api_keys_env'"),
         (st, w))
      /\ executions Planner (fst (fst (run_graph st chains env w))) = 0%nat)
  /\
  (forall (R : Runtime) (chains : Chains) (env : gmap string (option string))
          (steps : nat) (n : Node) (st : SwarmState) (w : World),
      iterations (fst (snd (run_from steps (run_node chains env) n (st, w))))
      = iterations st).
Proof.
  split; [|split].
  - intros st. unfold route_after_review. split.
    + intros Hp Hlt. rewrite Hp. apply Z.ltb_lt in Hlt. now rewrite Hlt.
    + intros [Hp | Hge].
      * now rewrite Hp.
      * apply Z.ltb_ge in Hge. rewrite Hge. now rewrite andb_false_r.
  - intros R st chains env w. rewrite run_graph_stops. split; reflexivity.
  - intros R chains env steps n st w. apply run_from_iterations.
Qed.

(** The run of the specification's example: [iterations] 0,
    [max_iterations] 2, and a Coder that keeps producing one file that is
    not a README, so that every review would fail. *)
Lemma review_loop_defect_witness :
  let R := Fixtures.runtime_always Fixtures.noisy_files in
  let chains := Fixtures.chains_of ["groq/llama3-70b-8192"] in
  let st := Fixtures.initial_state "webapp" "a text file" in
  let run := run_graph st chains Fixtures.no_keys [] in
  fst (fst run) = [node_start Researcher]
  /\ executions Planner (fst (fst run)) = 0%nat
  /\ snd run = (st, [])
  /\ route_after_review (set_review_passed false st)
     = (Some Planner, set_iterations 1 (set_review_passed false st)).
Proof.
  intros R chains st run.
  destruct (proj1 (proj2 review_loop_defect) R st chains Fixtures.no_keys [])
    as [Hrun Hplanner].
  subst run. rewrite Hrun.
  split; [reflexivity|]. split; [reflexivity|]. split; [reflexivity|].
  apply (proj1 (proj1 review_loop_defect (set_review_passed false st)));
    [reflexivity | cbn; lia].
Defined.

(** The same example with every node called with its [node_kwargs]: the
    reviews fail, [iterations] stays 0, and the run goes on until
    LangGraph's recursion limit stops it, after 25 stages and 6 passes of
    the Planner. *)
Example bound_nodes_still_loop :
  let R := Fixtures.runtime_always Fixtures.noisy_files in
  let chains := Fixtures.chains_of ["groq/llama3-70b-8192"] in
  let st := Fixtures.initial_state "webapp" "a text file" in
  let run := run_from recursion_limit (run_node chains Fixtures.no_keys)
               Researcher (st, []) in
  snd (fst run) = RecursionLimit
  /\ returned (fst (fst run)) = 25%nat
  /\ executions Planner (fst (fst run)) = 6%nat
  /\ iterations (fst (snd run)) = Some 0
  /\ review_passed (fst (snd run)) = Some false.
Proof. vm_compute. repeat split. Qed.

(** C8. The timeline.  A stage that returns has appended exactly one
    entry to the timeline; a stage that raises, and the routing after
    Reviewer, leave it as it is.  So however stage functions are run one
    after the other on a state, the timeline keeps what it held and has
    one more entry for each stage execution that returned, repeated passes
    included: started from the empty timeline, its length is the number of
    stages executed.  For [run_graph] as [graph.py] wires it this number is
    0 and the timeline is as it was, no node function getting past its
    call. *)
Theorem timeline_append_only :
  (forall (R : Runtime) (chains : Chains) (env : gmap string (option string))
          (n : Node) (st st' : SwarmState) (w w' : World) (u : unit),
      run_node chains env n (st, w) = (inr u, (st', w')) ->
      exists tl entry,
        timeline st = Some tl /\ timeline st' = Some (tl ++ [entry])%list)
  /\
  (forall (R : Runtime) (chains : Chains) (env : gmap string (option string))
          (n : Node) (st st' : SwarmState) (w w' : World) (e : Exn),
      run_node chains env n (st, w) = (inl e, (st', w')) ->
      timeline st' = timeline st)
  /\
  (forall (n : Node) (st : SwarmState),
      timeline (snd (next_node n st)) = timeline st)
  /\
  (forall (R : Runtime) (st st' : SwarmState) (k : nat) (tl : list (dict pyval)),
      stages_from st k st' ->
      timeline st = Some tl ->
      exists ext,
        timeline st' = Some (tl ++ ext)%list
        /\ List.length ext = k
        /\ (tl = [] -> option_map (@List.length _) (timeline st') = Some k))
  /\
  (forall (R : Runtime) (st : SwarmState) (chains : Chains)
          (env : gmap string (option string)) (w : World),
      let run := run_graph st chains env w in
      timeline (fst (snd run)) = timeline st
      /\ returned (fst (fst run)) = 0%nat).
Proof.
  split; [|split; [|split; [|split]]].
  - intros R chains env n st st' w w' u Hn.
    now destruct (run_node_contract _ _ _ _ _ _ _ _ Hn) as (_ & _ & H).
  - intros R chains env n st st' w w' e Hn.
    now destruct (run_node_contract _ _ _ _ _ _ _ _ Hn) as (_ & _ & H).
  - intros n st. destruct (next_node n st) as [o st2] eqn:Hnext.
    now destruct (next_node_cases _ _ _ _ Hnext) as (H & _).
  - intros R st st' k tl Hs Htl.
    destruct (stages_timeline _ _ _ Hs tl Htl) as (ext & Hfin & Hlen).
    exists ext. repeat split; try assumption.
    intros ->. rewrite Hfin. cbn. now rewrite Hlen.
  - intros R st chains env w run. subst run. rewrite run_graph_stops.
    split; reflexivity.
Qed.

(** Researcher, Planner, Coder, Designer and Reviewer run in turn from
    the state [generate] builds: five stages, five entries. *)
Lemma timeline_append_only_witness :
  let R := Fixtures.runtime_always Fixtures.noisy_files in
  let chains := Fixtures.chains_of ["groq/llama3-70b-8192"] in
  let step := fun n sw => snd (run_node chains Fixtures.no_keys n sw) in
  let st := Fixtures.initial_state "webapp" "a text file" in
  let st' := fst (step Reviewer (step Designer (step Coder (step Planner
                    (step Researcher (st, [])))))) in
  exists ext,
    timeline st' = Some ([] ++ ext)%list
    /\ List.length ext = 5%nat
    /\ (@nil (dict pyval) = [] ->
        option_map (@List.length _) (timeline st') = Some 5%nat).
Proof.
  intros R chains step st st'.
  apply (proj1 (proj2 (proj2 (proj2 timeline_append_only))) R st st' 5%nat []);
    [|reflexivity].
  pose (s1 := step Researcher (st, [])). pose (s2 := step Planner s1).
  pose (s3 := step Coder s2). pose (s4 := step Designer s3).
  apply (stages_returned st 4 (fst s4) chains Fixtures.no_keys Reviewer (snd s4)
           st' (snd (step Reviewer s4))); [|vm_compute; reflexivity].
  apply (stages_returned st 3 (fst s3) chains Fixtures.no_keys Designer (snd s3)
           (fst s4) (snd s4)); [|vm_compute; reflexivity].
  apply (stages_returned st 2 (fst s2) chains Fixtures.no_keys Coder (snd s2)
           (fst s3) (snd s3)); [|vm_compute; reflexivity].
  apply (stages_returned st 1 (fst s1) chains Fixtures.no_keys Planner (snd s1)
           (fst s2) (snd s2)); [|vm_compute; reflexivity].
  apply (stages_returned st 0 st chains Fixtures.no_keys Researcher []
           (fst s1) (snd s1)); [|vm_compute; reflexivity].
  apply stages_none.
Defined.

End GraphFacts.

(* ===================================================================== *)
(** ** Properties of the rate limiter *)
(* ===================================================================== *)

Module RateLimitFacts.
Import Py RateLimit.

(** Eviction drops timestamps from the front only. *)
Lemma evict_suffix (now window : Q) (q : list Q) :
  exists dropped, q = (dropped ++ evict now window q)%list.
Proof.
  induction q as [|t q [d Hd]]; cbn [evict].
  - now exists [].
  - destruct (negb (Qle_bool (now - t) window)).
    + exists (t :: d). cbn. now rewrite <- Hd.
    + now exists [].
Qed.

Lemma evict_length (now window : Q) (q : list Q) :
  (List.length (evict now window q) <= List.length q)%nat.
Proof.
  destruct (evict_suffix now window q) as [d Hd].
  rewrite Hd at 2. rewrite length_app. lia.
Qed.

(** Eviction that keeps the length keeps the deque. *)
Lemma evict_same_length (now window : Q) (q : list Q) :
  List.length (evict now window q) = List.length q -> evict now window q = q.
Proof.
  intros H. destruct (evict_suffix now window q) as [d Hd].
  rewrite Hd in H at 2. rewrite length_app in H.
  destruct d; [now rewrite Hd at 2 | cbn in H; lia].
Qed.

(** What holds of every limiter a process can hold: the cap is at least
    one and no deque is longer than the cap. *)
Definition bounded (self : InMemoryRateLimiter) : Prop :=
  1 <= rpm self
  /\ forall (k : string) (q : list Q),
       hits self !! k = Some q -> Z.of_nat (List.length q) <= rpm self.

Lemma check_bounded (self : InMemoryRateLimiter) (now : Q) (key : string) :
  bounded self -> bounded (snd (check self now key)).
Proof.
  intros [Hrpm Hall]. unfold check.
  set (q0 := default [] (hits self !! key)).
  assert (Hq0 : Z.of_nat (List.length q0) <= rpm self).
  { subst q0. destruct (hits self !! key) as [q|] eqn:E; cbn.
    - now apply (Hall key).
    - lia. }
  pose proof (evict_length now (window_sec self) q0) as Hev.
  destruct (Z.geb_spec (Z.of_nat (List.length (evict now (window_sec self) q0)))
              (rpm self)) as [Hge|Hlt];
    (split; [assumption|]); intros k q Hk; cbn in Hk |- *;
    (destruct (decide (key = k)) as [->|Hne];
     [rewrite lookup_insert_eq in Hk; inversion Hk; subst q
     |rewrite lookup_insert_ne in Hk by assumption; now apply (Hall k)]).
  - lia.
  - rewrite length_app. cbn. lia.
Qed.

Lemma reachable_bounded (self : InMemoryRateLimiter) :
  reachable self -> bounded self.
Proof.
  induction 1 as [n|self now key _ IH].
  - split; cbn; [lia|]. intros k q Hk. now rewrite lookup_empty in Hk.
  - now apply check_bounded.
Qed.

(** In a deque in clock order, what the eviction loop keeps is what lies
    in the window. *)
Lemma evict_in_window (now window : Q) (q : list Q) :
  StronglySorted Qle q -> evict now window q = in_window now window q.
Proof.
  induction q as [|t q IH]; intros Hs; [reflexivity|].
  inversion Hs as [|? ? Hq Hall]; subst.
  unfold in_window. cbn [evict List.filter].
  destruct (Qle_bool (now - t) window) eqn:Ht; cbn [negb].
  - f_equal. symmetry. rewrite forallb_filter_id; [reflexivity|].
    apply forallb_forall. intros t' Hin.
    rewrite List.Forall_forall in Hall. specialize (Hall t' Hin).
    apply Qle_bool_iff. apply Qle_bool_iff in Ht. lra.
  - now apply IH.
Qed.

(** With a clock that never goes back, every deque is in clock order and
    holds nothing later than the last reading. *)
Definition in_order (t : Q) (self : InMemoryRateLimiter) : Prop :=
  forall (k : string) (q : list Q),
    hits self !! k = Some q ->
    StronglySorted Qle q /\ Forall (fun x => (x <= t)%Q) q.

Lemma sorted_suffix (d q : list Q) :
  StronglySorted Qle (d ++ q)%list -> StronglySorted Qle q.
Proof.
  induction d as [|x d IH]; cbn; [auto|].
  intros H. inversion H; subst. auto.
Qed.

Lemma sorted_snoc (q : list Q) (now : Q) :
  StronglySorted Qle q -> Forall (fun x => (x <= now)%Q) q ->
  StronglySorted Qle (q ++ [now])%list.
Proof.
  induction q as [|x q IH]; cbn; intros Hs Hle.
  - constructor; constructor.
  - inversion Hs; subst. inversion Hle; subst.
    constructor; [now apply IH|].
    apply Forall_app. split; [assumption|]. now constructor.
Qed.

Lemma reachable_mono_in_order (t : Q) (self : InMemoryRateLimiter) :
  reachable_mono t self -> in_order t self.
Proof.
  induction 1 as [n t|self t now key _ IH Hle].
  - intros k q Hk. cbn in Hk. now rewrite lookup_empty in Hk.
  - assert (Hup : forall q, Forall (fun x => (x <= t)%Q) q ->
                            Forall (fun x => (x <= now)%Q) q).
    { intros q Hq. eapply List.Forall_impl; [|exact Hq]. cbn. intros x Hx. lra. }
    set (q0 := default [] (hits self !! key)).
    assert (Hq0 : StronglySorted Qle q0 /\ Forall (fun x => (x <= t)%Q) q0).
    { subst q0. destruct (hits self !! key) as [q|] eqn:E; cbn.
      - now apply (IH key).
      - split; constructor. }
    destruct (evict_suffix now (window_sec self) q0) as [d Hd].
    assert (He : StronglySorted Qle (evict now (window_sec self) q0)
                 /\ Forall (fun x => (x <= now)%Q) (evict now (window_sec self) q0)).
    { destruct Hq0 as [Hs Hf]. rewrite Hd in Hs, Hf. split.
      - now apply sorted_suffix in Hs.
      - apply Hup. now apply Forall_app in Hf as [_ Hf]. }
    unfold check. fold q0.
    destruct (Z.of_nat (List.length (evict now (window_sec self) q0)) >=? rpm self);
      intros k q Hk; cbn in Hk;
      (destruct (decide (key = k)) as [->|Hne];
       [rewrite lookup_insert_eq in Hk; inversion Hk; subst q
       |rewrite lookup_insert_ne in Hk by assumption;
        destruct (IH k q Hk) as [Hs Hf]; split; [assumption | now apply Hup]]).
    + exact He.
    + destruct He as [Hs Hf]. split.
      * now apply sorted_snoc.
      * apply Forall_app. split; [assumption|]. constructor; [lra | constructor].
Qed.

Lemma reachable_window (self : InMemoryRateLimiter) :
  reachable self -> window_sec self = 60%Q.
Proof.
  induction 1 as [n|self now key _ IH]; [reflexivity|].
  unfold check. destruct (_ >=? _); exact IH.
Qed.

(** C10. The limiter.  For a limiter built by [InMemoryRateLimiter(rpm)]
    and used through [check] only, a call for [key] at clock reading [now]
    raises - with status 429 - exactly when the deque of [key], once the
    eviction loop has run, still holds at least [rpm] timestamps.  An
    admitted call leaves the evicted deque with [now] appended; a rejected
    call leaves every deque as it was.  With a clock that never goes back,
    what the eviction loop leaves is what lies within the 60 seconds
    before [now]. *)
Theorem rate_limiter_check :
  (forall (self : InMemoryRateLimiter) (now : Q) (key : string),
      reachable self ->
      let q := evict now (window_sec self) (default [] (hits self !! key)) in
      let r := check self now key in
      window_sec self = 60%Q
      /\ (fst r <> None <-> rpm self <= Z.of_nat (List.length q))
      /\ (forall e, fst r = Some e -> status_code e = 429)
      /\ (fst r = None -> hits (snd r) = <[key := (q ++ [now])%list]> (hits self))
      /\ (fst r <> None -> hits (snd r) = hits self))
  /\
  (forall (t : Q) (self : InMemoryRateLimiter) (now : Q) (key : string),
      reachable_mono t self ->
      evict now (window_sec self) (default [] (hits self !! key))
      = in_window now (window_sec self) (default [] (hits self !! key))).
Proof.
  split.
  - intros self now key Hreach q r. subst q r.
    destruct (reachable_bounded self Hreach) as [Hrpm Hall].
    split; [now apply reachable_window|].
    unfold check.
    set (q0 := default [] (hits self !! key)).
    set (q := evict now (window_sec self) q0).
    assert (Hq0 : Z.of_nat (List.length q0) <= rpm self).
    { subst q0. destruct (hits self !! key) as [q1|] eqn:E; cbn.
      - now apply (Hall key).
      - lia. }
    assert (Hev : (List.length q <= List.length q0)%nat)
      by apply evict_length.
    destruct (Z.geb_spec (Z.of_nat (List.length q)) (rpm self)) as [Hge|Hlt];
      cbn [fst snd hits].
    + split; [split; [intros _; lia | discriminate]|].
      split; [intros e He; inversion He; reflexivity|].
      split; [discriminate|]. intros _.
      assert (Hsame : q = q0) by (apply evict_same_length; fold q; lia).
      rewrite Hsame. subst q0.
      destruct (hits self !! key) as [q1|] eqn:E; cbn in *.
      * now apply insert_id.
      * lia.
    + split; [split; [congruence | lia]|].
      split; [discriminate|]. split; [reflexivity | congruence].
  - intros t self now key Hreach.
    apply evict_in_window.
    destruct (hits self !! key) as [q0|] eqn:E; cbn.
    + now destruct (reachable_mono_in_order t self Hreach key q0 E).
    + constructor.
Qed.

(** A limiter of two requests per minute after two calls of one client:
    the third call within the minute is refused and changes nothing. *)
Lemma rate_limiter_check_witness :
  let self := snd (check (snd (check (init 2) 0%Q "10.0.0.1")) 1%Q "10.0.0.1") in
  let q := evict 2%Q (window_sec self) (default [] (hits self !! "10.0.0.1")) in
  let r := check self 2%Q "10.0.0.1" in
  window_sec self = 60%Q
  /\ (fst r <> None <-> rpm self <= Z.of_nat (List.length q))
  /\ (forall e, fst r = Some e -> status_code e = 429)
  /\ (fst r = None -> hits (snd r) = <["10.0.0.1" := (q ++ [2%Q])%list]> (hits self))
  /\ (fst r <> None -> hits (snd r) = hits self).
Proof.
  intros self.
  apply (proj1 rate_limiter_check self 2%Q "10.0.0.1").
  apply reach_check, reach_check, reach_init.
Defined.

End RateLimitFacts.

(* ===================================================================== *)
(** ** Properties of the hybrid swarm *)
(* ===================================================================== *)

Module HybridFacts.
Import Py Hybrid.

Lemma dict_get_set_eq {V} (k : string) (v : V) (d : dict V) :
  dict_get k (dict_set k v d) = Some v.
Proof.
  induction d as [|[k' v'] d IH]; cbn.
  - now rewrite String.eqb_refl.
  - destruct (String.eqb k k') eqn:E; cbn; rewrite E; [reflexivity | exact IH].
Qed.

Lemma dict_get_set_ne {V} (k k' : string) (v : V) (d : dict V) :
  k <> k' -> dict_get k (dict_set k' v d) = dict_get k d.
Proof.
  intros Hne. induction d as [|[k2 v2] d IH]; cbn.
  - apply String.eqb_neq in Hne. now rewrite Hne.
  - destruct (String.eqb k' k2) eqn:E; cbn.
    + apply String.eqb_eq in E. subst k2.
      apply String.eqb_neq in Hne. now rewrite Hne.
    + now rewrite IH.
Qed.

(** [valid] holds as many dicts as there are valid results. *)
Lemma valid_of_length (results : list TaskResult) :
  List.length (valid_of results) = List.length (List.filter is_valid results).
Proof.
  induction results as [|[e|d] results IH]; cbn; [reflexivity | exact IH |].
  destruct (dict_mem "error" d); cbn; [exact IH | now rewrite IH].
Qed.

(** Results that are not valid before the first valid one do not count. *)
Lemma valid_of_first (pre : list TaskResult) (winner : dict pyval)
    (post : list TaskResult) :
  forallb (fun r => negb (is_valid r)) pre = true ->
  is_valid (inr winner) = true ->
  valid_of (pre ++ inr winner :: post)%list = winner :: valid_of post.
Proof.
  intros Hpre Hw. induction pre as [|[e|d] pre IH]; cbn in *.
  - apply negb_true_iff in Hw. now rewrite Hw.
  - now apply IH.
  - apply andb_true_iff in Hpre as [Hd Hpre].
    rewrite negb_involutive in Hd. rewrite Hd. now apply IH.
Qed.

(** C9. Swarm selection.  There is one task per provider whose key is
    set, in the order Groq, OpenRouter, Gemini.  Without any task the
    result is the error "No providers available"; when no gathered result
    is valid it is the error "All providers failed"; otherwise it is the
    first valid result in task order, with [swarm_mode] set to true and
    [candidates] set to the number of valid results, its other keys
    unchanged. *)
Theorem swarm_selection :
  (forall self : HybridSwarm,
      tasks self
      = List.filter (fun p => truthy (key_of self p)) [Groq; OpenRouter; Gemini])
  /\
  (forall (self : HybridSwarm) (call : Provider -> TaskResult),
      tasks self = [] ->
      _swarm self call = [("error", PStr "No providers available")])
  /\
  (forall (self : HybridSwarm) (call : Provider -> TaskResult),
      tasks self <> [] ->
      _swarm self call = select (map call (tasks self)))
  /\
  (forall results : list TaskResult,
      forallb (fun r => negb (is_valid r)) results = true ->
      select results = [("error", PStr "All providers failed")])
  /\
  (forall (pre : list TaskResult) (winner : dict pyval) (post : list TaskResult),
      forallb (fun r => negb (is_valid r)) pre = true ->
      is_valid (inr winner) = true ->
      let results := (pre ++ inr winner :: post)%list in
      let out := select results in
      out = dict_set "candidates"
              (PInt (Z.of_nat (List.length (List.filter is_valid results))))
              (dict_set "swarm_mode" (PBool true) winner)
      /\ dict_get "swarm_mode" out = Some (PBool true)
      /\ dict_get "candidates" out
         = Some (PInt (Z.of_nat (List.length (List.filter is_valid results))))
      /\ (forall k, k <> "swarm_mode" -> k <> "candidates" ->
                    dict_get k out = dict_get k winner)).
Proof.
  split; [|split; [|split; [|split]]].
  - intros [g o a]. unfold tasks. cbn [groq_key openrouter_key google_key
                                         key_of List.filter].
    destruct (truthy g), (truthy o), (truthy a); reflexivity.
  - intros self call H. unfold _swarm. now rewrite H.
  - intros self call H. unfold _swarm. destruct (tasks self); [congruence|reflexivity].
  - intros results H. unfold select.
    assert (Hv : valid_of results = []).
    { induction results as [|[e|d] results IH]; cbn in *; [reflexivity|auto|].
      apply andb_true_iff in H as [Hd H]. rewrite negb_involutive in Hd.
      rewrite Hd. auto. }
    now rewrite Hv.
  - intros pre winner post Hpre Hw results out.
    assert (Hout : out = dict_set "candidates"
                           (PInt (Z.of_nat (List.length (List.filter is_valid results))))
                           (dict_set "swarm_mode" (PBool true) winner)).
    { subst out. unfold select. rewrite valid_of_length. subst results.
      now rewrite (valid_of_first pre winner post Hpre Hw). }
    rewrite Hout. split; [reflexivity|]. split; [|split].
    + rewrite dict_get_set_ne by discriminate. apply dict_get_set_eq.
    + apply dict_get_set_eq.
    + intros k H1 H2. now rewrite !dict_get_set_ne by assumption.
Qed.

(** Groq raised, OpenRouter reported an error, Gemini answered: Gemini
    wins as the only candidate. *)
Lemma swarm_selection_witness :
  let winner := [("new_code", PStr "print(1)"); ("provider", PStr "gemini")] in
  let results :=
    ([inl (RuntimeError "boom"); inr [("error", PStr "OpenRouter error 500")]]
       ++ inr winner :: [])%list in
  let out := select results in
  out = dict_set "candidates"
          (PInt (Z.of_nat (List.length (List.filter is_valid results))))
          (dict_set "swarm_mode" (PBool true) winner)
  /\ dict_get "swarm_mode" out = Some (PBool true)
  /\ dict_get "candidates" out
     = Some (PInt (Z.of_nat (List.length (List.filter is_valid results))))
  /\ (forall k, k <> "swarm_mode" -> k <> "candidates" ->
                dict_get k out = dict_get k winner).
Proof.
  intros winner.
  apply (proj2 (proj2 (proj2 (proj2 swarm_selection)))
           [inl (RuntimeError "boom"); inr [("error", PStr "OpenRouter error 500")]]
           winner []).
  - reflexivity.
  - reflexivity.
Defined.

End HybridFacts.

(* ===================================================================== *)
(** ** More on the model-chain runner *)
(* ===================================================================== *)

Module ChainCover.
Import Py Eff Swarm.

Section Chain.
Context {R : Runtime}.
Variable messages : list (string * string).
Variable env : gmap string (option string).

Local Abbreviation call_of m := (mkCall m messages false (api_key_for m env)).
Local Abbreviation calls ms := (calls_for ms messages env).

(** The loop, whatever the provider does: it returns the first model that
    responds, or raises after every model has failed. *)
Lemma loop_outcome (models : list string) :
  forall (w : World) (last_err : option Exn),
    match try_models_loop models messages env last_err w with
    | (inr (m, out), w') =>
        exists pre post,
          models = (pre ++ m :: post)%list
          /\ fails_all w (calls pre) = true
          /\ acompletion (w ++ calls pre)%list (call_of m) = Responds out
          /\ w' = (w ++ calls pre ++ [call_of m])%list
    | (inl e, w') =>
        fails_all w (calls models) = true
        /\ w' = (w ++ calls models)%list
        /\ e = RuntimeError ("All models failed. Last error: "
                             ++ repr_last_err (last_failure w (calls models) last_err))
    end.
Proof.
  induction models as [|m models IH]; intros w last_err.
  - cbn. now rewrite app_nil_r.
  - cbn [try_models_loop calls_for map fails_all last_failure].
    unfold _one_shot_completion.
    destruct (acompletion w (call_of m)) as [out|r] eqn:Hm.
    + exists [], models. cbn. rewrite app_nil_r. auto.
    + specialize (IH (w ++ [call_of m])%list (Some (ProviderError r))).
      destruct (try_models_loop models messages env (Some (ProviderError r))
                  (w ++ [call_of m])%list) as [[e|[m' out]] w'].
      * destruct IH as (Hf & Hw & He). rewrite <- app_assoc in Hw. auto.
      * destruct IH as (pre & post & Hmod & Hf & Hresp & Hw).
        exists (m :: pre), post. cbn [calls_for map fails_all app].
        rewrite Hm, Hmod. rewrite <- !app_assoc in *. cbn [app] in *. auto.
Qed.

(** X1. Whatever the providers do, [_try_models_one_shot] ends in one of
    two ways: it returns the first model of the chain that responds, with
    that response, having called the models before it and nothing after
    it; or every model has been called once and has failed, and it raises
    the [RuntimeError] that quotes the last failure ([None] for an empty
    chain). *)
Theorem chain_first_responder (models : list string) (w : World) :
  match _try_models_one_shot models messages env w with
  | (inr (m, out), w') =>
      exists pre post,
        models = (pre ++ m :: post)%list
        /\ fails_all w (calls pre) = true
        /\ acompletion (w ++ calls pre)%list (call_of m) = Responds out
        /\ w' = (w ++ calls pre ++ [call_of m])%list
  | (inl e, w') =>
      fails_all w (calls models) = true
      /\ w' = (w ++ calls models)%list
      /\ e = RuntimeError ("All models failed. Last error: "
                           ++ repr_last_err (last_failure w (calls models) None))
  end.
Proof. apply loop_outcome. Qed.

End Chain.

End ChainCover.

(* ===================================================================== *)
(** ** More on the stages *)
(* ===================================================================== *)

Module StageCover.
Import Py Eff Eff.Notations Swarm StageFacts.

(** The fields no stage assigns: the request and the iteration cap. *)
Definition same_request (st st' : SwarmState) : Prop :=
  project_id st' = project_id st
  /\ owner_id st' = owner_id st
  /\ title st' = title st
  /\ kind st' = kind st
  /\ prompt st' = prompt st
  /\ max_iterations st' = max_iterations st.

Section Stages.
Context {R : Runtime}.
Variable chains : Chains.
Variable env : gmap string (option string).

Ltac unfold_stage :=
  unfold node_research, node_plan, node_code, node_design, node_review,
    attempt, llm_judgment, timeline_append, assign, on_fst, on_snd, modify,
    bind, item, the_state, lift, ret, raise.

Lemma run_node_same_request n st w r st' w' :
  run_node chains env n (st, w) = (r, (st', w')) -> same_request st st'.
Proof.
  destruct n; cbn [run_node]; unfold_stage; intros H; run_stage;
    unfold same_request; cbn; auto 10.
Qed.

(** On a state with a timeline, a stage that raises has written nothing. *)
Lemma run_node_atomic n st w e st' w' :
  timeline st <> None ->
  run_node chains env n (st, w) = (inl e, (st', w')) -> st' = st.
Proof.
  intros Htl. destruct n; cbn [run_node]; unfold_stage; intros H; run_stage;
    try reflexivity; try discriminate; cbn in *; congruence.
Qed.

(** On a state with a timeline, the Reviewer returns. *)
Lemma node_review_returns chain st w :
  timeline st <> None ->
  exists st' w', node_review chain env (st, w) = (inr tt, (st', w')).
Proof.
  intros Htl. rewrite ReviewFacts.node_review_result.
  destruct (timeline st); [eauto | congruence].
Qed.

End Stages.

(** X2. No partial writes.  On a state that has a timeline, a stage that
    raises - Researcher, Planner, Coder or Designer, for an exhausted
    chain, a response that does not parse or an empty file list - leaves
    the state object exactly as it found it. *)
Theorem failed_stage_leaves_state :
  forall (R : Runtime) (chains : Chains) (env : gmap string (option string))
         (n : Node) (st st' : SwarmState) (w w' : World) (e : Exn),
    timeline st <> None ->
    run_node chains env n (st, w) = (inl e, (st', w')) ->
    st' = st.
Proof. intros R chains env n st st' w w' e. apply run_node_atomic. Qed.

Lemma failed_stage_leaves_state_witness :
  let R := Fixtures.runtime_of [Responds "not json"] in
  let st := Fixtures.initial_state "webapp" "p" in
  fst (snd (run_node (Fixtures.chains_of ["groq/llama3-70b-8192"])
              Fixtures.no_keys Coder (st, [])))
  = st.
Proof.
  intros R st.
  apply (failed_stage_leaves_state R (Fixtures.chains_of ["groq/llama3-70b-8192"])
           Fixtures.no_keys Coder st _ [] 
           (snd (snd (run_node (Fixtures.chains_of ["groq/llama3-70b-8192"])
                        Fixtures.no_keys Coder (st, []))))
           (JSONDecodeError "Expecting value")).
  - discriminate.
  - vm_compute. reflexivity.
Defined.

(** X3. The Reviewer never aborts a run.  On a state that has a timeline
    [node_review] returns, whatever the providers answer and whatever the
    parser makes of it. *)
Theorem reviewer_always_returns :
  forall (R : Runtime) (chain : list string)
         (env : gmap string (option string)) (st : SwarmState) (w : World),
    timeline st <> None ->
    exists st' w', node_review chain env (st, w) = (inr tt, (st', w')).
Proof. intros R chain env st w. apply node_review_returns. Qed.

Lemma reviewer_always_returns_witness :
  let R := Fixtures.runtime_of [Responds "not json"] in
  exists st' w',
    node_review ["groq/llama3-70b-8192"] Fixtures.no_keys
      (Fixtures.initial_state "webapp" "p", [])
    = (inr tt, (st', w')).
Proof.
  intros R.
  apply (reviewer_always_returns R ["groq/llama3-70b-8192"] Fixtures.no_keys
           (Fixtures.initial_state "webapp" "p") []).
  discriminate.
Defined.

(** The keys of a dict after [d[k] = v]. *)
Lemma dict_keys_set {V} (k : string) (v : V) (d : dict V) :
  dict_keys (dict_set k v d)
  = if dict_mem k d then dict_keys d else (dict_keys d ++ [k])%list.
Proof.
  unfold dict_mem, dict_keys. induction d as [|[k' v'] d IH]; cbn; [reflexivity|].
  destruct (String.eqb k k') eqn:E; cbn; [reflexivity|].
  rewrite IH. now destruct (dict_get k d).
Qed.

Lemma dict_mem_keys {V} (k : string) (d : dict V) :
  dict_mem k d = false -> ~ In k (dict_keys d).
Proof.
  unfold dict_mem. induction d as [|[k' v'] d IH]; cbn; [tauto|].
  destruct (String.eqb k k') eqn:E; [discriminate|].
  apply String.eqb_neq in E. intros H [Hk | Hin]; [congruence | now apply IH].
Qed.

Lemma dict_set_nodup {V} (k : string) (v : V) (d : dict V) :
  NoDup (dict_keys d) -> NoDup (dict_keys (dict_set k v d)).
Proof.
  intros Hd. rewrite dict_keys_set. destruct (dict_mem k d) eqn:E; [assumption|].
  apply NoDup_app. repeat split.
  - assumption.
  - intros x Hx Hin. apply list_elem_of_In in Hx, Hin.
    destruct Hin as [<- | []]. now apply dict_mem_keys in E.
  - apply NoDup_cons. split; [intros H; inversion H | constructor].
Qed.

Section Coder.
Context {R : Runtime}.

Lemma add_file_nodup (files : dict string) (f : pyval) :
  NoDup (dict_keys files) -> NoDup (dict_keys (add_file files f)).
Proof.
  intros H. unfold add_file. destruct f; try assumption.
  destruct (dict_mem "path" d && dict_mem "content" d); [|assumption].
  destruct (dict_get "path" d), (dict_get "content" d); try assumption.
  now apply dict_set_nodup.
Qed.

Lemma fold_add_file_nodup (items : list pyval) :
  forall files, NoDup (dict_keys files) ->
                NoDup (dict_keys (fold_left add_file items files)).
Proof.
  induction items as [|f items IH]; intros files H; cbn [fold_left];
    [assumption|]. apply IH. now apply add_file_nodup.
Qed.

(** The last record with a given path decides its content. *)
Lemma fold_add_file_last (pre post : list pyval) (d : dict pyval)
    (pth cnt : pyval) (acc : dict string) :
  dict_get "path" d = Some pth ->
  dict_get "content" d = Some cnt ->
  (forall f d' pth', In f post -> f = PDict d' -> valid_entry f = true ->
                     dict_get "path" d' = Some pth' -> py_str pth' <> py_str pth) ->
  dict_get (py_str pth) (fold_left add_file (pre ++ PDict d :: post) acc)
  = Some (py_str cnt).
Proof.
  intros Hp Hc Hpost. rewrite fold_left_app. cbn [fold_left].
  set (acc1 := fold_left add_file pre acc).
  assert (H1 : dict_get (py_str pth) (add_file acc1 (PDict d)) = Some (py_str cnt)).
  { unfold add_file, dict_mem. rewrite Hp, Hc. cbn [andb].
    apply HybridFacts.dict_get_set_eq. }
  revert H1. generalize (add_file acc1 (PDict d)). clear acc1.
  induction post as [|f post IH]; intros files H1; cbn [fold_left]; [assumption|].
  apply IH.
  - intros g d' pth' Hin. apply Hpost. now right.
  - unfold add_file. destruct f; try assumption.
    destruct (dict_mem "path" d0 && dict_mem "content" d0) eqn:Hv; [|assumption].
    destruct (dict_get "path" d0) as [pth'|] eqn:Hp'; [|assumption].
    destruct (dict_get "content" d0); [|assumption].
    rewrite HybridFacts.dict_get_set_ne; [assumption|].
    intros E. symmetry in E. revert E.
    apply (Hpost (PDict d0) d0 pth'); auto. now left.
Qed.

End Coder.

(** X4. What the Coder stores.  When [node_code] returns, [code_files]
    is a non-empty mapping whose paths are pairwise different, and the
    timeline entry it appended counts them.  Where several records of the
    response carry the same path, the content of the last one is kept. *)
Theorem coder_files_unique :
  (forall (R : Runtime) (chain : list string)
          (env : gmap string (option string)) (st st' : SwarmState)
          (w w' : World) (u : unit),
      node_code chain env (st, w) = (inr u, (st', w')) ->
      exists files tl,
        code_files st' = Some files
        /\ files <> []
        /\ NoDup (dict_keys files)
        /\ timeline st'
           = Some (tl ++ [[("node", PStr "Coder"); ("event", PStr "done");
                           ("files", PInt (Z.of_nat (List.length files)))]])%list)
  /\
  (forall (R : Runtime) (pre post : list pyval) (d : dict pyval)
          (pth cnt : pyval),
      dict_get "path" d = Some pth ->
      dict_get "content" d = Some cnt ->
      (forall f d' pth', In f post -> f = PDict d' -> valid_entry f = true ->
                         dict_get "path" d' = Some pth' ->
                         py_str pth' <> py_str pth) ->
      dict_get (py_str pth) (fold_left add_file (pre ++ PDict d :: post) [])
      = Some (py_str cnt)).
Proof.
  split.
  - intros R chain env st st' w w' u.
    unfold node_code, timeline_append, assign, on_fst, on_snd, modify,
      bind, item, the_state, lift, ret, raise.
    intros H. run_stage; cbn in *; try discriminate.
    match goal with
    | Hf : fold_left add_file ?items [] = ?p :: ?l |- _ =>
        exists (p :: l); eexists; repeat split;
        [discriminate
        | rewrite <- Hf; apply fold_add_file_nodup; constructor]
    end.
  - intros R pre post d pth cnt. apply fold_add_file_last.
Qed.

Lemma coder_files_unique_witness :
  let R := Fixtures.runtime_of [Responds Fixtures.noisy_files] in
  let st := Fixtures.initial_state "webapp" "a text file" in
  let r := node_code ["groq/llama3-70b-8192"] Fixtures.no_keys (st, []) in
  exists files tl,
    code_files (fst (snd r)) = Some files
    /\ files <> []
    /\ NoDup (dict_keys files)
    /\ timeline (fst (snd r))
       = Some (tl ++ [[("node", PStr "Coder"); ("event", PStr "done");
                       ("files", PInt (Z.of_nat (List.length files)))]])%list.
Proof.
  intros R st r.
  apply (proj1 coder_files_unique R ["groq/llama3-70b-8192"] Fixtures.no_keys
           st (fst (snd r)) [] (snd (snd r)) tt).
  vm_compute. reflexivity.
Defined.

(** The [messages] of [node_plan]. *)
Definition planner_messages (k p : string) : list (string * string) :=
  [("system", SYSTEM_BASE);
   ("user", PLANNER_PROMPT ++ nl ++ nl ++ "KIND=" ++ k ++ nl ++ "PROMPT:" ++ nl ++ p)].

(** The provider log after [node_plan]: it is decided by [kind], [prompt]
    and the log before. *)
Lemma node_plan_log (R : Runtime) (chain : list string)
    (env : gmap string (option string)) (st : SwarmState) (w : World) :
  snd (snd (node_plan chain env (st, w)))
  = match kind st, prompt st with
    | Some k, Some p =>
        snd (_try_models_one_shot chain (planner_messages k p) env w)
    | _, _ => w
    end.
Proof.
  unfold node_plan, timeline_append, assign, on_fst, on_snd, modify,
    bind, item, the_state. cbn [fst snd].
  destruct (kind st) as [k|]; cbn [fst snd]; [|reflexivity].
  destruct (prompt st) as [p|]; cbn [fst snd]; [|reflexivity].
  fold (planner_messages k p).
  destruct (_try_models_one_shot chain (planner_messages k p) env w)
    as [[e|[m text]] w']; cbn [fst snd]; [reflexivity|].
  destruct (timeline st); reflexivity.
Qed.

(** X5. The Planner adds to the plan and asks the same question on every
    pass.  When the chain answers [text], [node_plan] appends
    "[Plan]\n" + text + "\n" to the plan that was there (the empty plan
    when there was none) and changes nothing else but the timeline.  Its
    messages are built from [kind] and [prompt] alone: two states with the
    same [kind] and [prompt] - whatever their plan, review notes or
    iteration count - lead to the same provider calls. *)
Theorem planner_is_additive :
  (forall (R : Runtime) (chain : list string)
          (env : gmap string (option string)) (st : SwarmState)
          (w w' : World) (k p m text : string) (tl : list (dict pyval)),
      kind st = Some k ->
      prompt st = Some p ->
      timeline st = Some tl ->
      _try_models_one_shot chain (planner_messages k p) env w = (inr (m, text), w') ->
      node_plan chain env (st, w)
      = (inr tt,
         (set_plan (default "" (plan st) ++ "[Plan]" ++ nl ++ text ++ nl)
            (set_timeline (tl ++ [[("node", PStr "Planner"); ("event", PStr "done")]])%list
               st),
          w')))
  /\
  (forall (R : Runtime) (chain : list string)
          (env : gmap string (option string)) (st1 st2 : SwarmState) (w : World),
      kind st1 = kind st2 ->
      prompt st1 = prompt st2 ->
      snd (snd (node_plan chain env (st1, w)))
      = snd (snd (node_plan chain env (st2, w)))).
Proof.
  split.
  - intros R chain env st w w' k p m text tl Hk Hp Htl Htry.
    unfold node_plan.
    unfold bind at 1. unfold item at 1. cbn [fst]. rewrite Hk.
    unfold bind at 1. unfold item at 1. cbn [fst]. rewrite Hp.
    unfold bind at 1. unfold on_snd at 1. cbn [fst snd].
    fold (planner_messages k p). rewrite Htry.
    unfold timeline_append, assign, on_fst, modify, bind, item, the_state.
    cbn [fst snd]. rewrite Htl. reflexivity.
  - intros R chain env st1 st2 w Hk Hp.
    rewrite !node_plan_log. now rewrite Hk, Hp.
Qed.

Lemma planner_is_additive_witness :
  let R := Fixtures.runtime_of [Responds "step one"] in
  let st := set_plan "[Research Notes]" (Fixtures.initial_state "webapp" "an app") in
  node_plan ["groq/llama3-70b-8192"] Fixtures.no_keys (st, [])
  = (inr tt,
     (set_plan (default "" (plan st) ++ "[Plan]" ++ nl ++ "step one" ++ nl)
        (set_timeline ([] ++ [[("node", PStr "Planner"); ("event", PStr "done")]])%list
           st),
      [mkCall "groq/llama3-70b-8192" (planner_messages "webapp" "an app") false None])).
Proof.
  intros R st.
  apply (proj1 planner_is_additive R ["groq/llama3-70b-8192"] Fixtures.no_keys
           st [] _ "webapp" "an app" "groq/llama3-70b-8192" "step one" []).
  - reflexivity.
  - reflexivity.
  - reflexivity.
  - vm_compute. reflexivity.
Defined.

(** X6. The Designer keeps at most three prompts.  When [node_design]
    returns, [image_prompts] holds at most 3 entries and the timeline
    entry it appended records how many. *)
Theorem designer_caps_prompts :
  forall (R : Runtime) (chain : list string)
         (env : gmap string (option string)) (st st' : SwarmState)
         (w w' : World) (u : unit),
    node_design chain env (st, w) = (inr u, (st', w')) ->
    exists prompts tl,
      image_prompts st' = Some prompts
      /\ (List.length prompts <= 3)%nat
      /\ timeline st'
         = Some (tl ++ [[("node", PStr "Designer"); ("event", PStr "done");
                         ("count", PInt (Z.of_nat (List.length prompts)))]])%list.
Proof.
  intros R chain env st st' w w' u.
  unfold node_design, timeline_append, assign, on_fst, on_snd, modify,
    bind, item, the_state, lift, ret, raise.
  intros H. run_stage; cbn in *; try discriminate.
  all: eexists; eexists; repeat split; apply List.firstn_le_length.
Qed.

Lemma designer_caps_prompts_witness :
  let R := Fixtures.runtime_of
             [Responds ("{" ++ q "image_prompts" ++ ": [1, 2, 3, 4, 5]}")] in
  let st := Fixtures.initial_state "webapp" "an app" in
  let r := node_design ["groq/llama3-70b-8192"] Fixtures.no_keys (st, []) in
  exists prompts tl,
    image_prompts (fst (snd r)) = Some prompts
    /\ (List.length prompts <= 3)%nat
    /\ timeline (fst (snd r))
       = Some (tl ++ [[("node", PStr "Designer"); ("event", PStr "done");
                       ("count", PInt (Z.of_nat (List.length prompts)))]])%list.
Proof.
  intros R st r.
  apply (designer_caps_prompts R ["groq/llama3-70b-8192"] Fixtures.no_keys
           st (fst (snd r)) [] (snd (snd r)) tt).
  vm_compute. reflexivity.
Defined.

End StageCover.

(* ===================================================================== *)
(** ** More on the Reviewer *)
(* ===================================================================== *)

Module ReviewCover.
Import Py Eff Eff.Notations Swarm StringFacts ReviewFacts.

Local Arguments String.append !_ _ / : simpl nomatch.

Lemma prefix_inv (a s : string) :
  String.prefix a s = true -> exists t, s = a ++ t.
Proof.
  revert a. induction s as [|c s IH]; intros [|x a] H; cbn in *;
    try discriminate; eauto.
  destruct (ascii_dec x c) as [->|]; [|discriminate].
  destruct (IH a H) as [t ->]. eauto.
Qed.

(** A text that holds [sub] somewhere: [find] finds it. *)
Lemma find_from_occurrence (sub pre post : string) :
  forall i, 0 <= i -> find_from sub (pre ++ sub ++ post) i <> -1.
Proof.
  induction pre as [|c pre IH]; intros i Hi.
  - cbn [append]. destruct (sub ++ post) eqn:E; cbn [find_from];
      rewrite <- E, prefix_append; lia.
  - cbn [append find_from].
    destruct (String.prefix sub (String c (pre ++ sub ++ post))); [lia|].
    apply IH. lia.
Qed.

Lemma contains_occurrence (sub pre post : string) :
  contains sub (pre ++ sub ++ post) = true.
Proof.
  unfold contains, find. apply negb_true_iff, Z.eqb_neq.
  now apply find_from_occurrence.
Qed.

Lemma find_from_inv (sub s : string) :
  forall i, find_from sub s i <> -1 -> exists pre post, s = pre ++ sub ++ post.
Proof.
  induction s as [|c s IH]; intros i H; cbn [find_from] in H.
  - destruct (String.prefix sub EmptyString) eqn:E; [|congruence].
    destruct (prefix_inv _ _ E) as [t Ht]. exists EmptyString, t. exact Ht.
  - destruct (String.prefix sub (String c s)) eqn:E.
    + destruct (prefix_inv _ _ E) as [t Ht]. exists EmptyString, t. exact Ht.
    + destruct (IH _ H) as (pre & post & ->). now exists (String c pre), post.
Qed.

(** [sub in a] gives [sub in (x + a + y)]. *)
Lemma contains_inside (sub x a y : string) :
  contains sub a = true -> contains sub (x ++ a ++ y) = true.
Proof.
  unfold contains at 1, find. intros H.
  apply negb_true_iff, Z.eqb_neq in H.
  destruct (find_from_inv _ _ _ H) as (pre & post & ->).
  replace (x ++ (pre ++ sub ++ post) ++ y) with ((x ++ pre) ++ sub ++ (post ++ y)).
  - apply contains_occurrence.
  - now rewrite !append_assoc.
Qed.

Lemma contains_self (a : string) : contains a a = true.
Proof.
  rewrite <- (append_nil_r a) at 2. apply (contains_occurrence a EmptyString).
Qed.

(** A joined text holds each of its parts. *)
Lemma join_part (sep v : string) (l : list string) :
  In v l -> exists x y, join sep l = x ++ v ++ y.
Proof.
  induction l as [|a l IH]; intros Hin; [destruct Hin|].
  destruct Hin as [-> | Hin].
  - destruct (join_head sep v l) as [t Ht]. exists EmptyString, t. exact Ht.
  - destruct (IH Hin) as (x & y & Hxy).
    destruct l as [|b l]; [destruct Hin|].
    cbn [join] in *. rewrite Hxy. exists (a ++ sep ++ x), y.
    now rewrite !append_assoc.
Qed.

Lemma contains_join (sub sep v : string) (l : list string) :
  In v l -> contains sub v = true -> contains sub (join sep l) = true.
Proof.
  intros Hin Hv. destruct (join_part sep v l Hin) as (x & y & ->).
  now apply contains_inside.
Qed.

Lemma contains_nonempty (sub s : string) :
  nonempty sub = true -> contains sub s = true -> nonempty s = true.
Proof.
  intros Hsub H. destruct s; [|reflexivity].
  destruct sub; [discriminate|]. discriminate.
Qed.

(** A note that is not empty shows in the notes text. *)
Lemma notes_text_holds (passed : bool) (note : string) (notes : list string) :
  nonempty note = true -> In note notes ->
  contains note (notes_text passed notes) = true.
Proof.
  intros Hn Hin. unfold notes_text.
  assert (Hj : contains note (join "; " (List.filter nonempty notes)) = true).
  { apply (contains_join _ _ note); [|apply contains_self].
    apply filter_In. auto. }
  now rewrite (contains_nonempty _ _ Hn Hj).
Qed.

Definition secret_note : string :=
  "Hardcoded secret-looking env var name found. Use .env, never inline secrets.".

Section Review.
Context {R : Runtime}.

(** The judgment when the chain answers with a JSON object. *)
Lemma llm_judgment_answered chain msgs env st w w' m raw d :
  _try_models_one_shot chain msgs env w = (inr (m, raw), w') ->
  _safe_json_loads raw = inr (PDict d) ->
  llm_judgment chain msgs env (st, w)
  = (inr (py_bool (default (PBool true) (dict_get "pass" d)),
          strip (py_str (default (PStr "") (dict_get "notes" d)))),
     (st, w')).
Proof.
  intros Htry Hparse. unfold llm_judgment, on_snd, bind, lift, ret.
  cbn [fst snd]. rewrite Htry, Hparse. reflexivity.
Qed.

(** Local checks that pass leave no note. *)
Lemma local_checks_clean (files : dict string) :
  fst (local_checks files) = true -> snd (local_checks files) = [].
Proof.
  unfold local_checks. destruct (dict_mem "README.md" files); cbn [negb];
    destruct (contains _ _ || contains _ _); cbn; congruence.
Qed.

(** A deny-listed name in some content fails the local checks, with the
    note that says so. *)
Lemma local_checks_secret (files : dict string) (pth cnt : string) :
  In (pth, cnt) files ->
  contains "SUPABASE_SERVICE_ROLE_KEY" cnt = true
  \/ contains "STRIPE_SECRET_KEY" cnt = true ->
  fst (local_checks files) = false /\ In secret_note (snd (local_checks files)).
Proof.
  intros Hin Hc.
  assert (Hv : In cnt (dict_values files)).
  { unfold dict_values. apply in_map_iff. now exists (pth, cnt). }
  assert (Hj : contains "SUPABASE_SERVICE_ROLE_KEY" (join nl (dict_values files))
               || contains "STRIPE_SECRET_KEY" (join nl (dict_values files)) = true).
  { apply orb_true_iff. destruct Hc as [Hc | Hc]; [left | right];
      now apply (contains_join _ _ cnt). }
  unfold local_checks. rewrite Hj.
  destruct (negb (dict_mem "README.md" files)); cbn; auto.
Qed.

End Review.

(** X7. Either verdict can fail the review.  On a state with a timeline,
    when the review chain answers with a JSON object, [review_passed] is
    true exactly when the README is there, no deny-listed name occurs in
    the contents, and the object's "pass" (true when absent) is truthy.
    The notes of the model are stripped of Python's white space (the
    no-break space and the next-line character included): when something
    is left it shows in [review_notes]; a pass whose notes strip to nothing
    gives the notes "OK".  The text is text of code points below 256, as
    everywhere in the model. *)
Theorem reviewer_combines_verdicts :
  forall (R : Runtime) (st : SwarmState) (chain : list string)
         (env : gmap string (option string)) (w w' : World)
         (tl : list (dict pyval)) (m raw : string) (d : dict pyval),
    let files := default [] (code_files st) in
    let llm_pass := py_bool (default (PBool true) (dict_get "pass" d)) in
    let llm_notes := strip (py_str (default (PStr "") (dict_get "notes" d))) in
    let passed :=
      dict_mem "README.md" files
      && negb (contains "SUPABASE_SERVICE_ROLE_KEY" (join nl (dict_values files))
               || contains "STRIPE_SECRET_KEY" (join nl (dict_values files)))
      && llm_pass in
    timeline st = Some tl ->
    _try_models_one_shot chain (review_messages files) env w = (inr (m, raw), w') ->
    _safe_json_loads raw = inr (PDict d) ->
    exists st',
      node_review chain env (st, w) = (inr tt, (st', w'))
      /\ review_passed st' = Some passed
      /\ (nonempty llm_notes = true ->
          exists notes, review_notes st' = Some notes
                        /\ contains llm_notes notes = true)
      /\ (passed = true -> nonempty llm_notes = false ->
          review_notes st' = Some "OK").
Proof.
  intros R st chain env w w' tl m raw d files llm_pass llm_notes passed
         Htl Htry Hparse.
  rewrite node_review_result. fold files.
  rewrite (llm_judgment_answered _ _ _ st _ _ _ _ _ Htry Hparse), Htl.
  fold llm_pass llm_notes. cbn [fst snd judgment_of merged].
  pose proof (local_checks_passed files) as Hlocal.
  pose proof (local_checks_clean files) as Hclean.
  destruct (local_checks files) as [lp ln]. cbn [fst snd] in *.
  eexists. split; [reflexivity|].
  cbn [review_passed review_notes set_timeline set_review_notes set_review_passed].
  split; [|split].
  - f_equal. subst passed. rewrite <- Hlocal.
    destruct llm_pass, lp; reflexivity.
  - intros Hn. rewrite Hn. eexists. split; [reflexivity|].
    apply notes_text_holds; [assumption|]. apply in_or_app. right. now left.
  - intros Hp Hn. rewrite Hn. subst passed. rewrite <- Hlocal in Hp.
    apply andb_true_iff in Hp as [Hlp Hllm]. rewrite Hllm, Hlp.
    rewrite (Hclean Hlp). reflexivity.
Qed.

(** A passing project whose reviewer answers with notes made of a
    no-break space and a blank: stripped they are empty, and the notes of
    the review are "OK". *)
Lemma reviewer_combines_verdicts_witness :
  let blank := String (ascii_of_nat 160) " " in
  let raw := "{" ++ q "pass" ++ ": true, " ++ q "notes" ++ ": " ++ q blank ++ "}" in
  let R := Fixtures.runtime_of [Responds raw] in
  let st := set_code_files [("README.md", "run it")] (Fixtures.initial_state "webapp" "p") in
  exists st',
    node_review ["groq/llama3-70b-8192"] Fixtures.no_keys (st, [])
    = (inr tt,
       (st', [mkCall "groq/llama3-70b-8192"
                (review_messages [("README.md", "run it")]) false None]))
    /\ review_passed st' = Some true
    /\ (nonempty (strip blank) = true ->
        exists notes, review_notes st' = Some notes
                      /\ contains (strip blank) notes = true)
    /\ (true = true -> nonempty (strip blank) = false ->
        review_notes st' = Some "OK").
Proof.
  intros blank raw R st.
  apply (reviewer_combines_verdicts R st ["groq/llama3-70b-8192"] Fixtures.no_keys
           [] _ [] "groq/llama3-70b-8192" raw
           [("pass", PBool true); ("notes", PStr blank)]).
  - reflexivity.
  - vm_compute. reflexivity.
  - vm_compute. reflexivity.
Defined.

(** X8. A deny-listed name fails the review.  When the content of some
    file holds "SUPABASE_SERVICE_ROLE_KEY" or "STRIPE_SECRET_KEY", the
    state [node_review] leaves has [review_passed] false and a
    [review_notes] that holds the hard-coded-secret note, whatever the
    model answers. *)
Theorem reviewer_flags_secrets :
  forall (R : Runtime) (st : SwarmState) (chain : list string)
         (env : gmap string (option string)) (w : World)
         (files : dict string) (pth cnt : string),
    code_files st = Some files ->
    In (pth, cnt) files ->
    contains "SUPABASE_SERVICE_ROLE_KEY" cnt = true
    \/ contains "STRIPE_SECRET_KEY" cnt = true ->
    let st' := fst (snd (node_review chain env (st, w))) in
    review_passed st' = Some false
    /\ exists notes, review_notes st' = Some notes
                     /\ contains secret_note notes = true.
Proof.
  intros R st chain env w files pth cnt Hfiles Hin Hc st'. subst st'.
  rewrite node_review_result. rewrite Hfiles. cbn [default from_option id].
  destruct (local_checks_secret files pth cnt Hin Hc) as [Hlp Hnote].
  set (res := llm_judgment _ _ _ _).
  destruct (local_checks files) as [lp ln]. cbn [fst snd] in Hlp, Hnote. subst lp.
  assert (Hv : fst (merged (false, ln) (judgment_of (fst res))) = false
               /\ In secret_note (snd (merged (false, ln) (judgment_of (fst res))))).
  { destruct (judgment_of (fst res)) as [[llm_pass llm_notes]|]; cbn [merged fst snd].
    - split; [now destruct llm_pass|].
      destruct (nonempty llm_notes); [apply in_or_app; now left | assumption].
    - auto. }
  destruct Hv as [Hf Hn]. rewrite Hf.
  destruct (timeline st);
    cbn [fst snd review_passed review_notes set_timeline set_review_notes
           set_review_passed];
    (split; [reflexivity|]); eexists; (split; [reflexivity|]);
    now apply notes_text_holds.
Qed.

Lemma reviewer_flags_secrets_witness :
  let R := Fixtures.runtime_of [Responds Fixtures.pass_true] in
  let files := [("README.md", "run it"); (".env.example", "STRIPE_SECRET_KEY=sk")] in
  let st := set_code_files files (Fixtures.initial_state "webapp" "p") in
  let st' := fst (snd (node_review ["groq/llama3-70b-8192"] Fixtures.no_keys (st, []))) in
  review_passed st' = Some false
  /\ exists notes, review_notes st' = Some notes
                   /\ contains secret_note notes = true.
Proof.
  intros R files st.
  apply (reviewer_flags_secrets R st ["groq/llama3-70b-8192"] Fixtures.no_keys []
           files ".env.example" "STRIPE_SECRET_KEY=sk").
  - reflexivity.
  - right. left. reflexivity.
  - right. reflexivity.
Defined.

End ReviewCover.

(* ===================================================================== *)
(** ** More on the stages: what a stage calls and what it keeps *)
(* ===================================================================== *)

Module RunCover.
Import Py Eff Swarm StageFacts GraphFacts StageCover.

(** The chain [node_kwargs] gives a node. *)
Definition chain_of (chains : Chains) (n : Node) : list string :=
  match n with
  | Researcher => chain_research chains
  | Planner => chain_plan chains
  | Coder => chain_code chains
  | Designer => chain_design chains
  | Reviewer => chain_review chains
  end.

Section Run.
Context {R : Runtime}.
Variable chains : Chains.
Variable env : gmap string (option string).

(** The calls of one chain run: appended to the log, no more than the
    chain has models. *)
Lemma try_models_log chain msgs w r w' :
  _try_models_one_shot chain msgs env w = (r, w') ->
  exists ext, w' = (w ++ ext)%list /\ (List.length ext <= List.length chain)%nat.
Proof.
  intros H. pose proof (ChainCover.loop_outcome msgs env chain w None) as Hc.
  change (try_models_loop chain msgs env None w)
    with (_try_models_one_shot chain msgs env w) in Hc.
  rewrite H in Hc. destruct r as [e|[m out]].
  - destruct Hc as (_ & -> & _). eexists. split; [reflexivity|].
    unfold calls_for. now rewrite length_map.
  - destruct Hc as (pre & post & -> & _ & _ & ->). eexists. split; [reflexivity|].
    unfold calls_for. rewrite !length_app, length_map. cbn. lia.
Qed.

Ltac unfold_stage :=
  unfold node_research, node_plan, node_code, node_design, node_review,
    attempt, llm_judgment, timeline_append, assign, on_fst, on_snd, modify,
    bind, item, the_state, lift, ret, raise.

Ltac log_of_stage :=
  match goal with
  | H : _try_models_one_shot ?c _ _ _ = _ |- _ =>
      destruct (try_models_log _ _ _ _ _ H) as (ext & -> & Hlen);
      exists ext; split; [reflexivity | cbn [chain_of]; lia]
  | _ => exists []; split; [now rewrite app_nil_r | cbn; lia]
  end.

(** A stage runs its chain at most once. *)
Lemma run_node_log n st w r st' w' :
  run_node chains env n (st, w) = (r, (st', w')) ->
  exists ext, w' = (w ++ ext)%list
              /\ (List.length ext <= List.length (chain_of chains n))%nat.
Proof.
  destruct n; cbn [run_node]; unfold_stage; intros H; run_stage; log_of_stage.
Qed.

End Run.

Lemma next_node_same_request (n : Node) (st : SwarmState) :
  same_request st (snd (next_node n st)).
Proof.
  unfold same_request.
  destruct n; cbn [next_node snd]; auto 10.
  unfold route_after_review.
  destruct (negb _ && _); cbn; auto 10.
Qed.

Lemma same_request_trans (a b c : SwarmState) :
  same_request a b -> same_request b c -> same_request a c.
Proof. unfold same_request. intuition congruence. Qed.

Lemma stages_same_request {R : Runtime} (st st' : SwarmState) (k : nat) :
  stages_from st k st' -> same_request st st'.
Proof.
  induction 1 as [|k st1 chains env n w st2 w' _ IH Hn
                  |k st1 chains env n w e st2 w' _ IH Hn
                  |k st1 n _ IH].
  - repeat split.
  - exact (same_request_trans _ _ _ IH (run_node_same_request _ _ _ _ _ _ _ _ Hn)).
  - exact (same_request_trans _ _ _ IH (run_node_same_request _ _ _ _ _ _ _ _ Hn)).
  - exact (same_request_trans _ _ _ IH (next_node_same_request n st1)).
Qed.

(** X10. What a stage may call.  A stage execution, whether it returns
    or raises, leaves the log of earlier provider calls as it was and adds
    at most one call for each model of the chain it is given; with an
    empty chain it calls no provider. *)
Theorem stage_calls_bounded :
  forall (R : Runtime) (chains : Chains) (env : gmap string (option string))
         (n : Node) (st st' : SwarmState) (w w' : World) (r : Exn + unit),
    run_node chains env n (st, w) = (r, (st', w')) ->
    exists ext,
      w' = (w ++ ext)%list
      /\ (List.length ext <= List.length (chain_of chains n))%nat
      /\ (chain_of chains n = [] -> w' = w).
Proof.
  intros R chains env n st st' w w' r Hn.
  destruct (run_node_log chains env _ _ _ _ _ _ Hn) as (ext & Hw & Hlen).
  exists ext. repeat split; try assumption.
  intros Hc. rewrite Hc in Hlen. destruct ext; [|cbn in Hlen; lia].
  now rewrite app_nil_r in Hw.
Qed.

(** The Coder with a chain of two models of which the first fails. *)
Lemma stage_calls_bounded_witness :
  let R := Fixtures.runtime_of [Fails "Timeout()"; Responds Fixtures.noisy_files] in
  let chains := Fixtures.chains_of ["groq/llama3-70b-8192"; "ollama/llama3:8b"] in
  let st := Fixtures.initial_state "webapp" "a text file" in
  let w' := snd (snd (run_node chains Fixtures.no_keys Coder (st, []))) in
  exists ext,
    w' = ([] ++ ext)%list
    /\ (List.length ext <= List.length (chain_of chains Coder))%nat
    /\ (chain_of chains Coder = [] -> w' = []).
Proof.
  intros R chains st w'.
  apply (stage_calls_bounded R chains Fixtures.no_keys Coder st
           (fst (snd (run_node chains Fixtures.no_keys Coder (st, [])))) [] w'
           (fst (run_node chains Fixtures.no_keys Coder (st, [])))).
  vm_compute. reflexivity.
Defined.

(** X12. The request is never rewritten.  A stage execution, whether it
    returns or raises, leaves [project_id], [owner_id], [title], [kind],
    [prompt] and [max_iterations] as they were, and so does the routing
    after Reviewer; hence a state keeps them however many stages are run
    on it, in whatever order. *)
Theorem request_is_kept :
  (forall (R : Runtime) (chains : Chains) (env : gmap string (option string))
          (n : Node) (st st' : SwarmState) (w w' : World) (r : Exn + unit),
      run_node chains env n (st, w) = (r, (st', w')) -> same_request st st')
  /\
  (forall (n : Node) (st : SwarmState), same_request st (snd (next_node n st)))
  /\
  (forall (R : Runtime) (st st' : SwarmState) (k : nat),
      stages_from st k st' -> same_request st st').
Proof.
  split; [|split].
  - intros R chains env n st st' w w' r Hn.
    exact (run_node_same_request _ _ _ _ _ _ _ _ Hn).
  - exact next_node_same_request.
  - intros R st st' k. apply stages_same_request.
Qed.

(** The Planner on the state [generate] builds, then the routing of a
    failed review. *)
Lemma request_is_kept_witness :
  let R := Fixtures.runtime_always Fixtures.noisy_files in
  let chains := Fixtures.chains_of ["groq/llama3-70b-8192"] in
  let st := Fixtures.initial_state "webapp" "a text file" in
  let s1 := snd (run_node chains Fixtures.no_keys Planner (st, [])) in
  same_request st (snd (next_node Reviewer (fst s1))).
Proof.
  intros R chains st s1.
  apply (proj2 (proj2 request_is_kept) R st _ 1%nat).
  apply stages_routed.
  apply (stages_returned st 0 st chains Fixtures.no_keys Planner [] (fst s1) (snd s1));
    [apply stages_none | vm_compute; reflexivity].
Defined.

End RunCover.

(* ===================================================================== *)
(** ** More on the rate limiter *)
(* ===================================================================== *)

Module RateLimitCover.
Import Py RateLimit RateLimitFacts.

(** A sequence of [check] calls, each with its clock reading and key;
    returns the limiter they leave and the calls that were admitted, in
    order. *)
Fixpoint serve (self : InMemoryRateLimiter) (calls : list (Q * string))
  : InMemoryRateLimiter * list (Q * string) :=
  match calls with
  | [] => (self, [])
  | (now, key) :: rest =>
      let '(r, self') := check self now key in
      let '(final, admitted) := serve self' rest in
      (final, match r with
              | None => (now, key) :: admitted
              | Some _ => admitted
              end)
  end.

(** The clock readings of the calls of [key] in a list of calls. *)
Definition times_of (key : string) (calls : list (Q * string)) : list Q :=
  map fst (List.filter (fun c => String.eqb (snd c) key) calls).

(** [t] was already out of the window at clock reading [now]. *)
Definition expired (now window t : Q) : bool := negb (Qle_bool (now - t) window).

(** The calls of a sequence come with a clock that never goes back and
    starts no earlier than [t]. *)
Fixpoint clock_order (t : Q) (calls : list (Q * string)) : Prop :=
  match calls with
  | [] => True
  | (now, _) :: rest => (t <= now)%Q /\ clock_order now rest
  end.

(** The last clock reading of a sequence that starts at [t]. *)
Fixpoint last_reading (t : Q) (calls : list (Q * string)) : Q :=
  match calls with
  | [] => t
  | (now, _) :: rest => last_reading now rest
  end.

(** What links a limiter to the calls admitted so far: the deque of a key
    holds its admitted readings but for a front part that is expired. *)
Definition tracks (self : InMemoryRateLimiter) (t : Q)
    (admitted : list (Q * string)) : Prop :=
  bounded self
  /\ in_order t self
  /\ forall k, exists old,
       times_of k admitted = (old ++ default [] (hits self !! k))%list
       /\ forallb (expired t (window_sec self)) old = true.

Lemma expired_later (t now window x : Q) :
  (t <= now)%Q -> expired t window x = true -> expired now window x = true.
Proof.
  unfold expired. intros Hle H. apply negb_true_iff in H. apply negb_true_iff.
  destruct (Qle_bool (now - x) window) eqn:E; [|reflexivity].
  apply Qle_bool_iff in E.
  assert (Ht : Qle_bool (t - x) window = true) by (apply Qle_bool_iff; lra).
  congruence.
Qed.

(** What the eviction loop drops is expired. *)
Lemma evict_dropped (now window : Q) (q : list Q) :
  exists dropped,
    q = (dropped ++ evict now window q)%list
    /\ forallb (expired now window) dropped = true.
Proof.
  induction q as [|x q (d & Hd & He)]; cbn [evict].
  - now exists [].
  - destruct (negb (Qle_bool (now - x) window)) eqn:E.
    + exists (x :: d). cbn. unfold expired at 1. rewrite E, He.
      split; [now rewrite <- Hd | reflexivity].
    + now exists [].
Qed.

Lemma check_in_order (self : InMemoryRateLimiter) (t now : Q) (key : string) :
  in_order t self -> (t <= now)%Q -> in_order now (snd (check self now key)).
Proof.
  intros IH Hle.
  assert (Hup : forall q, Forall (fun x => (x <= t)%Q) q ->
                          Forall (fun x => (x <= now)%Q) q).
  { intros q Hq. eapply List.Forall_impl; [|exact Hq]. cbn. intros x Hx. lra. }
  set (q0 := default [] (hits self !! key)).
  assert (Hq0 : StronglySorted Qle q0 /\ Forall (fun x => (x <= t)%Q) q0).
  { subst q0. destruct (hits self !! key) as [q|] eqn:E; cbn.
    - now apply (IH key).
    - split; constructor. }
  destruct (evict_suffix now (window_sec self) q0) as [d Hd].
  assert (He : StronglySorted Qle (evict now (window_sec self) q0)
               /\ Forall (fun x => (x <= now)%Q) (evict now (window_sec self) q0)).
  { destruct Hq0 as [Hs Hf]. rewrite Hd in Hs, Hf. split.
    - now apply sorted_suffix in Hs.
    - apply Hup. now apply Forall_app in Hf as [_ Hf]. }
  unfold check. fold q0.
  destruct (Z.of_nat (List.length (evict now (window_sec self) q0)) >=? rpm self);
    intros k q Hk; cbn in Hk;
    (destruct (decide (key = k)) as [->|Hne];
     [rewrite lookup_insert_eq in Hk; inversion Hk; subst q
     |rewrite lookup_insert_ne in Hk by assumption;
      destruct (IH k q Hk) as [Hs Hf]; split; [assumption | now apply Hup]]).
  - exact He.
  - destruct He as [Hs Hf]. split.
    + now apply sorted_snoc.
    + apply Forall_app. split; [assumption|]. constructor; [lra | constructor].
Qed.

Lemma times_of_app (k : string) (a b : list (Q * string)) :
  times_of k (a ++ b)%list = (times_of k a ++ times_of k b)%list.
Proof. unfold times_of. now rewrite List.filter_app, map_app. Qed.

Lemma forallb_expired_later (t now window : Q) (l : list Q) :
  (t <= now)%Q -> forallb (expired t window) l = true ->
  forallb (expired now window) l = true.
Proof.
  intros Hle H. apply forallb_forall. intros x Hx.
  rewrite forallb_forall in H. apply (expired_later t); auto.
Qed.

(** One call keeps the link. *)
Lemma check_tracks (self : InMemoryRateLimiter) (t now : Q) (key : string)
    (admitted : list (Q * string)) :
  tracks self t admitted -> (t <= now)%Q ->
  tracks (snd (check self now key)) now
    (admitted ++ match fst (check self now key) with
                 | None => [(now, key)]
                 | Some _ => []
                 end)%list.
Proof.
  intros (Hb & Ho & Hold) Hle.
  split; [now apply check_bounded|]. split; [now apply (check_in_order self t)|].
  intros k. destruct (Hold k) as (old & Htimes & Hexp).
  apply (forallb_expired_later t now) in Hexp; [|assumption].
  unfold check.
  set (q0 := default [] (hits self !! key)).
  destruct (evict_dropped now (window_sec self) q0) as (dropped & Hq0 & Hdrop).
  destruct (Z.of_nat (List.length (evict now (window_sec self) q0)) >=? rpm self);
    cbn [fst snd hits window_sec]; rewrite times_of_app;
    (destruct (decide (key = k)) as [->|Hne];
     [rewrite lookup_insert_eq; cbn [default from_option id]
     |rewrite lookup_insert_ne by assumption]).
  - exists (old ++ dropped)%list. split.
    + unfold times_of at 2. cbn. rewrite app_nil_r, Htimes. fold q0.
      rewrite Hq0 at 1. now rewrite app_assoc.
    + rewrite forallb_app, Hexp, Hdrop. reflexivity.
  - exists old. split; [|assumption].
    unfold times_of at 2. cbn. now rewrite app_nil_r.
  - exists (old ++ dropped)%list. split.
    + unfold times_of at 2. cbn. rewrite String.eqb_refl. cbn.
      rewrite Htimes. fold q0. rewrite Hq0 at 1. now rewrite <- !app_assoc.
    + rewrite forallb_app, Hexp, Hdrop. reflexivity.
  - exists old. split; [|assumption].
    unfold times_of at 2. cbn.
    assert (E : String.eqb key k = false) by now apply String.eqb_neq.
    rewrite E. cbn. now rewrite app_nil_r.
Qed.

Lemma serve_tracks (calls : list (Q * string)) :
  forall (self : InMemoryRateLimiter) (t : Q) (admitted : list (Q * string)),
    tracks self t admitted -> clock_order t calls ->
    tracks (fst (serve self calls)) (last_reading t calls)
      (admitted ++ snd (serve self calls))%list.
Proof.
  induction calls as [|[now key] calls IH]; intros self t admitted Htr Hord.
  - cbn. now rewrite app_nil_r.
  - destruct Hord as [Hle Hord]. cbn [serve last_reading].
    pose proof (check_tracks self t now key admitted Htr Hle) as Hstep.
    destruct (check self now key) as [r self'] eqn:Hc. cbn [fst snd] in Hstep.
    specialize (IH self' now _ Hstep Hord).
    destruct (serve self' calls) as [final adm]. cbn [fst snd] in *.
    destruct r; [now rewrite app_nil_r in IH|].
    now rewrite <- app_assoc in IH.
Qed.

Lemma init_tracks (n : Z) (t : Q) : tracks (init n) t [].
Proof.
  split; [apply reachable_bounded, reach_init|].
  split; [apply (reachable_mono_in_order t), mono_init|].
  intros k. exists []. cbn. now rewrite lookup_empty.
Qed.

Lemma in_window_length (now window : Q) (old q : list Q) :
  forallb (expired now window) old = true ->
  (List.length (in_window now window (old ++ q)) <= List.length q)%nat.
Proof.
  intros Hexp. unfold in_window. rewrite List.filter_app, length_app.
  assert (Hold : List.filter (fun t => Qle_bool (now - t) window) old = []).
  { induction old as [|x old IH]; [reflexivity|]. cbn in *.
    apply andb_true_iff in Hexp as [Hx Hexp]. unfold expired in Hx.
    apply negb_true_iff in Hx. rewrite Hx. now apply IH. }
  rewrite Hold. cbn. apply List.filter_length_le.
Qed.

Lemma serve_config (calls : list (Q * string)) :
  forall self : InMemoryRateLimiter,
    rpm (fst (serve self calls)) = rpm self
    /\ window_sec (fst (serve self calls)) = window_sec self.
Proof.
  induction calls as [|[now key] calls IH]; intros self; [auto|].
  cbn [serve]. destruct (check self now key) as [r self'] eqn:Hc.
  specialize (IH self'). destruct (serve self' calls) as [final adm].
  cbn [fst] in *.
  assert (Hcfg : rpm self' = rpm self /\ window_sec self' = window_sec self).
  { unfold check in Hc. destruct (_ >=? _); inversion Hc; auto. }
  destruct IH, Hcfg. split; congruence.
Qed.

Lemma count_in_window (key : string) (now window : Q) (calls : list (Q * string)) :
  List.length (List.filter
                 (fun c => String.eqb (snd c) key && Qle_bool (now - fst c) window)
                 calls)
  = List.length (in_window now window (times_of key calls)).
Proof.
  unfold in_window, times_of.
  induction calls as [|[t k] calls IH]; [reflexivity|]. cbn.
  destruct (String.eqb k key); cbn; [|exact IH].
  destruct (Qle_bool (now - t) window); cbn; now rewrite IH.
Qed.

(** X13. The limit holds in every window.  Start from a new limiter and
    let any clients call [check] with a clock that never goes back.  Then
    at every clock reading [now] not earlier than the calls, the calls of
    one client that were admitted no more than 60 seconds before [now]
    number at most [max(1, rpm)]. *)
Theorem limiter_window_guarantee :
  forall (n : Z) (t0 : Q) (calls : list (Q * string)) (key : string) (now : Q),
    clock_order t0 calls ->
    (last_reading t0 calls <= now)%Q ->
    Z.of_nat (List.length
                (List.filter
                   (fun c => String.eqb (snd c) key && Qle_bool (now - fst c) 60)
                   (snd (serve (init n) calls))))
    <= Z.max 1 n.
Proof.
  intros n t0 calls key now Hord Hnow.
  pose proof (serve_tracks calls (init n) t0 [] (init_tracks n t0) Hord)
    as (Hb & _ & Hold).
  destruct (serve_config calls (init n)) as [Hrpm Hwin].
  cbn [app] in Hold. destruct (Hold key) as (old & Htimes & Hexp).
  apply (forallb_expired_later _ now) in Hexp; [|assumption].
  rewrite Hwin in Hexp. cbn [window_sec init] in Hexp.
  rewrite count_in_window, Htimes.
  pose proof (in_window_length now 60 old
                (default [] (hits (fst (serve (init n) calls)) !! key)) Hexp) as Hlen.
  destruct Hb as [_ Hall]. rewrite Hrpm in Hall. cbn [rpm init] in Hall.
  destruct (hits (fst (serve (init n) calls)) !! key) as [q|] eqn:E;
    cbn [default from_option id] in *.
  - specialize (Hall key q E). lia.
  - cbn in Hlen. lia.
Qed.

(** Three calls of one client to a limiter of two per minute, then a
    look at the window a little later. *)
Lemma limiter_window_guarantee_witness :
  Z.of_nat (List.length
              (List.filter
                 (fun c => String.eqb (snd c) "10.0.0.1" && Qle_bool (30 - fst c) 60)
                 (snd (serve (init 2)
                         [(0%Q, "10.0.0.1"); (1%Q, "10.0.0.1"); (2%Q, "10.0.0.1")]))))
  <= Z.max 1 2.
Proof.
  apply (limiter_window_guarantee 2 0%Q
           [(0%Q, "10.0.0.1"); (1%Q, "10.0.0.1"); (2%Q, "10.0.0.1")]
           "10.0.0.1" 30%Q).
  - cbn. repeat split; lra.
  - cbn. lra.
Defined.

(** X14. Clients do not affect each other, and nothing but the deque of
    the caller changes.  A [check] for one key leaves the deque of every
    other key, the cap and the window as they were. *)
Theorem limiter_keys_independent :
  forall (self : InMemoryRateLimiter) (now : Q) (key other : string),
    other <> key ->
    hits (snd (check self now key)) !! other = hits self !! other
    /\ rpm (snd (check self now key)) = rpm self
    /\ window_sec (snd (check self now key)) = window_sec self.
Proof.
  intros self now key other Hne. unfold check.
  destruct (_ >=? _); cbn; rewrite lookup_insert_ne by congruence; auto.
Qed.

Lemma limiter_keys_independent_witness :
  let self := snd (check (init 1) 0%Q "10.0.0.1") in
  hits (snd (check self 1%Q "10.0.0.2")) !! "10.0.0.1" = hits self !! "10.0.0.1"
  /\ rpm (snd (check self 1%Q "10.0.0.2")) = rpm self
  /\ window_sec (snd (check self 1%Q "10.0.0.2")) = window_sec self.
Proof.
  intros self.
  apply (limiter_keys_independent self 1%Q "10.0.0.2" "10.0.0.1").
  discriminate.
Defined.

(** X15. Memory per client is capped.  In a limiter built by the
    constructor and used through [check], the cap is at least 1 and no
    client has more than [rpm] timestamps on record. *)
Theorem limiter_deques_capped :
  forall (self : InMemoryRateLimiter) (key : string) (q : list Q),
    reachable self ->
    hits self !! key = Some q ->
    1 <= rpm self /\ Z.of_nat (List.length q) <= rpm self.
Proof.
  intros self key q Hreach Hq.
  destruct (reachable_bounded self Hreach) as [Hrpm Hall]. eauto.
Qed.

Lemma limiter_deques_capped_witness :
  let self := snd (check (snd (check (snd (check (init 2) 0%Q "10.0.0.1"))
                                 1%Q "10.0.0.1")) 2%Q "10.0.0.1") in
  1 <= rpm self /\ Z.of_nat (List.length [0%Q; 1%Q]) <= rpm self.
Proof.
  intros self.
  apply (limiter_deques_capped self "10.0.0.1" [0%Q; 1%Q]).
  - apply reach_check, reach_check, reach_check, reach_init.
  - vm_compute. reflexivity.
Defined.

(** X16. A refused client gets in again.  In a limiter built by the
    constructor and used through [check], a call is admitted as soon as the
    oldest timestamp on record for its key is more than the window old. *)
Theorem limiter_recovers :
  forall (self : InMemoryRateLimiter) (now : Q) (key : string)
         (oldest : Q) (rest : list Q),
    reachable self ->
    hits self !! key = Some (oldest :: rest) ->
    expired now (window_sec self) oldest = true ->
    fst (check self now key) = None.
Proof.
  intros self now key oldest rest Hreach Hq Hexp.
  destruct (reachable_bounded self Hreach) as [Hrpm Hall].
  specialize (Hall key _ Hq). cbn [List.length] in Hall.
  unfold check. rewrite Hq. cbn [default from_option id evict].
  unfold expired in Hexp. rewrite Hexp.
  pose proof (evict_length now (window_sec self) rest) as Hlen.
  destruct (Z.geb_spec (Z.of_nat (List.length (evict now (window_sec self) rest)))
              (rpm self)); [lia | reflexivity].
Qed.

Lemma limiter_recovers_witness :
  let self := snd (check (init 1) 0%Q "10.0.0.1") in
  fst (check self 61%Q "10.0.0.1") = None.
Proof.
  intros self.
  apply (limiter_recovers self 61%Q "10.0.0.1" 0%Q []).
  - apply reach_check, reach_init.
  - vm_compute. reflexivity.
  - vm_compute. reflexivity.
Defined.

(** X17. A cap below one counts as one.  Whatever [rpm] the constructor
    is given, the first call of a client is admitted; when [rpm] is 1 or
    less, a second call of that client within the window is refused. *)
Theorem limiter_floor_of_one :
  forall (n : Z) (now now' : Q) (key : string),
    fst (check (init n) now key) = None
    /\ (n <= 1 ->
        Qle_bool (now' - now) 60 = true ->
        exists e, fst (check (snd (check (init n) now key)) now' key) = Some e
                  /\ status_code e = 429).
Proof.
  intros n now now' key. unfold check at 1 3. cbn [hits init rpm window_sec].
  rewrite lookup_empty. cbn [default from_option id evict List.length].
  destruct (Z.geb_spec (Z.of_nat 0) (Z.max 1 n)); [lia|].
  split; [reflexivity|]. intros Hn Hin. cbn [snd fst].
  unfold check. cbn [hits rpm window_sec]. rewrite lookup_insert_eq.
  cbn [default from_option id evict app]. rewrite Hin. cbn [negb List.length].
  destruct (Z.geb_spec (Z.of_nat 1) (Z.max 1 n)); [|lia].
  cbn. eauto.
Qed.

Lemma limiter_floor_of_one_witness :
  fst (check (init 0) 5%Q "10.0.0.1") = None
  /\ exists e, fst (check (snd (check (init 0) 5%Q "10.0.0.1")) 6%Q "10.0.0.1") = Some e
               /\ status_code e = 429.
Proof.
  destruct (limiter_floor_of_one 0 5%Q 6%Q "10.0.0.1") as [H1 H2].
  split; [exact H1 | apply H2; [lia | reflexivity]].
Defined.

End RateLimitCover.

(* ===================================================================== *)
(** ** The project files: [_validate_files_payload] of [main.py] and
       [make_zip_bytes] of [utils/zipper.py] *)
(* ===================================================================== *)

Module Files.
Import Py RateLimit.

Definition MAX_FILE_BYTES : Z := 250000.
Definition MAX_TOTAL_BYTES : Z := 2000000.

(** [len(s)], and [len(s.encode("utf-8"))] for text of one byte per
    character. *)
Definition len (s : string) : Z := Z.of_nat (String.length s).

Definition bad_request (detail : string) : HTTPException := mkHTTP 400 detail.

(** The [for k, v in files.items()] loop of [_validate_files_payload],
    entered with [total] and [cleaned] as they stand. *)
Fixpoint validate_loop (items : list (string * pyval)) (total : Z)
    (cleaned : dict string) : HTTPException + (Z * dict string) :=
  match items with
  | [] => inr (total, cleaned)
  | (k, v) :: rest =>
      match v with
      | PStr content =>
          if (len k >? 300) || contains ".." k || startswith "/" k
          then inl (bad_request ("Invalid path: " ++ k))
          else
            let b := len content in
            if b >? MAX_FILE_BYTES
            then inl (bad_request ("File too large: " ++ k))
            else validate_loop rest (total + b) (dict_set k content cleaned)
      | _ => inl (bad_request "files keys/values must be strings")
      end
  end.

(** [_validate_files_payload(files)], [files] being what the request
    body holds under "files". *)
Definition _validate_files_payload (files : pyval) : HTTPException + dict string :=
  match files with
  | PDict d =>
      match validate_loop d 0 [] with
      | inl e => inl e
      | inr (total, cleaned) =>
          if total >? MAX_TOTAL_BYTES
          then inl (bad_request "Total files payload too large")
          else inr cleaned
      end
  | _ => inl (bad_request "files must be an object {path: content}")
  end.

(** [s.lstrip(chars)] *)
Fixpoint lstrip_chars (chars s : string) : string :=
  match s with
  | EmptyString => EmptyString
  | String c r =>
      if contains (String c EmptyString) chars then lstrip_chars chars r else s
  end.

(** [s.replace(old, new)] for a non-empty [old]: the occurrences of [old]
    are taken from the left and do not overlap.  [skip] counts the
    characters of a matched [old] that are still to be passed over. *)
Fixpoint replace_go (old new s : string) (skip : nat) : string :=
  match s with
  | EmptyString => EmptyString
  | String c r =>
      match skip with
      | S k => replace_go old new r k
      | O =>
          if String.prefix old s
          then new ++ replace_go old new r (String.length old - 1)
          else String c (replace_go old new r 0)
      end
  end.

(** [s.replace(old, new)]; with an empty [old], [new] goes before every
    character and at the end. *)
Definition replace (old new s : string) : string :=
  match old with
  | EmptyString =>
      (fix between (t : string) : string :=
         match t with
         | EmptyString => new
         | String c r => new ++ String c (between r)
         end) s
  | _ => replace_go old new s 0
  end.

(** The name under which [make_zip_bytes] stores a path. *)
Definition safe_path (path : string) : string :=
  replace ".." "_" (lstrip_chars "/" path).

(** The [writestr] calls of [make_zip_bytes], in order: name and content.
    The archive bytes themselves are made by [zipfile]. *)
Definition zip_entries (files : dict string) : list (string * string) :=
  map (fun f => (safe_path (fst f), snd f)) files.

(** A path that [_validate_files_payload] lets through. *)
Definition path_ok (k : string) : bool :=
  negb ((len k >? 300) || contains ".." k || startswith "/" k).

(** The bytes of a set of files. *)
Definition total_bytes (files : dict string) : Z :=
  fold_right (fun f acc => len (snd f) + acc) 0 files.

(** An entry of the request that passes the checks made on it alone. *)
Definition entry_ok (kv : string * pyval) : bool :=
  match snd kv with
  | PStr content => path_ok (fst kv) && (len content <=? MAX_FILE_BYTES)
  | _ => false
  end.

(** The bytes the loop counts. *)
Definition counted_bytes (items : list (string * pyval)) : Z :=
  fold_right (fun kv acc =>
                match snd kv with PStr content => len content + acc | _ => acc end)
    0 items.

End Files.

Module FilesFacts.
Import Py RateLimit Files.

Local Arguments String.append !_ _ / : simpl nomatch.

Example validate_ok :
  _validate_files_payload
    (PDict [("README.md", PStr "hi"); ("src/app.py", PStr "print(1)")])
  = inr [("README.md", "hi"); ("src/app.py", "print(1)")].
Proof. reflexivity. Qed.

Example validate_dotdot :
  _validate_files_payload (PDict [("../etc/passwd", PStr "x")])
  = inl (bad_request "Invalid path: ../etc/passwd").
Proof. reflexivity. Qed.

Example safe_path_examples :
  safe_path "//a/../b" = "a/_/b" /\ safe_path "...." = "__"
  /\ safe_path "..." = "_." /\ safe_path "a/b.txt" = "a/b.txt".
Proof. repeat split. Qed.

(** [sub in s], one character further. *)
Lemma contains_cons (sub : string) (c : ascii) (r : string) :
  contains sub (String c r) = String.prefix sub (String c r) || contains sub r.
Proof.
  unfold contains, find. cbn [find_from].
  destruct (String.prefix sub (String c r)); [reflexivity|]. cbn [orb].
  destruct (Z.eqb_spec (find_from sub r (0 + 1)) (-1)) as [E1|E1];
    destruct (Z.eqb_spec (find_from sub r 0) (-1)) as [E0|E0]; try reflexivity.
  - destruct (ReviewCover.find_from_inv _ _ _ E0) as (pre & post & ->).
    now destruct (ReviewCover.find_from_occurrence sub pre post (0 + 1) ltac:(lia)).
  - destruct (ReviewCover.find_from_inv _ _ _ E1) as (pre & post & ->).
    now destruct (ReviewCover.find_from_occurrence sub pre post 0 ltac:(lia)).
Qed.

Lemma len_nonneg (s : string) : 0 <= len s.
Proof. unfold len. lia. Qed.

(** What the loop stores for an entry. *)
Definition set_entry (cleaned : dict string) (kv : string * pyval) : dict string :=
  match snd kv with
  | PStr content => dict_set (fst kv) content cleaned
  | _ => cleaned
  end.

Lemma entry_ok_checks (k content : string) :
  entry_ok (k, PStr content) = true ->
  (len k >? 300) || contains ".." k || startswith "/" k = false
  /\ (len content >? MAX_FILE_BYTES) = false.
Proof.
  unfold entry_ok, path_ok. cbn [fst snd]. intros H.
  apply andb_true_iff in H as [Hp Hs]. apply negb_true_iff in Hp.
  split; [assumption|]. apply Z.leb_le in Hs.
  destruct (Z.gtb_spec (len content) MAX_FILE_BYTES); [lia | reflexivity].
Qed.

Lemma loop_accepts (items : list (string * pyval)) :
  forall (total : Z) (cleaned : dict string),
    forallb entry_ok items = true ->
    validate_loop items total cleaned
    = inr (total + counted_bytes items, fold_left set_entry items cleaned).
Proof.
  induction items as [|[k v] items IH]; intros total cleaned H.
  - cbn. now rewrite Z.add_0_r.
  - cbn [forallb] in H. apply andb_true_iff in H as [Hkv H].
    destruct v; try discriminate.
    destruct (entry_ok_checks _ _ Hkv) as [Hp Hs].
    cbn [validate_loop fold_left counted_bytes fold_right snd fst].
    rewrite Hp, Hs, (IH _ _ H). unfold set_entry at 2. cbn [fst snd].
    f_equal. f_equal. fold (counted_bytes items). lia.
Qed.

Lemma loop_rejects (items : list (string * pyval)) :
  forall (total : Z) (cleaned : dict string),
    forallb entry_ok items = false ->
    exists e, validate_loop items total cleaned = inl e /\ status_code e = 400.
Proof.
  induction items as [|[k v] items IH]; intros total cleaned H; [discriminate|].
  cbn [forallb] in H. cbn [validate_loop].
  destruct v; try (eexists; split; reflexivity).
  destruct ((len k >? 300) || contains ".." k || startswith "/" k) eqn:Hp;
    [eexists; split; reflexivity|].
  destruct (len s >? MAX_FILE_BYTES) eqn:Hs; [eexists; split; reflexivity|].
  apply IH. unfold entry_ok, path_ok in H. cbn [fst snd] in H.
  rewrite Hp in H. cbn [negb andb] in H.
  destruct (Z.leb_spec (len s) MAX_FILE_BYTES); [exact H|].
  destruct (Z.gtb_spec (len s) MAX_FILE_BYTES); [discriminate | lia].
Qed.

Lemma dict_set_In {V} (k k' : string) (v v' : V) (d : dict V) :
  In (k', v') (dict_set k v d) -> (k' = k /\ v' = v) \/ In (k', v') d.
Proof.
  induction d as [|[k2 v2] d IH]; cbn.
  - intros [E | []]. inversion E. auto.
  - destruct (String.eqb k k2) eqn:E; cbn.
    + apply String.eqb_eq in E. subst k2.
      intros [H | H]; [inversion H; auto | auto].
    + intros [H | H]; [auto | destruct (IH H); auto].
Qed.

Lemma dict_set_bytes (k v : string) (d : dict string) :
  total_bytes (dict_set k v d) <= total_bytes d + len v.
Proof.
  unfold total_bytes.
  induction d as [|[k2 v2] d IH]; cbn [dict_set fold_right snd].
  - lia.
  - pose proof (len_nonneg v2).
    destruct (String.eqb k k2); cbn [fold_right snd]; lia.
Qed.

Lemma fold_set_entry (items : list (string * pyval)) :
  forall cleaned : dict string,
    (forall k v, In (k, v) (fold_left set_entry items cleaned) ->
                 In (k, v) cleaned \/ In (k, PStr v) items)
    /\ total_bytes (fold_left set_entry items cleaned)
       <= total_bytes cleaned + counted_bytes items.
Proof.
  induction items as [|[k0 v0] items IH]; intros cleaned; cbn [fold_left].
  - split; [auto | cbn; lia].
  - assert (Hcase : (exists content, v0 = PStr content)
                    \/ (set_entry cleaned (k0, v0) = cleaned
                        /\ counted_bytes ((k0, v0) :: items) = counted_bytes items
                        /\ forall v, v0 <> PStr v)).
    { destruct v0; try (right; repeat split; discriminate). left. eauto. }
    destruct Hcase as [[content ->] | (Hset & Hcount & Hne)].
    + change (set_entry cleaned (k0, PStr content)) with (dict_set k0 content cleaned).
      destruct (IH (dict_set k0 content cleaned)) as [Hin Hb]. split.
      * intros k v H. destruct (Hin k v H) as [H1 | H1]; [|right; now right].
        destruct (dict_set_In _ _ _ _ _ H1) as [[-> ->] | H2];
          [right; now left | auto].
      * pose proof (dict_set_bytes k0 content cleaned).
        change (counted_bytes ((k0, PStr content) :: items))
          with (len content + counted_bytes items). lia.
    + rewrite Hset, Hcount. destruct (IH cleaned) as [Hin Hb]. split; [|exact Hb].
      intros k v H. destruct (Hin k v H); [auto | right; now right].
Qed.

Lemma gtb_false (a b : Z) : (a >? b) = false <-> a <= b.
Proof. destruct (Z.gtb_spec a b); split; intros; try lia; congruence. Qed.

(** X18. What the files endpoint accepts.  A "files" value that is not an
    object is refused; an object is accepted exactly when every value is a
    string of at most 250000 bytes under a path of at most 300 characters
    that holds no ".." and does not start with "/", and the values make at
    most 2000000 bytes together; every refusal is a 400.  What is
    returned holds only entries of the request, each with such a path and
    such a size, and no more than 2000000 bytes in all. *)
Theorem validate_files_payload_accepts :
  (forall d : list (string * pyval),
      (exists cleaned, _validate_files_payload (PDict d) = inr cleaned)
      <-> (forallb entry_ok d = true /\ counted_bytes d <= MAX_TOTAL_BYTES))
  /\
  (forall (files : pyval) (e : HTTPException),
      _validate_files_payload files = inl e -> status_code e = 400)
  /\
  (forall (files : pyval) (cleaned : dict string),
      _validate_files_payload files = inr cleaned ->
      exists d,
        files = PDict d
        /\ (forall k v, In (k, v) cleaned ->
              In (k, PStr v) d /\ path_ok k = true /\ len v <= MAX_FILE_BYTES)
        /\ total_bytes cleaned <= MAX_TOTAL_BYTES).
Proof.
  split; [|split].
  - intros d. unfold _validate_files_payload. split.
    + intros [cleaned H].
      destruct (forallb entry_ok d) eqn:Hok.
      * rewrite (loop_accepts d 0 [] Hok), Z.add_0_l in H.
        destruct (counted_bytes d >? MAX_TOTAL_BYTES) eqn:E; [discriminate|].
        apply gtb_false in E. auto.
      * destruct (loop_rejects d 0 [] Hok) as (e & He & _). now rewrite He in H.
    + intros [Hok Hb]. rewrite (loop_accepts d 0 [] Hok), Z.add_0_l.
      apply gtb_false in Hb. rewrite Hb. eauto.
  - intros files e. unfold _validate_files_payload.
    destruct files; try (intros H; inversion H; reflexivity).
    destruct (forallb entry_ok d) eqn:Hok.
    + rewrite (loop_accepts d 0 [] Hok).
      destruct (_ >? _); intros H; inversion H; reflexivity.
    + destruct (loop_rejects d 0 [] Hok) as (e' & He & Hs). rewrite He.
      intros H; inversion H; subst. exact Hs.
  - intros files cleaned. unfold _validate_files_payload.
    destruct files; try discriminate.
    destruct (forallb entry_ok d) eqn:Hok.
    + rewrite (loop_accepts d 0 [] Hok), Z.add_0_l.
      destruct (counted_bytes d >? MAX_TOTAL_BYTES) eqn:E; [discriminate|].
      apply gtb_false in E.
      intros H; inversion H; subst cleaned. clear H.
      destruct (fold_set_entry d []) as [Hin Hb].
      exists d. split; [reflexivity|]. split.
      * intros k v Hkv. destruct (Hin k v Hkv) as [[] | Hd].
        split; [assumption|].
        rewrite forallb_forall in Hok. specialize (Hok _ Hd).
        unfold entry_ok in Hok. cbn [fst snd] in Hok.
        apply andb_true_iff in Hok as [Hp Hs]. apply Z.leb_le in Hs. auto.
      * cbn in Hb. lia.
    + destruct (loop_rejects d 0 [] Hok) as (e' & He & _). now rewrite He.
Qed.

Lemma validate_files_payload_accepts_witness :
  exists d,
    PDict [("README.md", PStr "hi")] = PDict d
    /\ (forall k v, In (k, v) [("README.md", "hi")] ->
          In (k, PStr v) d /\ path_ok k = true /\ len v <= MAX_FILE_BYTES)
    /\ total_bytes [("README.md", "hi")] <= MAX_TOTAL_BYTES.
Proof.
  apply (proj2 (proj2 validate_files_payload_accepts)
           (PDict [("README.md", PStr "hi")]) [("README.md", "hi")]).
  reflexivity.
Defined.

(** [".." ] matches at the head of a text exactly when the text
    starts with two dots. *)
Lemma prefix_dotdot (c : ascii) (r : string) :
  String.prefix ".." (String c r)
  = Ascii.eqb c "."%char && String.prefix "." r.
Proof.
  change (String.prefix ".." (String c r))
    with (if ascii_dec "."%char c then String.prefix "." r else false).
  destruct (ascii_dec "."%char c) as [<-|Hne]; [reflexivity|].
  symmetry. apply andb_false_iff. left. apply Ascii.eqb_neq. congruence.
Qed.

(** The replacement of ".." by "_", one match on. *)
Lemma replace_dotdot_match (r : string) :
  replace_go ".." "_" (String "."%char (String "."%char r)) 0
  = String "_"%char (replace_go ".." "_" r 0).
Proof. cbn. destruct r; reflexivity. Qed.

Lemma replace_dotdot_keep (c : ascii) (r : string) :
  String.prefix ".." (String c r) = false ->
  replace_go ".." "_" (String c r) 0 = String c (replace_go ".." "_" r 0).
Proof. intros H. cbn [replace_go]. now rewrite H. Qed.

(** A result that starts with a dot comes from a text that does. *)
Lemma replace_dotdot_head (s : string) :
  String.prefix "." (replace_go ".." "_" s 0) = true -> String.prefix "." s = true.
Proof.
  destruct s as [|c r]; [intros H; exact H|].
  destruct (String.prefix ".." (String c r)) eqn:E.
  - rewrite prefix_dotdot in E. apply andb_true_iff in E as [Ec Er].
    apply Ascii.eqb_eq in Ec. subst c.
    destruct r as [|c2 r]; [discriminate|].
    rewrite StringFacts.prefix_char in Er. apply Ascii.eqb_eq in Er. subst c2.
    rewrite replace_dotdot_match. discriminate.
  - rewrite (replace_dotdot_keep _ _ E). rewrite !StringFacts.prefix_char. auto.
Qed.

(** After the replacement no ".." is left. *)
Lemma replace_dotdot_clean (s : string) :
  contains ".." (replace_go ".." "_" s 0) = false
  /\ forall c, contains ".." (replace_go ".." "_" (String c s) 0) = false.
Proof.
  induction s as [|a s [IH1 IH2]].
  - split; [reflexivity|]. intros c.
    assert (E : String.prefix ".." (String c EmptyString) = false).
    { rewrite prefix_dotdot. apply andb_false_r. }
    rewrite (replace_dotdot_keep _ _ E). cbn [replace_go].
    rewrite contains_cons, E. reflexivity.
  - split; [apply IH2|]. intros c.
    destruct (String.prefix ".." (String c (String a s))) eqn:E.
    + rewrite prefix_dotdot in E. apply andb_true_iff in E as [Ec Ea].
      apply Ascii.eqb_eq in Ec. subst c.
      rewrite StringFacts.prefix_char in Ea. apply Ascii.eqb_eq in Ea. subst a.
      rewrite replace_dotdot_match, contains_cons, IH1. reflexivity.
    + rewrite (replace_dotdot_keep _ _ E), contains_cons, (IH2 a), orb_false_r.
      rewrite prefix_dotdot in *.
      destruct (Ascii.eqb c "."%char); [|reflexivity]. cbn [andb] in *.
      destruct (String.prefix "." (replace_go ".." "_" (String a s) 0)) eqn:Hp;
        [|reflexivity].
      apply replace_dotdot_head in Hp. congruence.
Qed.

(** Stripping the slashes leaves no slash in front. *)
Lemma lstrip_slash_head (s : string) :
  startswith "/" (lstrip_chars "/" s) = false.
Proof.
  induction s as [|c r IH]; [reflexivity|]. cbn [lstrip_chars].
  assert (Hc : contains (String c EmptyString) "/" = Ascii.eqb "/"%char c).
  { unfold contains, find. cbn [find_from].
    rewrite StringFacts.prefix_char. destruct (Ascii.eqb "/"%char c); reflexivity. }
  rewrite Hc. destruct (Ascii.eqb "/"%char c) eqn:E; [exact IH|].
  unfold startswith. rewrite StringFacts.prefix_char.
  rewrite Ascii.eqb_sym. exact E.
Qed.

Lemma lstrip_slash_id (s : string) :
  startswith "/" s = false -> lstrip_chars "/" s = s.
Proof.
  destruct s as [|c r]; [reflexivity|]. unfold startswith.
  rewrite StringFacts.prefix_char. intros E. cbn [lstrip_chars].
  assert (Hc : contains (String c EmptyString) "/" = Ascii.eqb "/"%char c).
  { unfold contains, find. cbn [find_from].
    rewrite StringFacts.prefix_char. destruct (Ascii.eqb "/"%char c); reflexivity. }
  rewrite Hc, Ascii.eqb_sym, E. reflexivity.
Qed.

(** A text without ".." is left as it is. *)
Lemma replace_dotdot_id (s : string) :
  contains ".." s = false -> replace_go ".." "_" s 0 = s.
Proof.
  induction s as [|c r IH]; [reflexivity|].
  rewrite contains_cons. intros H. apply orb_false_iff in H as [Hp Hr].
  rewrite (replace_dotdot_keep _ _ Hp), (IH Hr). reflexivity.
Qed.

Lemma replace_dotdot_slash (s : string) :
  startswith "/" s = false ->
  startswith "/" (replace_go ".." "_" s 0) = false.
Proof.
  destruct s as [|c r]; [auto|]. unfold startswith. intros H.
  destruct (String.prefix ".." (String c r)) eqn:E.
  - rewrite prefix_dotdot in E. apply andb_true_iff in E as [Ec Er].
    apply Ascii.eqb_eq in Ec. subst c.
    destruct r as [|c2 r]; [discriminate|].
    rewrite StringFacts.prefix_char in Er. apply Ascii.eqb_eq in Er. subst c2.
    rewrite replace_dotdot_match. reflexivity.
  - rewrite (replace_dotdot_keep _ _ E). rewrite StringFacts.prefix_char in *.
    exact H.
Qed.

(** X19. Names in the archive cannot climb out.  Whatever the paths of
    [files] are, no name that [make_zip_bytes] writes starts with "/" or
    holds "..", and each name goes with the content of its path.  A path
    that [_validate_files_payload] accepts is written under its own
    name. *)
Theorem zip_names_are_safe :
  (forall (files : dict string) (name content : string),
      In (name, content) (zip_entries files) ->
      startswith "/" name = false
      /\ contains ".." name = false
      /\ exists path, In (path, content) files /\ name = safe_path path)
  /\
  (forall path : string, path_ok path = true -> safe_path path = path).
Proof.
  split.
  - intros files name content Hin. unfold zip_entries in Hin.
    apply in_map_iff in Hin as ([path c] & E & Hin). cbn [fst snd] in E.
    inversion E; subst. repeat split.
    + unfold safe_path, replace.
      apply replace_dotdot_slash, lstrip_slash_head.
    + unfold safe_path, replace. apply replace_dotdot_clean.
    + eauto.
  - intros path H. unfold path_ok in H. apply negb_true_iff in H.
    apply orb_false_iff in H as [H Hslash]. apply orb_false_iff in H as [_ Hdots].
    unfold safe_path, replace. rewrite (lstrip_slash_id _ Hslash).
    now apply replace_dotdot_id.
Qed.

Lemma zip_names_are_safe_witness :
  startswith "/" "a/_/b" = false
  /\ contains ".." "a/_/b" = false
  /\ exists path, In (path, "x") [("//a/../b", "x")] /\ "a/_/b" = safe_path path.
Proof.
  apply (proj1 zip_names_are_safe [("//a/../b", "x")] "a/_/b" "x").
  left. reflexivity.
Defined.

End FilesFacts.

(* ===================================================================== *)
(** ** [QuantumLattice] and the routing of [HybridSwarm] in [app.py] *)
(* ===================================================================== *)

Module Lattice.
Import Py.

Local Open Scope Q_scope.

(** Cell values are rationals: Python floats without their rounding. *)
Record QuantumLattice : Type := mkLattice {
  nodes : Z;
  dimensions : Z;
  state : list (list Q);
  history : list (list (list Q))
}.

Inductive LatticeError : Type := IndexError | ZeroDivisionError.

(** [QuantumLattice(nodes, dimensions)] *)
Definition init (nodes dimensions : Z) : QuantumLattice :=
  mkLattice nodes dimensions
    (repeat (repeat 0 (Z.to_nat dimensions)) (Z.to_nat nodes)) [].

(** [min(a, b)] and [max(a, b)] as Python computes them: the first
    argument unless the second is strictly smaller (larger). *)
Definition py_min (a b : Q) : Q := if Qle_bool a b then a else b.
Definition py_max (a b : Q) : Q := if Qle_bool b a then a else b.

(** [max(lo, min(hi, v))] *)
Definition clamp (lo hi v : Q) : Q := py_max lo (py_min hi v).

(** [st[i][d]] for indices that are not negative. *)
Definition get2 (st : list (list Q)) (i d : nat) : LatticeError + Q :=
  match st !! i with
  | Some row =>
      match row !! d with
      | Some v => inr v
      | None => inl IndexError
      end
  | None => inl IndexError
  end.

(** [st[i][d] = v] for indices that are not negative. *)
Definition set2 (st : list (list Q)) (i d : nat) (v : Q)
  : LatticeError + list (list Q) :=
  match st !! i with
  | Some row =>
      if (d <? List.length row)%nat
      then inr (<[i := <[d := v]> row]> st)
      else inl IndexError
  | None => inl IndexError
  end.

(** [excite(index, amplitude, dimension)] *)
Definition excite (self : QuantumLattice) (index : Z) (amplitude : Q)
    (dimension : Z) : LatticeError + QuantumLattice :=
  if ((0 <=? index) && (index <? nodes self)
      && (0 <=? dimension) && (dimension <? dimensions self))%Z
  then
    let i := Z.to_nat index in
    let d := Z.to_nat dimension in
    match get2 (state self) i d with
    | inl e => inl e
    | inr v =>
        match set2 (state self) i d (v + amplitude) with
        | inl e => inl e
        | inr st1 =>
            match get2 st1 i d with
            | inl e => inl e
            | inr v1 =>
                match set2 st1 i d (clamp (-10) 10 v1) with
                | inl e => inl e
                | inr st2 =>
                    inr (mkLattice (nodes self) (dimensions self) st2 (history self))
                end
            end
        end
    end
  else inr self.

(** The body of the inner loop of [propagate] at [i], [d]. *)
Definition propagate_cell (self : QuantumLattice) (damping : Q)
    (new_state : list (list Q)) (i d : nat) : LatticeError + list (list Q) :=
  let n := nodes self in
  match get2 (state self) (Z.to_nat ((Z.of_nat i - 1) mod n)) d with
  | inl e => inl e
  | inr left_ =>
      match get2 (state self) (Z.to_nat ((Z.of_nat i + 1) mod n)) d with
      | inl e => inl e
      | inr right_ =>
          match get2 (state self) i d with
          | inl e => inl e
          | inr current =>
              set2 new_state i d
                ((current * (4 # 10) + left_ * (3 # 10) + right_ * (3 # 10)) * damping)
          end
      end
  end.

(** A [for x in range(...)] loop over a state that may raise. *)
Fixpoint for_each (body : list (list Q) -> nat -> LatticeError + list (list Q))
    (indices : list nat) (st : list (list Q)) : LatticeError + list (list Q) :=
  match indices with
  | [] => inr st
  | x :: rest =>
      match body st x with
      | inl e => inl e
      | inr st' => for_each body rest st'
      end
  end.

(** [propagate(damping)] *)
Definition propagate (self : QuantumLattice) (damping : Q)
  : LatticeError + QuantumLattice :=
  let rows := seq 0 (Z.to_nat (nodes self)) in
  let cols := seq 0 (Z.to_nat (dimensions self)) in
  match for_each
          (fun st i => for_each (fun st' d => propagate_cell self damping st' i d) cols st)
          rows (state self) with
  | inl e => inl e
  | inr new_state =>
      let h := (history self ++ [new_state])%list in
      let h := if (100 <? List.length h)%nat then tl h else h in
      inr (mkLattice (nodes self) (dimensions self) new_state h)
  end.

(** [sum(sum(abs(v) for v in node) for node in state)] *)
Definition total_abs (st : list (list Q)) : Q :=
  fold_right (fun row acc => fold_right (fun v a => Qabs v + a) 0 row + acc) 0 st.

(** [get_energy()]; the division raises when there are no cells. *)
Definition get_energy (self : QuantumLattice) : LatticeError + Q :=
  let denom := inject_Z (nodes self * dimensions self) * 10 in
  if Qeq_bool denom 0 then inl ZeroDivisionError
  else inr (clamp 0 1 (total_abs (state self) / denom)).

(** [HybridSwarm._route(user_tier, swarm_mode)] *)
Definition _route (lattice : QuantumLattice) (user_tier swarm_mode : string)
  : LatticeError + string :=
  if String.eqb user_tier "free" then inr "gemini"%string
  else if String.eqb swarm_mode "quality" then inr "swarm"%string
  else
    match get_energy lattice with
    | inl e => inl e
    | inr energy =>
        if negb (Qle_bool energy (7 # 10)) then inr "groq"%string
        else if negb (Qle_bool (3 # 10) energy) then inr "openrouter"%string
        else inr "gemini"%string
    end.

End Lattice.

Module LatticeFacts.
Import Py Lattice.

Local Open Scope Q_scope.

(** A state of [n] rows of [m] cells. *)
Definition shaped (n m : nat) (st : list (list Q)) : Prop :=
  List.length st = n /\ Forall (fun row => List.length row = m) st.

(** A lattice whose state has the shape its two sizes announce and whose
    history is within its cap. *)
Definition well_formed (self : QuantumLattice) : Prop :=
  shaped (Z.to_nat (nodes self)) (Z.to_nat (dimensions self)) (state self)
  /\ (List.length (history self) <= 100)%nat.

(** The lattices a process can hold: built by the constructor, then
    excited and propagated. *)
Inductive reachable : QuantumLattice -> Prop :=
| reach_init (n m : Z) : reachable (init n m)
| reach_excite (self self' : QuantumLattice) (index : Z) (amplitude : Q) (dimension : Z) :
    reachable self -> excite self index amplitude dimension = inr self' ->
    reachable self'
| reach_propagate (self self' : QuantumLattice) (damping : Q) :
    reachable self -> propagate self damping = inr self' -> reachable self'.

Lemma clamp_range (lo hi v : Q) :
  lo <= hi -> lo <= clamp lo hi v /\ clamp lo hi v <= hi.
Proof.
  intros H. unfold clamp, py_max, py_min.
  destruct (Qle_bool hi v) eqn:E1.
  - destruct (Qle_bool hi lo) eqn:E2.
    + apply Qle_bool_iff in E2. split; lra.
    + split; lra.
  - assert (Hv : v < hi).
    { apply Qnot_le_lt. intros Hc. apply Qle_bool_iff in Hc. congruence. }
    destruct (Qle_bool v lo) eqn:E2.
    + split; lra.
    + assert (lo < v).
      { apply Qnot_le_lt. intros Hc. apply Qle_bool_iff in Hc. congruence. }
      split; lra.
Qed.

Lemma get2_shaped (n m : nat) (st : list (list Q)) (i d : nat) :
  shaped n m st -> (i < n)%nat -> (d < m)%nat -> exists v, get2 st i d = inr v.
Proof.
  intros [Hn Hrows] Hi Hd. unfold get2.
  destruct (lookup_lt_is_Some_2 st i ltac:(lia)) as [row Hrow]. rewrite Hrow.
  assert (Hlen : List.length row = m).
  { rewrite Forall_forall in Hrows. apply Hrows. eapply list_elem_of_lookup_2. eauto. }
  destruct (lookup_lt_is_Some_2 row d ltac:(lia)) as [v Hv]. rewrite Hv. eauto.
Qed.

Lemma set2_shaped (n m : nat) (st : list (list Q)) (i d : nat) (v : Q) :
  shaped n m st -> (i < n)%nat -> (d < m)%nat ->
  exists st', set2 st i d v = inr st' /\ shaped n m st'
              /\ get2 st' i d = inr v
              /\ forall i' d', (i', d') <> (i, d) -> get2 st' i' d' = get2 st i' d'.
Proof.
  intros [Hn Hrows] Hi Hd. unfold set2.
  destruct (lookup_lt_is_Some_2 st i ltac:(lia)) as [row Hrow]. rewrite Hrow.
  assert (Hlen : List.length row = m).
  { rewrite Forall_forall in Hrows. apply Hrows. eapply list_elem_of_lookup_2. eauto. }
  destruct (Nat.ltb_spec d (List.length row)); [|lia].
  eexists. split; [reflexivity|]. split; [|split].
  - split; [now rewrite length_insert|].
    apply Forall_insert; [assumption|]. now rewrite length_insert.
  - unfold get2. rewrite list_lookup_insert_eq by lia.
    now rewrite list_lookup_insert_eq by lia.
  - intros i' d' Hne. unfold get2.
    destruct (decide (i' = i)) as [->|Hi'].
    + rewrite list_lookup_insert_eq by lia. rewrite Hrow.
      rewrite list_lookup_insert_ne by congruence. reflexivity.
    + now rewrite list_lookup_insert_ne by congruence.
Qed.

Lemma for_each_shaped (n m : nat)
    (body : list (list Q) -> nat -> LatticeError + list (list Q))
    (indices : list nat) :
  (forall st x, In x indices -> shaped n m st ->
                exists st', body st x = inr st' /\ shaped n m st') ->
  forall st, shaped n m st ->
             exists st', for_each body indices st = inr st' /\ shaped n m st'.
Proof.
  induction indices as [|x rest IH]; intros Hbody st Hst; cbn [for_each].
  - eauto.
  - destruct (Hbody st x (or_introl eq_refl) Hst) as (st1 & -> & Hst1).
    apply IH; [|assumption]. intros st2 y Hy. apply Hbody. now right.
Qed.

Lemma init_well_formed (n m : Z) : well_formed (init n m).
Proof.
  split; [|cbn; lia]. split; cbn.
  - apply repeat_length.
  - apply Forall_forall. intros row Hrow. apply list_elem_of_In in Hrow.
    apply repeat_spec in Hrow. subst. apply repeat_length.
Qed.

Lemma propagate_well_formed (self : QuantumLattice) (damping : Q) :
  well_formed self ->
  exists self', propagate self damping = inr self' /\ well_formed self'.
Proof.
  intros [Hshape Hhist]. unfold propagate.
  set (n := Z.to_nat (nodes self)) in *. set (m := Z.to_nat (dimensions self)) in *.
  assert (Hloops : exists st',
             for_each
               (fun st i =>
                  for_each (fun st' d => propagate_cell self damping st' i d)
                    (seq 0 m) st)
               (seq 0 n) (state self) = inr st'
             /\ shaped n m st').
  { apply for_each_shaped; [|assumption].
    intros st i Hi Hst. apply in_seq in Hi.
    apply for_each_shaped; [|assumption].
    intros st1 d Hd Hst1. apply in_seq in Hd.
    unfold propagate_cell.
    assert (Hpos : (0 < nodes self)%Z) by lia.
    destruct (get2_shaped n m (state self)
                (Z.to_nat ((Z.of_nat i - 1) mod nodes self)) d Hshape)
      as [l ->]; [pose proof (Z.mod_pos_bound (Z.of_nat i - 1) _ Hpos); lia | lia |].
    destruct (get2_shaped n m (state self)
                (Z.to_nat ((Z.of_nat i + 1) mod nodes self)) d Hshape)
      as [r ->]; [pose proof (Z.mod_pos_bound (Z.of_nat i + 1) _ Hpos); lia | lia |].
    destruct (get2_shaped n m (state self) i d Hshape) as [c ->]; [lia | lia |].
    destruct (set2_shaped n m st1 i d
                ((c * (4 # 10) + l * (3 # 10) + r * (3 # 10)) * damping) Hst1)
      as (st2 & -> & Hst2 & _); [lia | lia |]. eauto. }
  destruct Hloops as (st' & -> & Hst').
  eexists. split; [reflexivity|]. split; [exact Hst'|]. cbn [history].
  assert (Hlen : List.length (history self ++ [st'])%list
                 = S (List.length (history self)))
    by (rewrite length_app; cbn; lia).
  destruct (Nat.ltb_spec 100 (List.length (history self ++ [st'])%list)) as [Hl|Hl].
  - destruct (history self ++ [st'])%list as [|h0 l]; cbn [tl List.length] in *; lia.
  - exact Hl.
Qed.

Lemma excite_well_formed (self : QuantumLattice) (index : Z) (amplitude : Q)
    (dimension : Z) :
  well_formed self ->
  (0 <= index < nodes self)%Z -> (0 <= dimension < dimensions self)%Z ->
  exists v self',
    get2 (state self) (Z.to_nat index) (Z.to_nat dimension) = inr v
    /\ excite self index amplitude dimension = inr self'
    /\ get2 (state self') (Z.to_nat index) (Z.to_nat dimension)
       = inr (clamp (-10) 10 (v + amplitude))
    /\ (forall i d, (i, d) <> (Z.to_nat index, Z.to_nat dimension) ->
                    get2 (state self') i d = get2 (state self) i d)
    /\ history self' = history self
    /\ well_formed self'.
Proof.
  intros [Hshape Hhist] Hi Hd. unfold excite.
  assert (Hcond : ((0 <=? index) && (index <? nodes self)
                   && (0 <=? dimension) && (dimension <? dimensions self))%Z = true).
  { repeat (apply andb_true_iff; split);
      try (apply Z.leb_le; lia); apply Z.ltb_lt; lia. }
  rewrite Hcond.
  set (i := Z.to_nat index). set (d := Z.to_nat dimension).
  set (n := Z.to_nat (nodes self)) in *. set (m := Z.to_nat (dimensions self)) in *.
  assert (Hin : (i < n)%nat) by lia. assert (Hdm : (d < m)%nat) by lia.
  destruct (get2_shaped n m (state self) i d Hshape Hin Hdm) as [v Hv].
  rewrite Hv.
  destruct (set2_shaped n m (state self) i d (v + amplitude) Hshape Hin Hdm)
    as (st1 & -> & Hst1 & Hget1 & Hrest1).
  rewrite Hget1.
  destruct (set2_shaped n m st1 i d (clamp (-10) 10 (v + amplitude)) Hst1 Hin Hdm)
    as (st2 & -> & Hst2 & Hget2 & Hrest2).
  exists v. eexists. split; [reflexivity|]. split; [reflexivity|].
  cbn [state history nodes dimensions]. split; [exact Hget2|].
  split; [|split; [reflexivity|split; assumption]].
  intros i' d' Hne. now rewrite Hrest2, Hrest1.
Qed.

Lemma excite_returns (self : QuantumLattice) (index : Z) (amplitude : Q)
    (dimension : Z) :
  well_formed self ->
  exists self', excite self index amplitude dimension = inr self'
                /\ well_formed self'.
Proof.
  intros Hwf.
  destruct (((0 <=? index) && (index <? nodes self)
             && (0 <=? dimension) && (dimension <? dimensions self))%Z) eqn:Hc.
  - apply andb_true_iff in Hc as [Hc H4]. apply andb_true_iff in Hc as [Hc H3].
    apply andb_true_iff in Hc as [H1 H2].
    apply Z.leb_le in H1, H3. apply Z.ltb_lt in H2, H4.
    destruct (excite_well_formed self index amplitude dimension Hwf)
      as (v & self' & _ & He & _ & _ & _ & Hwf'); [lia | lia |]. eauto.
  - unfold excite. rewrite Hc. eauto.
Qed.

Lemma reachable_well_formed (self : QuantumLattice) :
  reachable self -> well_formed self.
Proof.
  induction 1 as [n m|self self' index amplitude dimension _ IH He
                 |self self' damping _ IH Hp].
  - apply init_well_formed.
  - destruct (excite_returns self index amplitude dimension IH) as (s & Hs & Hwf).
    rewrite Hs in He. now inversion He; subst.
  - destruct (propagate_well_formed self damping IH) as (s & Hs & Hwf).
    rewrite Hs in Hp. now inversion Hp; subst.
Qed.

(** X20. Exciting a cell.  An index or a dimension out of range changes
    nothing.  In range, on a lattice made by the constructor and its two
    operations, the cell becomes its old value plus the amplitude, cut to
    the range from -10 to 10; every other cell and the history stay as
    they were. *)
Theorem excite_clamps_cell :
  (forall (self : QuantumLattice) (index : Z) (amplitude : Q) (dimension : Z),
      ~ ((0 <= index < nodes self)%Z /\ (0 <= dimension < dimensions self)%Z) ->
      excite self index amplitude dimension = inr self)
  /\
  (forall (self : QuantumLattice) (index : Z) (amplitude : Q) (dimension : Z),
      reachable self ->
      (0 <= index < nodes self)%Z ->
      (0 <= dimension < dimensions self)%Z ->
      exists v self',
        get2 (state self) (Z.to_nat index) (Z.to_nat dimension) = inr v
        /\ excite self index amplitude dimension = inr self'
        /\ get2 (state self') (Z.to_nat index) (Z.to_nat dimension)
           = inr (clamp (-10) 10 (v + amplitude))
        /\ -10 <= clamp (-10) 10 (v + amplitude) <= 10
        /\ (forall i d, (i, d) <> (Z.to_nat index, Z.to_nat dimension) ->
                        get2 (state self') i d = get2 (state self) i d)
        /\ history self' = history self).
Proof.
  split.
  - intros self index amplitude dimension Hout. unfold excite.
    destruct (((0 <=? index) && (index <? nodes self)
               && (0 <=? dimension) && (dimension <? dimensions self))%Z) eqn:Hc;
      [|reflexivity].
    apply andb_true_iff in Hc as [Hc H4]. apply andb_true_iff in Hc as [Hc H3].
    apply andb_true_iff in Hc as [H1 H2].
    apply Z.leb_le in H1, H3. apply Z.ltb_lt in H2, H4. exfalso. apply Hout. lia.
  - intros self index amplitude dimension Hreach Hi Hd.
    destruct (excite_well_formed self index amplitude dimension
                (reachable_well_formed self Hreach) Hi Hd)
      as (v & self' & Hv & He & Hcell & Hrest & Hhist & _).
    exists v, self'. repeat split; try assumption;
      apply (clamp_range (-10) 10 (v + amplitude)); lra.
Qed.

Lemma excite_clamps_cell_witness :
  exists v self',
    get2 (state (init 16 4)) (Z.to_nat 3) (Z.to_nat 0) = inr v
    /\ excite (init 16 4) 3 25 0 = inr self'
    /\ get2 (state self') (Z.to_nat 3) (Z.to_nat 0) = inr (clamp (-10) 10 (v + 25))
    /\ -10 <= clamp (-10) 10 (v + 25) <= 10
    /\ (forall i d, (i, d) <> (Z.to_nat 3, Z.to_nat 0) ->
                    get2 (state self') i d = get2 (state (init 16 4)) i d)
    /\ history self' = history (init 16 4).
Proof.
  apply (proj2 excite_clamps_cell (init 16 4) 3%Z 25 0%Z).
  - apply reach_init.
  - cbn. lia.
  - cbn. lia.
Defined.

(** X21. The lattice never breaks.  On a lattice made by the constructor
    and its two operations, [excite] and [propagate] return - no index is
    ever out of range -, the state keeps its [nodes] rows of [dimensions]
    cells, and the history never holds more than 100 states. *)
Theorem lattice_operations_total :
  forall self : QuantumLattice,
    reachable self ->
    shaped (Z.to_nat (nodes self)) (Z.to_nat (dimensions self)) (state self)
    /\ (List.length (history self) <= 100)%nat
    /\ (forall damping, exists self', propagate self damping = inr self')
    /\ (forall index amplitude dimension,
          exists self', excite self index amplitude dimension = inr self').
Proof.
  intros self Hreach. pose proof (reachable_well_formed self Hreach) as Hwf.
  destruct Hwf as [Hshape Hhist]. repeat split; try assumption; try apply Hshape.
  - intros damping.
    destruct (propagate_well_formed self damping (conj Hshape Hhist)) as (s & Hs & _).
    eauto.
  - intros index amplitude dimension.
    destruct (excite_returns self index amplitude dimension (conj Hshape Hhist))
      as (s & Hs & _). eauto.
Qed.

Lemma lattice_operations_total_witness :
  let self := init 16 4 in
  shaped (Z.to_nat (nodes self)) (Z.to_nat (dimensions self)) (state self)
  /\ (List.length (history self) <= 100)%nat
  /\ (forall damping, exists self', propagate self damping = inr self')
  /\ (forall index amplitude dimension,
        exists self', excite self index amplitude dimension = inr self').
Proof.
  intros self. apply (lattice_operations_total self). apply reach_init.
Defined.

(** X22. The energy.  [get_energy] raises the division error exactly when
    the lattice has no cell ([nodes * dimensions] is 0); otherwise what it
    returns lies between 0 and 1. *)
Theorem energy_in_unit_range :
  forall self : QuantumLattice,
    (get_energy self = inl ZeroDivisionError <-> (nodes self * dimensions self = 0)%Z)
    /\ (forall e, get_energy self = inr e -> 0 <= e <= 1).
Proof.
  intros self. unfold get_energy.
  assert (Hz : Qeq_bool (inject_Z (nodes self * dimensions self) * 10) 0 = true
               <-> (nodes self * dimensions self = 0)%Z).
  { rewrite Qeq_bool_iff. unfold Qeq, Qmult, inject_Z. cbn. lia. }
  destruct (Qeq_bool (inject_Z (nodes self * dimensions self) * 10) 0) eqn:E.
  - split; [|discriminate]. split; [intros _; now apply Hz | reflexivity].
  - split.
    + split; [discriminate|]. intros H. apply Hz in H. discriminate.
    + intros e H. inversion H; subst. apply clamp_range. lra.
Qed.

Lemma energy_in_unit_range_witness :
  exists e, get_energy (init 16 4) = inr e /\ 0 <= e <= 1.
Proof.
  eexists. split; [reflexivity|].
  apply (proj2 (energy_in_unit_range (init 16 4))). reflexivity.
Defined.

End LatticeFacts.

(* ===================================================================== *)
(** ** [HybridSwarm.vibe] and [HybridSwarm._single] of [app.py] *)
(* ===================================================================== *)

Module HybridRouting.
Import Py Hybrid Lattice.

(** The name a provider has in the messages of [_call_*]. *)
Definition display_name (p : Provider) : string :=
  match p with
  | Groq => "Groq"
  | OpenRouter => "OpenRouter"
  | Gemini => "Gemini"
  end.

(** [_call_groq], [_call_openrouter], [_call_gemini]: without the key the
    error dict, and no request; with it, the request, whose outcome - the
    dict of the [try] body or of its [except] - is [net p].  The second
    component lists the requests sent. *)
Definition _call (self : HybridSwarm) (net : Provider -> dict pyval) (p : Provider)
  : dict pyval * list Provider :=
  if truthy (key_of self p) then (net p, [p])
  else ([("error", PStr (display_name p ++ " key missing"))], []).

(** [_single(provider, prompt, code)] *)
Definition _single (self : HybridSwarm) (net : Provider -> dict pyval)
    (provider : string) : dict pyval * list Provider :=
  if String.eqb provider "gemini" && truthy (google_key self)
  then _call self net Gemini
  else if String.eqb provider "groq" && truthy (groq_key self)
  then _call self net Groq
  else if String.eqb provider "openrouter" && truthy (openrouter_key self)
  then _call self net OpenRouter
  else if truthy (google_key self) then _call self net Gemini
  else ([("error", PStr "No API keys configured")], []).

(** [vibe(prompt, code, user_tier, swarm_mode)]: the result and the
    requests sent. *)
Definition vibe (self : HybridSwarm) (lattice : QuantumLattice)
    (net : Provider -> dict pyval) (user_tier swarm_mode : string)
  : LatticeError + dict pyval * list Provider :=
  match _route lattice user_tier swarm_mode with
  | inl e => inl e
  | inr provider =>
      if String.eqb provider "swarm"
      then inr (_swarm self (fun p => inr (fst (_call self net p))),
                flat_map (fun p => snd (_call self net p)) (tasks self))
      else inr (_single self net provider)
  end.

End HybridRouting.

Module HybridRoutingFacts.
Import Py Hybrid Lattice HybridRouting.

Lemma call_log (self : HybridSwarm) (net : Provider -> dict pyval) (p q : Provider) :
  In q (snd (_call self net p)) -> q = p /\ truthy (key_of self p) = true.
Proof.
  unfold _call. destruct (truthy (key_of self p)); cbn; [|tauto].
  intros [<- | []]. auto.
Qed.

Lemma call_log_length (self : HybridSwarm) (net : Provider -> dict pyval) (p : Provider) :
  (List.length (snd (_call self net p)) <= 1)%nat.
Proof. unfold _call. destruct (truthy (key_of self p)); cbn; lia. Qed.

Lemma single_log (self : HybridSwarm) (net : Provider -> dict pyval)
    (provider : string) (q : Provider) :
  In q (snd (_single self net provider)) -> truthy (key_of self q) = true.
Proof.
  unfold _single.
  repeat match goal with
         | |- context [if ?c then _ else _] => destruct c
         end;
    try (intros H; now destruct (call_log _ _ _ _ H) as [-> ?]).
  intros [].
Qed.

Lemma single_log_length (self : HybridSwarm) (net : Provider -> dict pyval)
    (provider : string) :
  (List.length (snd (_single self net provider)) <= 1)%nat.
Proof.
  unfold _single.
  repeat match goal with
         | |- context [if ?c && ?d then _ else _] => destruct (c && d)
         end;
    try apply call_log_length.
  destruct (truthy (google_key self)); [apply call_log_length | cbn; lia].
Qed.

Lemma tasks_have_keys (self : HybridSwarm) (p : Provider) :
  In p (tasks self) -> truthy (key_of self p) = true.
Proof.
  unfold tasks. intros H. apply in_app_or in H as [H | H].
  - destruct (truthy (groq_key self)) eqn:E; [|destruct H].
    destruct H as [<- | []]. exact E.
  - apply in_app_or in H as [H | H].
    + destruct (truthy (openrouter_key self)) eqn:E; [|destruct H].
      destruct H as [<- | []]. exact E.
    + destruct (truthy (google_key self)) eqn:E; [|destruct H].
      destruct H as [<- | []]. exact E.
Qed.

(** X23. No request without a key.  Whatever the tier, the mode and the
    lattice, [vibe] sends requests only to providers whose key is set; and
    unless the route is the swarm it sends at most one. *)
Theorem vibe_respects_keys :
  forall (self : HybridSwarm) (lattice : QuantumLattice)
         (net : Provider -> dict pyval) (user_tier swarm_mode : string)
         (result : dict pyval) (sent : list Provider),
    vibe self lattice net user_tier swarm_mode = inr (result, sent) ->
    (forall p, In p sent -> truthy (key_of self p) = true)
    /\ (_route lattice user_tier swarm_mode <> inr "swarm" ->
        (List.length sent <= 1)%nat).
Proof.
  intros self lattice net user_tier swarm_mode result sent. unfold vibe.
  destruct (_route lattice user_tier swarm_mode) as [e|provider]; [discriminate|].
  destruct (String.eqb provider "swarm") eqn:E; intros H; inversion H; subst; clear H.
  - split.
    + intros p Hp. apply in_flat_map in Hp as (t & Ht & Hp).
      destruct (call_log _ _ _ _ Hp) as [-> Hk]. exact Hk.
    + intros Hne. apply String.eqb_eq in E. congruence.
  - split.
    + intros p Hp. apply (single_log self net provider). now rewrite H1.
    + intros _. pose proof (single_log_length self net provider) as Hl.
      now rewrite H1 in Hl.
Qed.

Lemma vibe_respects_keys_witness :
  let self := mkSwarm "gsk-1" "" "" in
  let net := fun _ : Provider => [("new_code", PStr "print(1)")] in
  (forall p, In p [Groq] -> truthy (key_of self p) = true)
  /\ (_route (init 16 4) "pro" "quality" <> inr "swarm" ->
      (List.length [Groq] <= 1)%nat).
Proof.
  intros self net.
  apply (vibe_respects_keys self (init 16 4) net "pro" "quality"
           (_swarm self (fun p => inr (fst (_call self net p))))).
  reflexivity.
Defined.

(** X24. Where a request goes.  A free user is served by Gemini alone,
    whatever mode is asked and whatever the lattice holds: with the Google
    key set the result is Gemini's, with it unset the result is the error
    "No API keys configured" and nothing is sent, even when other keys are
    set.  Any other tier asking for "quality" gets the swarm.  Neither
    route reads the lattice. *)
Theorem vibe_fixed_routes :
  (forall (self : HybridSwarm) (lattice : QuantumLattice)
          (net : Provider -> dict pyval) (swarm_mode : string),
      vibe self lattice net "free" swarm_mode
      = inr (if truthy (google_key self) then (net Gemini, [Gemini])
             else ([("error", PStr "No API keys configured")], [])))
  /\
  (forall (self : HybridSwarm) (lattice : QuantumLattice)
          (net : Provider -> dict pyval) (user_tier : string),
      user_tier <> "free"%string ->
      vibe self lattice net user_tier "quality"
      = inr (_swarm self (fun p => inr (net p)), tasks self)).
Proof.
  split.
  - intros self lattice net swarm_mode. unfold vibe, _route.
    cbn [String.eqb Ascii.eqb Bool.eqb]. unfold _single.
    cbn [String.eqb Ascii.eqb Bool.eqb andb]. unfold _call. cbn [key_of].
    destruct (truthy (google_key self)); reflexivity.
  - intros self lattice net user_tier Hne. unfold vibe, _route.
    apply String.eqb_neq in Hne. rewrite Hne.
    cbn [String.eqb Ascii.eqb Bool.eqb]. f_equal.
    assert (Hcall : forall p, In p (tasks self) -> _call self net p = (net p, [p])).
    { intros p Hp. unfold _call. now rewrite (tasks_have_keys self p Hp). }
    f_equal.
    + unfold _swarm. destruct (tasks self) as [|t ts] eqn:Et; [reflexivity|].
      rewrite <- Et in *. f_equal. apply map_ext_in. intros p Hp.
      now rewrite (Hcall p Hp).
    + induction (tasks self) as [|t ts IH]; [reflexivity|]. cbn [flat_map].
      rewrite (Hcall t (or_introl eq_refl)). cbn. f_equal. apply IH.
      intros p Hp. apply Hcall. now right.
Qed.

Lemma vibe_fixed_routes_witness :
  let self := mkSwarm "gsk-1" "" "AIza" in
  let net := fun _ : Provider => [("new_code", PStr "print(1)")] in
  vibe self (init 16 4) net "pro" "quality"
  = inr (_swarm self (fun p => inr (net p)), tasks self).
Proof.
  intros self net.
  apply (proj2 vibe_fixed_routes self (init 16 4) net "pro").
  discriminate.
Defined.

End HybridRoutingFacts.
